(** * Background agents launcher: lifecycle model and properties

    A shallow embedding of [launch_background_agents.py]
    (class [BackgroundAgentsLauncher] and [main]).

    The launcher is asyncio code: every method is a coroutine that reads and
    writes the attributes of one shared launcher object and talks to external
    collaborators (PostgreSQL adapter, shared state, agent coordinator, the
    agents, the asyncio library).  Coroutines are embedded as finite
    interaction trees over four kinds of nodes: reading the launcher object,
    updating one of its attributes, emitting an observable effect (log line,
    task creation, ...), and calling a collaborator.  A call is answered by
    an environment oracle; a call is also the only place where another task
    may run.

    The last part embeds the environment file: how
    [setup_postgresql_environment.py] collects the settings and writes them,
    and how the launcher reads them back. *)

From Stdlib Require Import String List ZArith QArith Bool Lia.
Import ListNotations.

Local Open Scope string_scope.
Local Open Scope list_scope.
Local Open Scope Z_scope.

Set Implicit Arguments.
#[local] Set Warnings "-register-all".

(* ================================================================== *)
(** ** Python values and exceptions *)

(** The dynamically typed values that cross the collaborator interfaces.
    Floats are represented by rationals (no NaN, no infinities); clock
    readings (uptime, durations, ISO timestamps) are opaque. *)
Inductive value : Type :=
| VNone
| VBool (b : bool)
| VInt (z : Z)
| VFloat (q : Q)
| VStr (s : string)
| VDict (items : list (string * value))
| VClock (what : string).

(** Exceptions.  [KeyboardInterrupt] and [SystemExit] derive from
    BaseException only, so [except Exception] does not catch them. *)
Inductive exn : Type :=
| RuntimeError (fmt : string) (args : list value)
| TimeoutError
| KeyError (key : string)
| TypeError
| AttributeError
| ValueError
| OverflowError
| OtherException (msg : string)
| KeyboardInterrupt
| SystemExit (code : Z).

Definition is_exception (e : exn) : bool :=
  match e with
  | KeyboardInterrupt | SystemExit _ => false
  | _ => true
  end.

Definition is_timeout (e : exn) : bool :=
  match e with TimeoutError => true | _ => false end.

(** Python truthiness, as used by [if success] / [if not success]. *)
Definition truthy (v : value) : bool :=
  match v with
  | VNone => false
  | VBool b => b
  | VInt z => negb (z =? 0)
  | VFloat q => negb (Qeq_bool q 0)
  | VStr s => negb (String.eqb s "")
  | VDict items => match items with [] => false | _ => true end
  | VClock _ => true
  end.

(** Numeric reading of a value ([bool] is a subclass of [int]). *)
Definition as_number (v : value) : option Q :=
  match v with
  | VBool b => Some (if b then 1%Q else 0%Q)
  | VInt z => Some (inject_Z z)
  | VFloat q => Some q
  | _ => None
  end.

Definition Qltb (x y : Q) : bool := negb (Qle_bool y x).

Fixpoint assoc (k : string) (items : list (string * value)) : option value :=
  match items with
  | [] => None
  | (k', v) :: rest => if String.eqb k k' then Some v else assoc k rest
  end.

(** [d[k]] *)
Definition getitem (d : value) (k : string) : value + exn :=
  match d with
  | VDict items =>
      match assoc k items with Some v => inl v | None => inr (KeyError k) end
  | _ => inr TypeError
  end.

(** [d.get(k, default)] *)
Definition dict_get (d : value) (k : string) (default : value) : value + exn :=
  match d with
  | VDict items =>
      inl (match assoc k items with Some v => v | None => default end)
  | _ => inr AttributeError
  end.

(** [v != 'text'] *)
Definition differs_from_str (v : value) (text : string) : bool :=
  match v with
  | VStr s => negb (String.eqb s text)
  | _ => true
  end.

(* ================================================================== *)
(** ** Observable effects *)

Inductive level : Type := DEBUG | INFO | WARNING | ERROR.

Inductive logarg : Type :=
| LV (v : value)
| LE (e : exn).

(** Calls to collaborators.  Constructors of collaborator classes are calls
    too: they can raise. *)
Inductive call : Type :=
| Construct (cls : string) (args : list (string * value))
| AdapterInitialize
| AdapterHealthCheck
| AdapterClose
| SharedStateInitialize
| GetSystemHealth
| LogSystemEvent (event_type : string) (payload : list (string * value))
                 (severity : string)
| LogBusinessMetric (category name : string) (v : value)
                    (payload : list (string * value))
| SharedStateClose
| SystemInitializerInitialize
| CoordinatorInitialize
| RegisterAgent (agent_id : string)
| StartAllAgents
| HandleAgentFailure (agent_id : string) (reason : exn)
| CoordinatorShutdown
| AgentStartup (agent_id : string)
| Sleep (seconds : Q)
| WaitForGather (stop_tasks : list string) (timeout : Z)
| ShutdownEventWait.

(** How a call ends: it returns, it raises, or ([Pending]) it does not
    complete, which leaves the caller suspended in it. *)
Inductive outcome : Type :=
| Returns (v : value)
| Raises (e : exn)
| Pending.

(** Coroutines handed to [asyncio.create_task]. *)
Inductive coroutine : Type :=
| CoMonitorSystemHealth
| CoRunAgentWithRecovery (agent_id : string)
| CoAgentShutdown (agent_id : string)
| CoShutdown.

Inductive event : Type :=
| Log (lvl : level) (fmt : string) (args : list logarg)
| Called (c : call) (r : outcome)
| CreateTask (co : coroutine)
| CancelTask (co : coroutine)
| CancelAgentTask (agent_id : string)
| EventSet.

(* ================================================================== *)
(** ** The launcher object *)

Record Config : Type := mkConfig {
  db_host : string;
  db_port : Z;
  db_database : string;
  db_user : string;
  db_password : string;
  db_pool_size : Z;
  db_max_overflow : Z;
  startup_delay : Q;
  health_check_interval : Z;
  recovery_attempts : Z;
  recovery_delay : Q;
  heartbeat_interval : Z;
  performance_interval : Z;
  langsmith_interval : Z;
  ai_help_interval : Z;
  graceful_shutdown_timeout : Z;
  startup_timeout : Z;
  health_check_timeout : Z
}.

(** [load_configuration] with no environment variable set. *)
Definition default_config : Config :=
  {| db_host := "localhost"; db_port := 5432;
     db_database := "background_agents"; db_user := "postgres";
     db_password := ""; db_pool_size := 10; db_max_overflow := 20;
     startup_delay := 2%Q; health_check_interval := 30;
     recovery_attempts := 3; recovery_delay := 5%Q;
     heartbeat_interval := 60; performance_interval := 120;
     langsmith_interval := 300; ai_help_interval := 30;
     graceful_shutdown_timeout := 30; startup_timeout := 60;
     health_check_timeout := 10 |}.

(** An agent instance, as far as the launcher touches it. *)
Record Agent : Type := mkAgent {
  agent_class : string;
  work_interval : Z
}.

(** The attributes of [BackgroundAgentsLauncher].  The four component
    attributes are [None] ([false]) or a collaborator object ([true]);
    [agents] and [agent_tasks] are dicts in insertion order; [agent_tasks]
    maps an agent id to whether its task is done. *)
Record Launcher : Type := mkLauncher {
  postgresql_adapter : bool;
  shared_state : bool;
  agent_coordinator : bool;
  system_initializer : bool;
  agents : list (string * Agent);
  agent_tasks : list (string * bool);
  is_running : bool;
  startup_time : bool;
  shutdown_event : bool;
  config : Config
}.

(** [BackgroundAgentsLauncher.__init__] *)
Definition new_launcher (cfg : Config) : Launcher :=
  {| postgresql_adapter := false; shared_state := false;
     agent_coordinator := false; system_initializer := false;
     agents := []; agent_tasks := [];
     is_running := false; startup_time := false; shutdown_event := false;
     config := cfg |}.

Definition set_postgresql_adapter (b : bool) (s : Launcher) : Launcher :=
  mkLauncher b (shared_state s) (agent_coordinator s) (system_initializer s)
    (agents s) (agent_tasks s) (is_running s) (startup_time s)
    (shutdown_event s) (config s).

Definition set_shared_state (b : bool) (s : Launcher) : Launcher :=
  mkLauncher (postgresql_adapter s) b (agent_coordinator s)
    (system_initializer s) (agents s) (agent_tasks s) (is_running s)
    (startup_time s) (shutdown_event s) (config s).

Definition set_agent_coordinator (b : bool) (s : Launcher) : Launcher :=
  mkLauncher (postgresql_adapter s) (shared_state s) b (system_initializer s)
    (agents s) (agent_tasks s) (is_running s) (startup_time s)
    (shutdown_event s) (config s).

Definition set_system_initializer (b : bool) (s : Launcher) : Launcher :=
  mkLauncher (postgresql_adapter s) (shared_state s) (agent_coordinator s) b
    (agents s) (agent_tasks s) (is_running s) (startup_time s)
    (shutdown_event s) (config s).

Definition set_agents (a : list (string * Agent)) (s : Launcher) : Launcher :=
  mkLauncher (postgresql_adapter s) (shared_state s) (agent_coordinator s)
    (system_initializer s) a (agent_tasks s) (is_running s) (startup_time s)
    (shutdown_event s) (config s).

Definition set_is_running (b : bool) (s : Launcher) : Launcher :=
  mkLauncher (postgresql_adapter s) (shared_state s) (agent_coordinator s)
    (system_initializer s) (agents s) (agent_tasks s) b (startup_time s)
    (shutdown_event s) (config s).

Definition set_startup_time (b : bool) (s : Launcher) : Launcher :=
  mkLauncher (postgresql_adapter s) (shared_state s) (agent_coordinator s)
    (system_initializer s) (agents s) (agent_tasks s) (is_running s) b
    (shutdown_event s) (config s).

Definition set_shutdown_event (b : bool) (s : Launcher) : Launcher :=
  mkLauncher (postgresql_adapter s) (shared_state s) (agent_coordinator s)
    (system_initializer s) (agents s) (agent_tasks s) (is_running s)
    (startup_time s) b (config s).

(** [d[k] = v] on an insertion-ordered dict. *)
Fixpoint dict_set {V : Type} (k : string) (v : V) (d : list (string * V))
  : list (string * V) :=
  match d with
  | [] => [(k, v)]
  | (k', v') :: rest =>
      if String.eqb k k' then (k, v) :: rest else (k', v') :: dict_set k v rest
  end.

Fixpoint dict_mem {V : Type} (k : string) (d : list (string * V)) : bool :=
  match d with
  | [] => false
  | (k', _) :: rest => String.eqb k k' || dict_mem k rest
  end.

(* ================================================================== *)
(** ** Coroutines *)

(** A coroutine body.  [Get] reads the launcher object, [Upd] assigns to its
    attributes, [Await] is a call to a collaborator; its continuation
    receives what the collaborator returned or raised.  [Spin] marks a loop
    that was unrolled up to its fuel and would go on, [Block] a coroutine
    suspended in a call that does not complete. *)
Inductive M (A : Type) : Type :=
| Ret (a : A)
| Throw (e : exn)
| Spin
| Block
| Get (k : Launcher -> M A)
| Upd (f : Launcher -> Launcher) (k : M A)
| Emit (ev : event) (k : M A)
| Await (c : call) (k : outcome -> M A).

Arguments Ret {A} a.
Arguments Throw {A} e.
Arguments Spin {A}.
Arguments Block {A}.
Arguments Get {A} k.
Arguments Upd {A} f k.
Arguments Emit {A} ev k.
Arguments Await {A} c k.

Fixpoint bind {A B : Type} (m : M A) (f : A -> M B) : M B :=
  match m with
  | Ret a => f a
  | Throw e => Throw e
  | Spin => Spin
  | Block => Block
  | Get k => Get (fun s => bind (k s) f)
  | Upd g k => Upd g (bind k f)
  | Emit ev k => Emit ev (bind k f)
  | Await c k => Await c (fun r => bind (k r) f)
  end.

Notation "x <- m ;; k" := (bind m (fun x => k))
  (at level 61, m at next level, right associativity).
Notation "m ;; k" := (bind m (fun _ => k))
  (at level 61, right associativity).

(** [try: m  except <class> as e: h e], for the exceptions selected by
    [catches]; the others propagate. *)
Fixpoint try_except {A : Type} (catches : exn -> bool) (m : M A)
  (h : exn -> M A) : M A :=
  match m with
  | Ret a => Ret a
  | Throw e => if catches e then h e else Throw e
  | Spin => Spin
  | Block => Block
  | Get k => Get (fun s => try_except catches (k s) h)
  | Upd g k => Upd g (try_except catches k h)
  | Emit ev k => Emit ev (try_except catches k h)
  | Await c k => Await c (fun r => try_except catches (k r) h)
  end.

(** [try: m  finally: fin] *)
Fixpoint try_finally {A : Type} (m : M A) (fin : M unit) : M A :=
  match m with
  | Ret a => fin ;; Ret a
  | Throw e => fin ;; Throw e
  | Spin => Spin
  | Block => Block
  | Get k => Get (fun s => try_finally (k s) fin)
  | Upd g k => Upd g (try_finally k fin)
  | Emit ev k => Emit ev (try_finally k fin)
  | Await c k => Await c (fun r => try_finally (k r) fin)
  end.

Definition get : M Launcher := Get (fun s => Ret s).
Definition modify (f : Launcher -> Launcher) : M unit := Upd f (Ret tt).
Definition emit (ev : event) : M unit := Emit ev (Ret tt).
Definition log (lvl : level) (fmt : string) (args : list logarg) : M unit :=
  emit (Log lvl fmt args).
Definition raise {A : Type} (e : exn) : M A := Throw e.

(** [await collaborator.method(...)] *)
Definition await (c : call) : M value :=
  Await c (fun r =>
             match r with
             | Returns v => Ret v
             | Raises e => Throw e
             | Pending => Block
             end).

(** A method call on an attribute that may still be [None]. *)
Definition await_on (present : bool) (c : call) : M value :=
  if present then await c else raise AttributeError.

Definition lift {A : Type} (r : A + exn) : M A :=
  match r with inl a => Ret a | inr e => Throw e end.

Fixpoint for_each {X : Type} (xs : list X) (body : X -> M unit) : M unit :=
  match xs with
  | [] => Ret tt
  | x :: rest => body x ;; for_each rest body
  end.

(* ================================================================== *)
(** ** Running a coroutine against an environment *)

(** What the environment answers to the [n]-th call of a run.
    [shutdown_began] tells that, while the caller was suspended in this call,
    another task entered [shutdown] and cleared [is_running]. *)
Record reply : Type := mkReply {
  result : outcome;
  shutdown_began : bool
}.

Definition oracle : Type := nat -> call -> reply.

Inductive status (A : Type) : Type :=
| Returned (a : A)
| Raised (e : exn)
| OutOfFuel
| Suspended.

Arguments Returned {A} a.
Arguments Raised {A} e.
Arguments OutOfFuel {A}.
Arguments Suspended {A}.

Record run_result (A : Type) : Type := mkRun {
  final : status A;
  state : Launcher;
  trace : list event;
  calls : nat
}.

Definition emitted {A : Type} (ev : event) (r : run_result A) : run_result A :=
  mkRun (final r) (state r) (ev :: trace r) (calls r).

Definition interfere (r : reply) (s : Launcher) : Launcher :=
  if shutdown_began r then set_is_running false s else s.

(** [run env m n s]: run [m] to its end from launcher state [s], the calls
    numbered from [n]. *)
Fixpoint run {A : Type} (env : oracle) (m : M A) (n : nat) (s : Launcher)
  : run_result A :=
  match m with
  | Ret a => mkRun (Returned a) s [] n
  | Throw e => mkRun (Raised e) s [] n
  | Spin => mkRun OutOfFuel s [] n
  | Block => mkRun Suspended s [] n
  | Get k => run env (k s) n s
  | Upd f k => run env k n (f s)
  | Emit ev k => emitted ev (run env k n s)
  | Await c k =>
      let r := env n c in
      emitted (Called c (result r))
        (run env (k (result r)) (S n) (interfere r s))
  end.

(* ================================================================== *)
(** ** The launcher's methods *)

Definition join (sep : string) (l : list string) : string :=
  String.concat sep l.

Definition len {X : Type} (l : list X) : Z := Z.of_nat (length l).

(** The integers Python converts to a float: those that round, to the
    nearest float with ties to even, to a finite float.  The largest finite
    float is [2^1024 - 2^971]; from [2^1024 - 2^970] on the conversion
    raises [OverflowError]. *)
Definition fits_float (z : Z) : bool :=
  Z.abs z <? 2 ^ 1024 - 2 ^ 970.

(** [f"{v:.1f}"]: defined on numbers only, an integer being converted to a
    float first. *)
Definition format_1f (v : value) : Q + exn :=
  match v with
  | VInt z => if fits_float z then inl (inject_Z z) else inr OverflowError
  | VStr _ => inr ValueError
  | _ =>
      match as_number v with
      | Some q => inl q
      | None => inr TypeError
      end
  end.

(** [initialize_system] *)
Definition initialize_system : M unit :=
  log INFO "Initializing background agents system..." [] ;;
  try_except is_exception
    (log INFO "Initializing PostgreSQL adapter..." [] ;;
     s <- get ;;
     _ <- await (Construct "ConnectionConfig"
                   [("host", VStr (db_host (config s)));
                    ("port", VInt (db_port (config s)));
                    ("database", VStr (db_database (config s)));
                    ("user", VStr (db_user (config s)));
                    ("password", VStr (db_password (config s)));
                    ("min_connections", VInt (db_pool_size (config s) / 2));
                    ("max_connections", VInt (db_pool_size (config s)))]) ;;
     _ <- await (Construct "PostgreSQLAdapter" []) ;;
     modify (set_postgresql_adapter true) ;;
     _ <- await AdapterInitialize ;;
     health_check <- await AdapterHealthCheck ;;
     status <- lift (getitem health_check "status") ;;
     (if differs_from_str status "healthy"
      then raise (RuntimeError "PostgreSQL health check failed: {}"
                    [health_check])
      else Ret tt) ;;
     log INFO "PostgreSQL adapter initialized successfully" [] ;;
     log INFO "Initializing shared state..." [] ;;
     _ <- await (Construct "SharedState" []) ;;
     modify (set_shared_state true) ;;
     _ <- await SharedStateInitialize ;;
     log INFO "Shared state initialized successfully" [] ;;
     log INFO "Running system initialization..." [] ;;
     _ <- await (Construct "SystemInitializer" []) ;;
     modify (set_system_initializer true) ;;
     _ <- await SystemInitializerInitialize ;;
     log INFO "System initialization completed" [] ;;
     log INFO "Initializing agent coordinator..." [] ;;
     _ <- await (Construct "AgentCoordinator" []) ;;
     modify (set_agent_coordinator true) ;;
     _ <- await CoordinatorInitialize ;;
     log INFO "Agent coordinator initialized successfully" [] ;;
     log INFO "System infrastructure initialization completed" [])
    (fun e =>
       log ERROR "System initialization failed: {}" [LE e] ;;
       raise e).

(** One block of [create_agents]: construct, set [work_interval], store. *)
Definition create_agent (cls agent_id : string) (interval : Config -> Z)
  : M unit :=
  log INFO "Creating {}..." [LV (VStr cls)] ;;
  _ <- await (Construct cls [("agent_id", VStr agent_id)]) ;;
  modify (fun s =>
            set_agents
              (dict_set agent_id (mkAgent cls (interval (config s)))
                 (agents s)) s).

(** [create_agents] *)
Definition create_agents : M unit :=
  log INFO "Creating agent instances..." [] ;;
  try_except is_exception
    (create_agent "HeartbeatHealthAgent" "heartbeat_health_agent"
       heartbeat_interval ;;
     create_agent "PerformanceMonitor" "performance_monitor"
       performance_interval ;;
     create_agent "LangSmithBridge" "langsmith_bridge" langsmith_interval ;;
     create_agent "AIHelpAgent" "ai_help_agent" ai_help_interval ;;
     s <- get ;;
     log INFO "Created {} agent instances successfully"
       [LV (VInt (len (agents s)))])
    (fun e =>
       log ERROR "Agent creation failed: {}" [LE e] ;;
       raise e).

Definition known_agent_ids : list string :=
  ["heartbeat_health_agent"; "performance_monitor"; "langsmith_bridge";
   "ai_help_agent"].

(** [startup_results.items()] *)
Definition items (v : value) : list (string * value) + exn :=
  match v with
  | VDict kvs => inl kvs
  | _ => inr AttributeError
  end.

Definition successful_of (results : list (string * value)) : list string :=
  map fst (filter (fun kv => truthy (snd kv)) results).

Definition failed_of (results : list (string * value)) : list string :=
  map fst (filter (fun kv => negb (truthy (snd kv))) results).

Definition nonempty {X : Type} (l : list X) : bool :=
  match l with [] => false | _ => true end.

(** [start_agents] *)
Definition start_agents : M unit :=
  log INFO "Starting background agents..." [] ;;
  try_except is_exception
    (for_each known_agent_ids
       (fun agent_id =>
          s <- get ;;
          if dict_mem agent_id (agents s) then
            log INFO "Registering {} with coordinator..."
              [LV (VStr agent_id)] ;;
            _ <- await_on (agent_coordinator s) (RegisterAgent agent_id) ;;
            Ret tt
          else Ret tt) ;;
     log INFO "Starting agents through coordinator..." [] ;;
     s <- get ;;
     startup_results <- await_on (agent_coordinator s) StartAllAgents ;;
     results <- lift (items startup_results) ;;
     let successful_agents := successful_of results in
     let failed_agents := failed_of results in
     (if nonempty successful_agents
      then log INFO "Successfully started agents: {}"
             [LV (VStr (join ", " successful_agents))]
      else Ret tt) ;;
     (if nonempty failed_agents
      then log ERROR "Failed to start agents: {}"
             [LV (VStr (join ", " failed_agents))]
      else Ret tt) ;;
     log INFO "Agent startup completed: {}/{} agents started successfully"
       [LV (VInt (len successful_agents)); LV (VInt (len results))])
    (fun e =>
       log ERROR "Agent startup failed: {}" [LE e] ;;
       raise e).

(** How one pass through the body of the recovery loop ends, with the value
    of the local [recovery_attempts] at that point. *)
Inductive loop_ctl : Type :=
| Continue (attempts : Z)
| Break (attempts : Z).

(** The body of the [while] loop of [run_agent_with_recovery]. *)
Definition recovery_iteration (agent_id : string) (max_attempts : Z)
  (attempts : Z) : M loop_ctl :=
  try_except is_exception
    (log INFO "Starting agent {} (attempt {})"
       [LV (VStr agent_id); LV (VInt (attempts + 1))] ;;
     s <- get ;;
     log DEBUG "Agent {} runner state - is_running: {}"
       [LV (VStr agent_id); LV (VBool (is_running s))] ;;
     log DEBUG "Calling startup() for agent {}..." [LV (VStr agent_id)] ;;
     _ <- await (AgentStartup agent_id) ;;
     log WARNING
       "Agent {} startup() method completed - this indicates the agent's main loop exited"
       [LV (VStr agent_id)] ;;
     (* recovery_attempts = 0 *)
     s <- get ;;
     (if is_running s
      then log WARNING
             "Agent {} stopped unexpectedly while system is still running"
             [LV (VStr agent_id)] ;;
           log DEBUG "Agent {} final state - is_running: {}, shutdown_requested: {}"
             [LV (VStr agent_id)]
      else log INFO "Agent {} stopped because system is shutting down"
             [LV (VStr agent_id)]) ;;
     Ret (Continue 0))
    (fun e =>
       let attempts := attempts + 1 in
       log ERROR "Agent {} failed (attempt {}): {}"
         [LV (VStr agent_id); LV (VInt attempts); LE e] ;;
       s <- get ;;
       if (attempts <=? max_attempts) && is_running s then
         log INFO "Attempting recovery for {} in {} seconds..."
           [LV (VStr agent_id); LV (VFloat (recovery_delay (config s)))] ;;
         _ <- await (Sleep (recovery_delay (config s))) ;;
         s <- get ;;
         try_except is_exception
           (_ <- await_on (agent_coordinator s)
                  (HandleAgentFailure agent_id e) ;;
            Ret tt)
           (fun coord_error =>
              log ERROR "Failed to notify coordinator of agent failure: {}"
                [LE coord_error]) ;;
         Ret (Continue attempts)
       else
         log ERROR "Agent {} exceeded maximum recovery attempts"
           [LV (VStr agent_id)] ;;
         Ret (Break attempts)).

(** The [while self.is_running and recovery_attempts <= max_attempts] loop,
    unrolled [fuel] times; it returns the last value of the counter. *)
Fixpoint recovery_loop (fuel : nat) (agent_id : string) (max_attempts : Z)
  (attempts : Z) : M Z :=
  match fuel with
  | O => Spin
  | S fuel' =>
      s <- get ;;
      if is_running s && (attempts <=? max_attempts) then
        ctl <- recovery_iteration agent_id max_attempts attempts ;;
        match ctl with
        | Continue attempts' =>
            recovery_loop fuel' agent_id max_attempts attempts'
        | Break attempts' => Ret attempts'
        end
      else Ret attempts
  end.

(** [run_agent_with_recovery] *)
Definition run_agent_with_recovery (fuel : nat) (agent_id : string) : M Z :=
  s <- get ;;
  (if dict_mem agent_id (agents s) then Ret tt
   else raise (KeyError agent_id)) ;;
  let max_attempts := recovery_attempts (config s) in
  log INFO "Starting recovery runner for agent {}" [LV (VStr agent_id)] ;;
  attempts <- recovery_loop fuel agent_id max_attempts 0 ;;
  log INFO "Agent {} runner exiting" [LV (VStr agent_id)] ;;
  Ret attempts.

(** The body of the [while] loop of [monitor_system_health]: one tick. *)
Definition monitor_tick (interval : Z) : M unit :=
  try_except is_exception
    (s <- get ;;
     health_data <- await_on (shared_state s) GetSystemHealth ;;
     health_score <-
       lift (dict_get health_data "overall_health_score" (VInt 0)) ;;
     active_agents <- lift (dict_get health_data "active_agents" (VInt 0)) ;;
     total_agents <- lift (dict_get health_data "total_agents" (VInt 0)) ;;
     score <- lift (format_1f health_score) ;;
     log INFO "System Health: {:.1f}/100, Agents: {}/{} active"
       [LV health_score; LV active_agents; LV total_agents] ;;
     (if Qltb score 70 then
        log WARNING "System health degraded: {:.1f}/100" [LV health_score] ;;
        s <- get ;;
        _ <- await_on (shared_state s)
               (LogSystemEvent "system_health_check"
                  [("health_score", health_score);
                   ("active_agents", active_agents);
                   ("total_agents", total_agents);
                   ("status",
                    VStr (if Qltb score 70 then "degraded" else "healthy"))]
                  (if Qltb score 70 then "WARNING" else "INFO")) ;;
        Ret tt
      else Ret tt) ;;
     _ <- await (Sleep (inject_Z interval)) ;;
     Ret tt)
    (fun e =>
       log ERROR "System health monitoring error: {}" [LE e] ;;
       _ <- await (Sleep (inject_Z interval)) ;;
       Ret tt).

Fixpoint monitor_loop (fuel : nat) (interval : Z) : M unit :=
  match fuel with
  | O => Spin
  | S fuel' =>
      s <- get ;;
      if is_running s
      then monitor_tick interval ;; monitor_loop fuel' interval
      else Ret tt
  end.

(** [monitor_system_health] *)
Definition monitor_system_health (fuel : nat) : M unit :=
  log INFO "Starting system health monitoring..." [] ;;
  s <- get ;;
  monitor_loop fuel (health_check_interval (config s)) ;;
  log INFO "System health monitoring stopped" [].

(** [start] *)
Definition start : M unit :=
  try_except is_exception
    (modify (set_startup_time true) ;;
     log INFO "Starting Background Agents System..." [] ;;
     initialize_system ;;
     create_agents ;;
     start_agents ;;
     modify (set_is_running true) ;;
     s <- get ;;
     _ <- await_on (shared_state s)
            (LogSystemEvent "system_startup"
               [("startup_time", VClock "startup_time.isoformat()");
                ("agents_started", VInt (len (agents s)));
                ("system_version", VStr "1.0.0")]
               "INFO") ;;
     s <- get ;;
     _ <- await_on (shared_state s)
            (LogBusinessMetric "system_reliability" "successful_startup"
               (VFloat 1) [("startup_duration", VClock "now - startup_time")]) ;;
     log INFO "Background Agents System started successfully" [] ;;
     emit (CreateTask CoMonitorSystemHealth) ;;
     _ <- await ShutdownEventWait ;;
     emit (CancelTask CoMonitorSystemHealth))
    (fun e =>
       log ERROR "System startup failed: {}" [LE e] ;;
       raise e).

(** [get_uptime] *)
Definition get_uptime (s : Launcher) : value :=
  if startup_time s then VClock "now - startup_time" else VFloat 0.

Definition when (b : bool) (m : M unit) : M unit :=
  if b then m else Ret tt.

(** [shutdown], lines 435-441: the shutdown-start event. *)
Definition announce_shutdown : M unit :=
  s <- get ;;
  when (shared_state s)
    (_ <- await (LogSystemEvent "system_shutdown_start"
                   [("shutdown_reason", VStr "graceful");
                    ("uptime", get_uptime s)]
                   "INFO") ;;
     Ret tt).

(** [shutdown], lines 443-466: ask every agent to stop, wait for all of them
    up to the graceful-shutdown timeout, cancel what is left of the agent
    tasks. *)
Definition stop_agents : M unit :=
  log INFO "Stopping agents..." [] ;;
  s <- get ;;
  for_each (agents s)
    (fun kv =>
       log INFO "Stopping {}..." [LV (VStr (fst kv))] ;;
       emit (CreateTask (CoAgentShutdown (fst kv)))) ;;
  try_except is_timeout
    (_ <- await (WaitForGather (map fst (agents s))
                   (graceful_shutdown_timeout (config s))) ;;
     log INFO "All agents stopped successfully" [])
    (fun _ => log WARNING "Agent shutdown timeout exceeded" []) ;;
  s <- get ;;
  for_each (agent_tasks s)
    (fun kv =>
       when (negb (snd kv))
         (log INFO "Cancelling task for {}" [LV (VStr (fst kv))] ;;
          emit (CancelAgentTask (fst kv)))).

(** [shutdown], lines 468-506: stop the coordinator, close the shared state
    (after the shutdown-complete event and the reliability metric), close
    the adapter, and signal that shutdown is complete. *)
Definition close_components : M unit :=
  s <- get ;;
  when (agent_coordinator s)
    (log INFO "Stopping agent coordinator..." [] ;;
     _ <- await CoordinatorShutdown ;;
     Ret tt) ;;
  s <- get ;;
  when (shared_state s)
    (log INFO "Closing shared state..." [] ;;
     _ <- await (LogSystemEvent "system_shutdown_complete"
                   [("shutdown_duration", VClock "now - shutdown_start");
                    ("uptime", get_uptime s)]
                   "INFO") ;;
     _ <- await (LogBusinessMetric "system_reliability"
                   "graceful_shutdown" (VFloat 1)
                   [("shutdown_duration", VClock "now - shutdown_start")]) ;;
     _ <- await SharedStateClose ;;
     Ret tt) ;;
  s <- get ;;
  when (postgresql_adapter s)
    (log INFO "Closing PostgreSQL adapter..." [] ;;
     _ <- await AdapterClose ;;
     Ret tt) ;;
  log INFO "System shutdown completed in {:.2f} seconds"
    [LV (VClock "now - shutdown_start")] ;;
  modify (set_shutdown_event true) ;;
  emit EventSet.

(** [shutdown] *)
Definition shutdown : M unit :=
  s <- get ;;
  if negb (is_running s) then Ret tt
  else
    log INFO "Initiating graceful system shutdown..." [] ;;
    try_except is_exception
      (modify (set_is_running false) ;;
       announce_shutdown ;;
       stop_agents ;;
       close_components)
      (fun e =>
         log ERROR "Error during shutdown: {}" [LE e] ;;
         raise e).

Definition is_keyboard_interrupt (e : exn) : bool :=
  match e with KeyboardInterrupt => true | _ => false end.

(** [main], from the freshly constructed launcher. *)
Definition main : M unit :=
  try_finally
    (try_except (fun e => is_keyboard_interrupt e || is_exception e)
       start
       (fun e =>
          if is_keyboard_interrupt e
          then log INFO "Received keyboard interrupt" []
          else log ERROR "System error: {}" [LE e] ;;
               raise (SystemExit 1)))
    shutdown.

(* ================================================================== *)
(** ** Cooperative scheduling of two tasks *)

(** asyncio runs one task at a time and switches tasks only where the running
    one awaits.  [advance] runs a task up to and including its next call, or
    to its end: one uninterrupted segment. *)
Record segment (A : Type) : Type := mkSegment {
  rest_of : M A;
  state_after : Launcher;
  emitted_in : list event;
  calls_after : nat
}.

Fixpoint advance {A : Type} (env : oracle) (m : M A) (n : nat) (s : Launcher)
  : segment A :=
  match m with
  | Ret a => mkSegment (Ret a) s [] n
  | Throw e => mkSegment (Throw e) s [] n
  | Spin => mkSegment Spin s [] n
  | Block => mkSegment Block s [] n
  | Get k => advance env (k s) n s
  | Upd f k => advance env k n (f s)
  | Emit ev k =>
      let g := advance env k n s in
      mkSegment (rest_of g) (state_after g) (ev :: emitted_in g)
        (calls_after g)
  | Await c k =>
      let r := env n c in
      mkSegment (k (result r)) (interfere r s) [Called c (result r)] (S n)
  end.

Definition finished {A : Type} (m : M A) : bool :=
  match m with
  | Ret _ | Throw _ => true
  | _ => false
  end.

(** Two tasks (named [true] and [false]) sharing the launcher object. *)
Record pool : Type := mkPool {
  shared : Launcher;
  history : list event;
  issued : nat;
  task : bool -> M unit
}.

Definition step (env : oracle) (b : bool) (p : pool) : pool :=
  let g := advance env (task p b) (issued p) (shared p) in
  mkPool (state_after g) (history p ++ emitted_in g) (calls_after g)
    (fun b' => if Bool.eqb b' b then rest_of g else task p b').

(** [interleave env schedule p]: the tasks take turns as [schedule] says. *)
Fixpoint interleave (env : oracle) (schedule : list bool) (p : pool) : pool :=
  match schedule with
  | [] => p
  | b :: rest => interleave env rest (step env b p)
  end.

(** Two invocations of [shutdown] as concurrent tasks. *)
Definition two_shutdowns (s : Launcher) : pool :=
  mkPool s [] 0%nat (fun _ => shutdown).

(* ================================================================== *)
(** ** Time: [asyncio.wait_for] over [asyncio.gather] *)

(** How an agent's stop operation behaves in time: the time it takes when it
    is left alone, and the time it takes to end once it is cancelled; [None]
    is never (a stop operation that never completes; one that swallows its
    cancellation and goes on for ever).  Time is abstract and starts when
    the wait starts. *)
Record stop_behaviour : Type := mkStop {
  completes_after : option Z;
  ends_after_cancel : option Z
}.

(** [gather] is done when all its tasks are. *)
Fixpoint gather_duration (durations : list (option Z)) : option Z :=
  match durations with
  | [] => Some 0
  | d :: rest =>
      match d, gather_duration rest with
      | Some t, Some t' => Some (Z.max t t')
      | _, _ => None
      end
  end.

(** What a stop operation still needs when the tasks are cancelled at time
    [at_time]: nothing if it is done by then. *)
Definition after_cancel (at_time : Z) (b : stop_behaviour) : option Z :=
  match completes_after b with
  | Some t =>
      if t <=? at_time then Some 0
      else option_map (Z.max 0) (ends_after_cancel b)
  | None => option_map (Z.max 0) (ends_after_cancel b)
  end.

(** [asyncio.wait_for(gather(...), timeout)]: the result of the gathered
    tasks if they are done within [timeout]; else, once [timeout] has
    elapsed (at once for a timeout that is not positive), the tasks are
    cancelled, [wait_for] waits until they have all ended, and then raises
    [TimeoutError]: the total wait may exceed the timeout, and [wait_for]
    does not return while a task has not ended.  Gives the outcome, and the
    time spent waiting when the wait ends. *)
Definition wait_for (timeout : Z) (stops : list stop_behaviour)
  : outcome * option Z :=
  let limit := Z.max 0 timeout in
  let cancelled :=
    match gather_duration (map (after_cancel limit) stops) with
    | Some more => (Raises TimeoutError, Some (limit + more))
    | None => (Pending, None)
    end in
  match gather_duration (map completes_after stops) with
  | Some t => if t <=? limit then (Returns VNone, Some t) else cancelled
  | None => cancelled
  end.

(** An environment in which the agents' stop operations behave as
    [behaviour] says, the other calls being answered by [base]. *)
Definition timed (behaviour : string -> stop_behaviour) (base : oracle)
  : oracle :=
  fun n c =>
    match c with
    | WaitForGather ids timeout =>
        mkReply (fst (wait_for timeout (map behaviour ids)))
          (shutdown_began (base n c))
    | _ => base n c
    end.

(** The stop operations [shutdown] waits for. *)
Definition stops_of (behaviour : string -> stop_behaviour) (s : Launcher)
  : list stop_behaviour :=
  map behaviour (map fst (agents s)).

(** Time [shutdown] spends waiting for the agents to stop; [None] when the
    wait never ends. *)
Definition stop_wait (behaviour : string -> stop_behaviour) (s : Launcher)
  : option Z :=
  snd (wait_for (graceful_shutdown_timeout (config s)) (stops_of behaviour s)).

(* ================================================================== *)
(** ** Reading traces *)

Definition count (p : event -> bool) (t : list event) : nat :=
  length (filter p t).

Definition is_startup_call (agent_id : string) (ev : event) : bool :=
  match ev with
  | Called (AgentStartup a) _ => String.eqb a agent_id
  | _ => false
  end.

Definition is_system_event (event_type : string) (ev : event) : bool :=
  match ev with
  | Called (LogSystemEvent ty _ _) _ => String.eqb ty event_type
  | _ => false
  end.

Definition is_event_set (ev : event) : bool :=
  match ev with EventSet => true | _ => false end.

Definition is_runner_task (ev : event) : bool :=
  match ev with
  | CreateTask (CoRunAgentWithRecovery _) => true
  | _ => false
  end.

Definition is_monitor_task (ev : event) : bool :=
  match ev with
  | CreateTask CoMonitorSystemHealth => true
  | _ => false
  end.

Definition is_call (c : call -> bool) (ev : event) : bool :=
  match ev with
  | Called c' _ => c c'
  | _ => false
  end.

Definition is_log (lvl : level) (fmt : string) (ev : event) : bool :=
  match ev with
  | Log l f _ =>
      String.eqb f fmt &&
      match l, lvl with
      | DEBUG, DEBUG | INFO, INFO | WARNING, WARNING | ERROR, ERROR => true
      | _, _ => false
      end
  | _ => false
  end.

(* ================================================================== *)
(** ** Environments *)

(** No other task enters [shutdown] during the run: the system stays in
    whatever running state the observed coroutine leaves it. *)
Definition undisturbed (env : oracle) : Prop :=
  forall n c, shutdown_began (env n c) = false.

(** The storage backend never reports [status == 'healthy']. *)
Definition unhealthy_backend (env : oracle) : Prop :=
  forall n hc,
    result (env n AdapterHealthCheck) = Returns hc ->
    getitem hc "status" <> inl (VStr "healthy").

(** Infrastructure initialisation, agent construction and registration go
    through, and the coordinator's [start_all_agents] reports [results];
    nothing is assumed about the calls made once the system is running. *)
Definition startup_goes_through (results : list (string * value))
  (env : oracle) : Prop :=
  forall n c,
    match c with
    | AdapterHealthCheck =>
        exists hc, result (env n c) = Returns hc /\
                   getitem hc "status" = inl (VStr "healthy")
    | StartAllAgents => result (env n c) = Returns (VDict results)
    | Construct _ _ | AdapterInitialize | SharedStateInitialize
    | SystemInitializerInitialize | CoordinatorInitialize
    | RegisterAgent _ => exists v, result (env n c) = Returns v
    | _ => True
    end.

(** The worker's run operation raises on every invocation. *)
Definition always_raising (agent_id : string) (env : oracle) : Prop :=
  forall n, exists e,
    result (env n (AgentStartup agent_id)) = Raises e /\
    is_exception e = true.

(** The recovery delay elapses, and notifying the coordinator returns or
    fails with an ordinary exception. *)
Definition recovery_proceeds (env : oracle) : Prop :=
  forall n c,
    match c with
    | Sleep _ => exists v, result (env n c) = Returns v
    | HandleAgentFailure _ _ =>
        match result (env n c) with
        | Returns _ => True
        | Raises e => is_exception e = true
        | Pending => False
        end
    | _ => True
    end.

(** Every call returns, except that waiting for the agents to stop may time
    out. *)
Definition benign (env : oracle) : Prop :=
  forall n c,
    match result (env n c) with
    | Returns _ => True
    | Raises e =>
        match c with
        | WaitForGather _ _ => e = TimeoutError
        | _ => False
        end
    | Pending => False
    end.

(** The score a tick reads out of what [get_system_health] answered. *)
Definition fetched_score (o : outcome) : option Q :=
  match o with
  | Returns health_data =>
      match dict_get health_data "overall_health_score" (VInt 0) with
      | inl v => as_number v
      | inr _ => None
      end
  | _ => None
  end.

(** An environment where everything works; the wait on the shutdown signal
    does not complete. *)
Definition all_well : oracle :=
  fun _ c =>
    match c with
    | AdapterHealthCheck =>
        mkReply (Returns (VDict [("status", VStr "healthy")])) false
    | StartAllAgents =>
        mkReply (Returns (VDict [("heartbeat_health_agent", VBool true);
                                 ("performance_monitor", VBool true);
                                 ("langsmith_bridge", VBool true);
                                 ("ai_help_agent", VBool true)])) false
    | ShutdownEventWait => mkReply Pending false
    | _ => mkReply (Returns VNone) false
    end.

(* ================================================================== *)
(** ** Composing runs *)

(** [r] followed by [r']. *)
Definition then_run {A B : Type} (r : run_result A) (r' : run_result B)
  : run_result B :=
  mkRun (final r') (state r') (trace r ++ trace r') (calls r').

Definition ended {A B : Type} (r : run_result A) (st : status B)
  : run_result B :=
  mkRun st (state r) (trace r) (calls r).

Definition and_then {A B : Type} (r : run_result A)
  (k : A -> nat -> Launcher -> run_result B) : run_result B :=
  match final r with
  | Returned a => then_run r (k a (calls r) (state r))
  | Raised e => ended r (Raised e)
  | OutOfFuel => ended r OutOfFuel
  | Suspended => ended r Suspended
  end.

Definition or_else {A : Type} (catches : exn -> bool) (r : run_result A)
  (h : exn -> nat -> Launcher -> run_result A) : run_result A :=
  match final r with
  | Raised e =>
      if catches e then then_run r (h e (calls r) (state r)) else r
  | _ => r
  end.

Definition and_finally {A : Type} (r : run_result A)
  (fin : nat -> Launcher -> run_result unit) : run_result A :=
  match final r with
  | Returned a =>
      and_then (then_run r (fin (calls r) (state r)))
        (fun _ n s => mkRun (Returned a) s [] n)
  | Raised e =>
      and_then (then_run r (fin (calls r) (state r)))
        (fun _ n s => mkRun (Raised e) s [] n)
  | _ => r
  end.

Definition is_teardown (ev : event) : bool :=
  match ev with
  | Called (LogSystemEvent ty _ _) _ =>
      String.eqb ty "system_shutdown_start" ||
      String.eqb ty "system_shutdown_complete"
  | Called CoordinatorShutdown _ | Called SharedStateClose _
  | Called AdapterClose _ | EventSet => true
  | _ => false
  end.

Definition is_health_check (ev : event) : bool :=
  match ev with
  | Called AdapterHealthCheck _ => true
  | _ => false
  end.

(** The backend's health check answers [hc]; every other call returns. *)
Definition backend_reports (hc : value) (env : oracle) : Prop :=
  forall n c,
    match c with
    | AdapterHealthCheck => result (env n c) = Returns hc
    | _ => exists v, result (env n c) = Returns v
    end.

(** A property of every effect, every call and every attribute update a
    coroutine can perform, whatever the environment answers. *)
Fixpoint respects (Pe : event -> Prop) (Pc : call -> Prop)
  (Pu : (Launcher -> Launcher) -> Prop) {A : Type} (m : M A) : Prop :=
  match m with
  | Ret _ | Throw _ | Spin | Block => True
  | Get k => forall s, respects Pe Pc Pu (k s)
  | Upd f k => Pu f /\ respects Pe Pc Pu k
  | Emit ev k => Pe ev /\ respects Pe Pc Pu k
  | Await c k => Pc c /\ forall o, respects Pe Pc Pu (k o)
  end.

(** The coroutine never leaves an event selected by [p] in its trace. *)
Definition never_emits (p : event -> bool) {A : Type} (m : M A) : Prop :=
  respects (fun ev => p ev = false)
    (fun c => forall o, p (Called c o) = false) (fun _ => True) m.

(** The coroutine never sets [is_running] back to true. *)
Definition stays_stopped {A : Type} (m : M A) : Prop :=
  respects (fun _ => True) (fun _ => True)
    (fun f => forall s, is_running s = false -> is_running (f s) = false) m.

(** An environment whose backend reports a degraded status. *)
Definition sick : oracle :=
  fun _ c =>
    match c with
    | AdapterHealthCheck =>
        mkReply (Returns (VDict [("status", VStr "degraded")])) false
    | _ => mkReply (Returns VNone) false
    end.

(** The launcher once [create_agents] has stored the four agents. *)
Definition with_agents (s : Launcher) : Launcher :=
  set_agents
    (dict_set "ai_help_agent"
       (mkAgent "AIHelpAgent" (ai_help_interval (config s)))
       (dict_set "langsmith_bridge"
          (mkAgent "LangSmithBridge" (langsmith_interval (config s)))
          (dict_set "performance_monitor"
             (mkAgent "PerformanceMonitor" (performance_interval (config s)))
             (dict_set "heartbeat_health_agent"
                (mkAgent "HeartbeatHealthAgent"
                   (heartbeat_interval (config s)))
                (agents s))))) s.

(** The launcher once [initialize_system] has set its four components. *)
Definition initialized (s : Launcher) : Launcher :=
  set_agent_coordinator true
    (set_system_initializer true
       (set_shared_state true (set_postgresql_adapter true s))).

(** Everything works, but the coordinator reports that no agent started. *)
Definition none_started : oracle :=
  fun n c =>
    match c with
    | StartAllAgents =>
        mkReply (Returns (VDict [("heartbeat_health_agent", VBool false);
                                 ("performance_monitor", VBool false);
                                 ("langsmith_bridge", VBool false);
                                 ("ai_help_agent", VBool false)])) false
    | _ => all_well n c
    end.

(** Degraded-health events in a trace: calls to [log_system_event] with
    event type 'system_health_check'. *)
Definition health_events (t : list event) : nat :=
  count (is_system_event "system_health_check") t.

(** An environment where the shared state reports the given health score. *)
Definition reporting (score : value) : oracle :=
  fun _ c =>
    match c with
    | GetSystemHealth =>
        mkReply (Returns (VDict [("overall_health_score", score);
                                 ("active_agents", VInt 3);
                                 ("total_agents", VInt 4)])) false
    | _ => mkReply (Returns VNone) false
    end.

(** An environment where every agent's run operation raises, at once. *)
Definition crashing : oracle :=
  fun _ c =>
    match c with
    | AgentStartup _ => mkReply (Raises (OtherException "boom")) false
    | _ => mkReply (Returns VNone) false
    end.

(** An agent that raises on its first two runs (calls 0 and 3), then runs
    and returns (call 6), then raises on every later run. *)
Definition flaky : oracle :=
  fun n c =>
    match c with
    | AgentStartup _ =>
        if Nat.eqb n 6 then mkReply (Returns VNone) false
        else mkReply (Raises (OtherException "boom")) false
    | _ => mkReply (Returns VNone) false
    end.

Definition is_exhausted_log (ev : event) : bool :=
  is_log ERROR "Agent {} exceeded maximum recovery attempts" ev.

(** A launcher that has started: components set, agents stored, running. *)
Definition running_launcher : Launcher :=
  set_is_running true (with_agents (initialized (new_launcher default_config))).

(** How a coroutine that awaits a call as its last step ends. *)
Definition status_of (o : outcome) : status unit :=
  match o with
  | Returns _ => Returned tt
  | Raises e => Raised e
  | Pending => Suspended
  end.

(** What the stop loop of [shutdown] leaves in the trace: a log line and a
    stop task per agent. *)
Definition stop_requests (ags : list (string * Agent)) : list event :=
  flat_map (fun kv => [Log INFO "Stopping {}..." [LV (VStr (fst kv))];
                       CreateTask (CoAgentShutdown (fst kv))]) ags.

(** What the cancel loop of [shutdown] leaves in the trace: a log line and a
    cancellation per agent task that is not done. *)
Definition cancellations (tasks : list (string * bool)) : list event :=
  flat_map (fun kv =>
              if negb (snd kv)
              then [Log INFO "Cancelling task for {}" [LV (VStr (fst kv))];
                    CancelAgentTask (fst kv)]
              else []) tasks.

Definition is_wait (c : call) : bool :=
  match c with WaitForGather _ _ => true | _ => false end.

(** The call by which [shutdown] waits for the agents to stop. *)
Definition stop_wait_call (s : Launcher) : call :=
  WaitForGather (map fst (agents s)) (graceful_shutdown_timeout (config s)).

(** What [stop_agents] does once the wait is over. *)
Definition after_wait (o : outcome) (tasks : list (string * bool))
  : list event :=
  match o with
  | Returns _ => Log INFO "All agents stopped successfully" [] :: cancellations tasks
  | Raises e =>
      if is_timeout e
      then Log WARNING "Agent shutdown timeout exceeded" [] :: cancellations tasks
      else []
  | Pending => []
  end.

Definition wait_status (o : outcome) : status unit :=
  match o with
  | Returns _ => Returned tt
  | Raises e => if is_timeout e then Returned tt else Raised e
  | Pending => Suspended
  end.

Definition is_complete_event (ev : event) : bool :=
  is_system_event "system_shutdown_complete" ev.

(** An environment in which stopping the coordinator fails. *)
Definition coordinator_fails : oracle :=
  fun _ c =>
    match c with
    | CoordinatorShutdown => mkReply (Raises (OtherException "unreachable")) false
    | _ => mkReply (Returns VNone) false
    end.

(** An environment in which every call returns. *)
Definition obliging : oracle :=
  fun _ _ => mkReply (Returns VNone) false.

(** The gathered stop operations are not done within the timeout. *)
Definition overruns (timeout : Z) (stops : list stop_behaviour) : bool :=
  match gather_duration (map completes_after stops) with
  | Some t => negb (t <=? Z.max 0 timeout)
  | None => true
  end.

(** The longest time a stop operation that is not done within the timeout
    takes to end once cancelled; [None] when one never ends. *)
Definition cancel_delay (timeout : Z) (stops : list stop_behaviour)
  : option Z :=
  gather_duration (map (after_cancel (Z.max 0 timeout)) stops).

(** Stop operations that never complete but end at once when cancelled. *)
Definition hanging : string -> stop_behaviour :=
  fun _ => mkStop None (Some 0).

(** Stop operations that never complete and need 5 units of time to end
    once cancelled. *)
Definition lingering : string -> stop_behaviour :=
  fun _ => mkStop None (Some 5).

(** Stop operations that never complete and never end, cancelled or not. *)
Definition stubborn : string -> stop_behaviour :=
  fun _ => mkStop None None.

(** Every call but the wait for the agents returns. *)
Definition calm (env : oracle) : Prop :=
  forall n c, is_wait c = false -> exists v, result (env n c) = Returns v.

(** The score a tick can work with: the fetched score, when it is a number
    that [f"{score:.1f}"] accepts. *)
Definition usable_score (o : outcome) : option Q :=
  match o with
  | Returns health_data =>
      match dict_get health_data "overall_health_score" (VInt 0) with
      | inl v => match format_1f v with inl q => Some q | inr _ => None end
      | inr _ => None
      end
  | _ => None
  end.

(** The coordinator reports two agents started and two failed. *)
Definition partly_started : oracle :=
  fun n c =>
    match c with
    | StartAllAgents =>
        mkReply (Returns (VDict [("heartbeat_health_agent", VBool true);
                                 ("performance_monitor", VBool false);
                                 ("langsmith_bridge", VBool true);
                                 ("ai_help_agent", VBool false)])) false
    | _ => all_well n c
    end.

(* ================================================================== *)
(** ** Further vocabulary for traces and environments *)

(** The coroutine has ended: it returned or raised. *)
Definition over {A : Type} (st : status A) : bool :=
  match st with
  | Returned _ | Raised _ => true
  | OutOfFuel | Suspended => false
  end.

(** Every path of the coroutine to a normal return goes through a call [c0]
    that returned. *)
Fixpoint returns_through (c0 : call) {A : Type} (m : M A) : Prop :=
  match m with
  | Ret _ => False
  | Throw _ | Spin | Block => True
  | Get k => forall s, returns_through c0 (k s)
  | Upd _ k => returns_through c0 k
  | Emit _ k => returns_through c0 k
  | Await c k =>
      forall o, returns_through c0 (k o) \/ (c = c0 /\ exists v, o = Returns v)
  end.

(** Everything works, and the wait on the shutdown signal returns because
    another task went through [shutdown] in the meantime. *)
Definition stopping : oracle :=
  fun n c =>
    match c with
    | ShutdownEventWait => mkReply (Returns VNone) true
    | _ => all_well n c
    end.

Definition is_sleep (ev : event) : bool :=
  match ev with
  | Called (Sleep _) _ => true
  | _ => false
  end.

Definition is_poll (ev : event) : bool :=
  match ev with
  | Called GetSystemHealth _ => true
  | _ => false
  end.

(** No call stays pending, calls raise ordinary exceptions only, the sleep
    between two health checks returns, and nobody shuts the system down. *)
Definition monitor_goes_on (env : oracle) : Prop :=
  forall n c,
    shutdown_began (env n c) = false /\
    match c with
    | Sleep _ => exists v, result (env n c) = Returns v
    | _ =>
        match result (env n c) with
        | Returns _ => True
        | Raises e => is_exception e = true
        | Pending => False
        end
    end.

(** The shared state fails on every request. *)
Definition state_down : oracle :=
  fun _ c =>
    match c with
    | GetSystemHealth | LogSystemEvent _ _ _ | LogBusinessMetric _ _ _ _ =>
        mkReply (Raises (OtherException "connection lost")) false
    | _ => mkReply (Returns VNone) false
    end.

(** In the trace, every event selected by [q] comes after an event selected
    by [p]. *)
Fixpoint preceded (p q : event -> bool) (seen : bool) (t : list event)
  : bool :=
  match t with
  | [] => true
  | ev :: rest =>
      (negb (q ev) || seen) && preceded p q (seen || p ev) rest
  end.

Definition is_construct (ev : event) : bool :=
  match ev with
  | Called (Construct _ _) _ => true
  | _ => false
  end.

Definition is_stop_task (ev : event) : bool :=
  match ev with
  | CreateTask (CoAgentShutdown _) => true
  | _ => false
  end.

Definition is_agent_cancel (ev : event) : bool :=
  match ev with
  | CancelAgentTask _ => true
  | _ => false
  end.

Definition is_state_close (ev : event) : bool :=
  match ev with
  | Called SharedStateClose _ => true
  | _ => false
  end.

Definition is_metric (ev : event) : bool :=
  match ev with
  | Called (LogBusinessMetric _ _ _ _) _ => true
  | _ => false
  end.

(** The agent tasks that are not done. *)
Definition not_done (tasks : list (string * bool)) : list (string * bool) :=
  filter (fun kv => negb (snd kv)) tasks.

(** The last event of a trace is the setting of the completion signal. *)
Definition ends_with_signal (t : list event) : bool :=
  match rev t with
  | EventSet :: _ => true
  | _ => false
  end.

(* ================================================================== *)
(** ** The status report *)

(** The two dictionaries [status] can return: the full report, and the
    error report of its [except] branch. *)
Inductive status_data : Type :=
| StatusReport (system_running : bool) (startup_time : value)
    (uptime_seconds : value) (agents_configured : Z)
    (agent_tasks_running : Z) (postgresql_connected : bool)
    (system_health : value)
| StatusError (system_running : bool) (error : exn).

(** [status].  The entries of the report are evaluated in the order of the
    dictionary display: [is_running] is read before the two calls. *)
Definition launcher_status : M status_data :=
  try_except is_exception
    (s <- get ;;
     let system_running := is_running s in
     let started :=
       if startup_time s then VClock "startup_time.isoformat()" else VNone in
     let uptime_seconds := get_uptime s in
     let agents_configured := len (agents s) in
     let agent_tasks_running := len (not_done (agent_tasks s)) in
     postgresql_connected <-
       (if postgresql_adapter s then
          health_check <- await AdapterHealthCheck ;;
          st <- lift (getitem health_check "status") ;;
          Ret (negb (differs_from_str st "healthy"))
        else Ret false) ;;
     s' <- get ;;
     system_health <-
       (if shared_state s' then await GetSystemHealth else Ret VNone) ;;
     Ret (StatusReport system_running started uptime_seconds
            agents_configured agent_tasks_running postgresql_connected
            system_health))
    (fun e =>
       s <- get ;;
       Ret (StatusError (is_running s) e)).

(** The adapter answers the health check and, while it does, another task
    shuts the system down; the shared state then fails. *)
Definition shut_down_meanwhile : oracle :=
  fun _ c =>
    match c with
    | AdapterHealthCheck =>
        mkReply (Returns (VDict [("status", VStr "healthy")])) true
    | GetSystemHealth => mkReply (Raises (OtherException "closed")) false
    | _ => mkReply (Returns VNone) false
    end.

(** The agents [create_agents] creates, in order: class, id, and where the
    configuration keeps the work interval. *)
Definition agent_specs : list (string * string * (Config -> Z)) :=
  [("HeartbeatHealthAgent", "heartbeat_health_agent", heartbeat_interval);
   ("PerformanceMonitor", "performance_monitor", performance_interval);
   ("LangSmithBridge", "langsmith_bridge", langsmith_interval);
   ("AIHelpAgent", "ai_help_agent", ai_help_interval)].

(** [self.agents] once the first [k] of them have been created and stored
    in a launcher that held [agents s]. *)
Definition with_first_agents (k : nat) (s : Launcher)
  : list (string * Agent) :=
  fold_left
    (fun stored spec =>
       dict_set (snd (fst spec))
         (mkAgent (fst (fst spec)) (snd spec (config s))) stored)
    (firstn k agent_specs) (agents s).

(** A constructor that was called and returned. *)
Definition is_constructed (ev : event) : bool :=
  match ev with
  | Called (Construct _ _) (Returns _) => true
  | _ => false
  end.

(** The constructor of the third agent raises. *)
Definition third_agent_fails : oracle :=
  fun _ c =>
    match c with
    | Construct cls _ =>
        if String.eqb cls "LangSmithBridge"
        then mkReply (Raises (OtherException "no API key")) false
        else mkReply (Returns VNone) false
    | _ => mkReply (Returns VNone) false
    end.

(** The agents for which a stop task is created, in the order of the
    trace. *)
Definition stop_task_ids (t : list event) : list string :=
  flat_map (fun ev => match ev with
                      | CreateTask (CoAgentShutdown agent_id) => [agent_id]
                      | _ => []
                      end) t.

(** The agents whose task is cancelled, in the order of the trace. *)
Definition cancelled_ids (t : list event) : list string :=
  flat_map (fun ev => match ev with
                      | CancelAgentTask agent_id => [agent_id]
                      | _ => []
                      end) t.

(** A launcher with two agent tasks, one of them done. *)
Definition with_two_tasks : Launcher :=
  mkLauncher true true true true (agents running_launcher)
    [("heartbeat_health_agent", true); ("performance_monitor", false)]
    true true false default_config.

(* ================================================================== *)
(** * The environment file: written by the setup script, read by the launcher

    [setup_postgresql_environment.py] asks for the settings and writes them
    to [.env]; [launch_background_agents.py] reads [.env] line by line when
    [python-dotenv] is not installed. *)

(** ** Python strings *)

(** A [str] is a sequence of code points. *)
Definition text : Type := list N.

(** The text of a literal made of ASCII characters. *)
Definition codes (s : string) : text :=
  map Ascii.N_of_ascii (list_ascii_of_string s).

(** [c.isspace()]: the code points [str.strip()] removes. *)
Definition is_space (c : N) : bool :=
  ((9 <=? c) && (c <=? 13) || (28 <=? c) && (c <=? 32) ||
   (c =? 133) || (c =? 160) || (c =? 5760) ||
   (8192 <=? c) && (c <=? 8202) ||
   (c =? 8232) || (c =? 8233) || (c =? 8239) || (c =? 8287) ||
   (c =? 12288))%N.

Fixpoint lstrip_by (p : N -> bool) (t : text) : text :=
  match t with
  | [] => []
  | c :: rest => if p c then lstrip_by p rest else t
  end.

Fixpoint rstrip_by (p : N -> bool) (t : text) : text :=
  match t with
  | [] => []
  | c :: rest =>
      match rstrip_by p rest with
      | [] => if p c then [] else [c]
      | kept => c :: kept
      end
  end.

Definition strip_by (p : N -> bool) (t : text) : text :=
  rstrip_by p (lstrip_by p t).

(** [t.strip()] *)
Definition strip (t : text) : text := strip_by is_space t.

(** [t.strip(chars)] *)
Definition strip_chars (chars : text) (t : text) : text :=
  strip_by (fun c => existsb (N.eqb c) chars) t.

Definition quote : N := 34%N.
Definition apostrophe : N := 39%N.
Definition hash : N := 35%N.
Definition equals : N := 61%N.
Definition newline : N := 10%N.
Definition carriage_return : N := 13%N.

(** [t.startswith('#')] *)
Definition starts_with_hash (t : text) : bool :=
  match t with
  | c :: _ => (c =? hash)%N
  | [] => false
  end.

(** [c in t] *)
Definition contains (c : N) (t : text) : bool := existsb (N.eqb c) t.

(** [t.split('=', 1)] for a [t] that holds an ['=']: what is before the
    first ['='] and what is after it. *)
Fixpoint split_once (t : text) : text * text :=
  match t with
  | [] => ([], [])
  | c :: rest =>
      if (c =? equals)%N then ([], rest)
      else let (before, after) := split_once rest in (c :: before, after)
  end.

(** ** The launcher's manual loader *)

(** The body of the loop over the lines of [.env]: the assignment
    [os.environ[key] = value] the line leads to, if any. *)
Definition parse_env_line (line : text) : option (text * text) :=
  let line := strip line in
  if nonempty line && negb (starts_with_hash line) && contains equals line
  then
    let (key, value) := split_once line in
    let value := strip_chars [apostrophe] (strip_chars [quote] (strip value)) in
    Some (strip key, value)
  else None.

(** [os.environ[key] = value] raises for some names and values (an empty
    name, a NUL character, a character the file system encoding cannot
    encode): which ones depends on the platform, and [accepts] tells it.
    This is what a POSIX system whose file system encoding is UTF-8 takes:
    a name that is not empty and holds no ['='], and texts without NUL made
    of code points that UTF-8 encodes (the surrogates [U+DC80] to [U+DCFF]
    pass through the [surrogateescape] handler, the other surrogates are
    refused). *)
Definition encodable (c : N) : bool :=
  (negb (c =? 0) &&
   ((c <? 55296) || (56448 <=? c) && (c <=? 56575) ||
    (57343 <? c) && (c <=? 1114111)))%N.

Definition posix_accepts (key value : text) : bool :=
  nonempty key && negb (contains equals key) &&
  forallb encodable key && forallb encodable value.

(** The assignments to [os.environ] the loop makes, in order, and whether
    the loop reaches the end of the file: the loop is inside one [try], so
    the first assignment that raises ends the loading, and the lines after
    it are not read. *)
Fixpoint env_assignments (accepts : text -> text -> bool)
  (lines : list text) : list (text * text) * bool :=
  match lines with
  | [] => ([], true)
  | line :: rest =>
      match parse_env_line line with
      | Some (key, value) =>
          if accepts key value then
            let (made, completed) := env_assignments accepts rest in
            ((key, value) :: made, completed)
          else ([], false)
      | None => env_assignments accepts rest
      end
  end.

(** The assignments of a list that are made before one is refused,
    followed by [tail] when none is. *)
Fixpoint accepted_then (accepts : text -> text -> bool)
  (l : list (text * text)) (tail : list (text * text) * bool)
  : list (text * text) * bool :=
  match l with
  | [] => tail
  | (key, value) :: rest =>
      if accepts key value then
        let (made, completed) := accepted_then accepts rest tail in
        ((key, value) :: made, completed)
      else ([], false)
  end.

(** The lines a text file yields when iterated: each ends with its newline,
    except possibly the last (for a content without carriage returns). *)
Fixpoint file_lines_from (current : text) (content : text) : list text :=
  match content with
  | [] => match current with [] => [] | _ => [rev current] end
  | c :: rest =>
      if (c =? newline)%N then rev (c :: current) :: file_lines_from [] rest
      else file_lines_from (c :: current) rest
  end.

Definition file_lines (content : text) : list text :=
  file_lines_from [] content.

(** ** The setup script *)

(** [self.config]: setting names (literals of the script) and values. *)
Definition settings : Type := list (string * text).

Fixpoint setting (k : string) (cfg : settings) : option text :=
  match cfg with
  | [] => None
  | (k', v) :: rest => if String.eqb k k' then Some v else setting k rest
  end.

(** What the user types at the prompts of the script, in order. *)
Record answers : Type := mkAnswers {
  host_answer : text;
  port_answer : text;
  database_answer : text;
  user_answer : text;
  password_answer : text;
  ssl_mode_answer : text;
  openai_key_answer : text;
  langsmith_key_answer : text;
  environment_answer : text;
  log_level_answer : text
}.

(** [answer or default] *)
Definition or_default (answer : text) (default : string) : text :=
  match answer with
  | [] => codes default
  | _ => answer
  end.

(** [get_database_config] *)
Definition get_database_config (a : answers) (cfg : settings) : settings :=
  let cfg := dict_set "POSTGRESQL_HOST"
               (or_default (strip (host_answer a)) "localhost") cfg in
  let cfg := dict_set "POSTGRESQL_PORT"
               (or_default (strip (port_answer a)) "5432") cfg in
  let cfg := dict_set "POSTGRESQL_DATABASE"
               (or_default (strip (database_answer a)) "background_agents")
               cfg in
  let cfg := dict_set "POSTGRESQL_USER"
               (or_default (strip (user_answer a)) "postgres") cfg in
  let cfg := dict_set "POSTGRESQL_PASSWORD" (password_answer a) cfg in
  dict_set "POSTGRESQL_SSL_MODE"
    (or_default (strip (ssl_mode_answer a)) "prefer") cfg.

(** [d.update(other)] *)
Definition dict_update {V : Type} (other : list (string * V))
  (d : list (string * V)) : list (string * V) :=
  fold_left (fun d kv => dict_set (fst kv) (snd kv) d) other d.

Definition additional_defaults : list (string * string) :=
  [("LANGSMITH_ENDPOINT", "https://api.smith.langchain.com");
   ("LANGSMITH_PROJECT", "background-agents-system");
   ("LANGSMITH_TRACING", "true");
   ("OPENAI_MODEL", "gpt-4");
   ("OPENAI_TEMPERATURE", "0.7");
   ("OPENAI_MAX_TOKENS", "2000");
   ("DEBUG", "false");
   ("DATA_DIR", "data");
   ("LOGS_DIR", "logs");
   ("TEMP_DIR", "temp");
   ("DEFAULT_HEARTBEAT_INTERVAL", "60");
   ("DEFAULT_MAX_RETRIES", "3");
   ("DEFAULT_TIMEOUT", "30");
   ("HEARTBEAT_HEALTH_AGENT_ENABLED", "true");
   ("PERFORMANCE_MONITOR_ENABLED", "true");
   ("LANGSMITH_BRIDGE_ENABLED", "true");
   ("AI_HELP_AGENT_ENABLED", "true");
   ("HEALTH_CHECK_INTERVAL", "30");
   ("HEARTBEAT_TIMEOUT", "120");
   ("PERFORMANCE_METRICS_INTERVAL", "60");
   ("ALERT_EMAIL_ENABLED", "false");
   ("SECRET_KEY", "your-secret-key-change-this-in-production");
   ("CORS_ENABLED", "true");
   ("CORS_ORIGINS", "http://localhost:3000,http://localhost:8501");
   ("BACKUP_ENABLED", "true");
   ("BACKUP_INTERVAL", "daily");
   ("BACKUP_RETENTION_DAYS", "30");
   ("BACKUP_LOCATION", "backups")].

(** [configure_additional_settings] *)
Definition configure_additional_settings (a : answers) (cfg : settings)
  : settings :=
  let cfg := dict_set "OPENAI_API_KEY"
               (or_default (openai_key_answer a) "your-openai-api-key-here")
               cfg in
  let cfg := dict_set "LANGSMITH_API_KEY"
               (or_default (langsmith_key_answer a)
                  "your-langsmith-api-key-here") cfg in
  let cfg := dict_set "ENVIRONMENT"
               (or_default (strip (environment_answer a)) "development")
               cfg in
  let cfg := dict_set "LOG_LEVEL"
               (or_default (strip (log_level_answer a)) "INFO") cfg in
  dict_update (map (fun kv => (fst kv, codes (snd kv))) additional_defaults)
    cfg.

(** The configuration [run_setup] has collected when it writes the file. *)
Definition collected (a : answers) : settings :=
  configure_additional_settings a (get_database_config a []).

Definition db_vars : list string :=
  ["POSTGRESQL_HOST"; "POSTGRESQL_PORT"; "POSTGRESQL_DATABASE";
   "POSTGRESQL_USER"; "POSTGRESQL_PASSWORD"; "POSTGRESQL_SSL_MODE"].

Definition api_vars : list string := ["OPENAI_API_KEY"; "LANGSMITH_API_KEY"].

(** [f"{var}={value}\n"] *)
Definition assignment_line (var : string) (value : text) : text :=
  codes var ++ equals :: value ++ [newline].

(** The [for var in ...: f.write(...)] loops: the strings written, and
    whether every [self.config[var]] was there. *)
Fixpoint write_vars (vars : list string) (cfg : settings)
  : list text * bool :=
  match vars with
  | [] => ([], true)
  | var :: rest =>
      match setting var cfg with
      | Some value =>
          let (written, ok) := write_vars rest cfg in
          (assignment_line var value :: written, ok)
      | None => ([], false)
      end
  end.

Definition mem_string (k : string) (l : list string) : bool :=
  existsb (String.eqb k) l.

(** The settings of the last section of the file. *)
Definition other_settings (cfg : settings) : settings :=
  filter (fun kv => negb (mem_string (fst kv) (db_vars ++ api_vars))) cfg.

(** [create_environment_file]: the strings passed to [f.write], in order,
    and the value returned ([false] when a [self.config[var]] is missing;
    failures of the file system are left out).  [created] is the time stamp
    of the header. *)
Definition create_environment_file (created : text) (cfg : settings)
  : list text * bool :=
  let header :=
    [codes "# Background Agents System Environment Configuration" ++ [newline];
     codes "# Generated by setup script" ++ [newline];
     codes "# Created: " ++ created ++ [newline; newline];
     codes "# Database Configuration" ++ [newline]] in
  let (db_lines, db_ok) := write_vars db_vars cfg in
  if negb db_ok then (header ++ db_lines, false)
  else
    let api_header := newline :: codes "# API Keys" ++ [newline] in
    let (api_lines, api_ok) := write_vars api_vars cfg in
    if negb api_ok then (header ++ db_lines ++ api_header :: api_lines, false)
    else
      (header ++ db_lines ++ api_header :: api_lines ++
       (newline :: codes "# System Settings" ++ [newline]) ::
       map (fun kv => assignment_line (fst kv) (snd kv)) (other_settings cfg),
       true).

(** The content of the file once the strings are written. *)
Definition file_content (written : list text) : text := concat written.

(** What the manual loader makes of a value. *)
Definition as_loaded (value : text) : text :=
  strip_chars [apostrophe] (strip_chars [quote] (strip value)).

(** The settings the [for var in ...] loops write. *)
Definition looked_up (vars : list string) (cfg : settings) : settings :=
  flat_map (fun var => match setting var cfg with
                       | Some value => [(var, value)]
                       | None => []
                       end) vars.

(** The settings in the order in which the file lists them. *)
Definition listed (cfg : settings) : settings :=
  looked_up (db_vars ++ api_vars) cfg ++ other_settings cfg.

(** A name the loader reads back as it is: not empty, without ['='], not
    starting with ['#'], without white space at its ends. *)
Definition proper_name (k : text) : bool :=
  nonempty k && negb (contains equals k) && negb (starts_with_hash k) &&
  match k with c :: _ => negb (is_space c) | [] => false end &&
  match rev k with c :: _ => negb (is_space c) | [] => false end.

(** A text without line break. *)
Definition one_line (t : text) : bool :=
  negb (contains newline t) && negb (contains carriage_return t).

(** ** The steps of [run_setup] *)

Inductive setup_step : Type :=
| PrintBanner
| CheckPrerequisites
| GetDatabaseConfig
| TestDatabaseConnection
| CreateDatabase
| CreateSchema
| ConfigureAdditionalSettings
| CreateEnvironmentFile
| CreateDirectories
| RunValidationTest
| PrintCompletionMessage.

(** How a step ends: with its return value, or by an exception it does not
    catch (a keyboard interrupt, the end of the input at a prompt). *)
Inductive step_outcome : Type :=
| Done (ok : bool)
| Interrupted.

(** How [run_setup] ends. *)
Inductive setup_result : Type :=
| SetupReturned (success : bool)
| SetupInterrupted.

(** The steps that return nothing: [run_setup] goes on after them. *)
Definition plain (s : setup_step) (outcome : setup_step -> step_outcome)
  (k : list setup_step * setup_result) : list setup_step * setup_result :=
  match outcome s with
  | Done _ => (s :: fst k, snd k)
  | Interrupted => ([s], SetupInterrupted)
  end.

(** The steps [run_setup] tests: [if not self.step(): return False]. *)
Definition gate (s : setup_step) (outcome : setup_step -> step_outcome)
  (k : list setup_step * setup_result) : list setup_step * setup_result :=
  match outcome s with
  | Done true => (s :: fst k, snd k)
  | Done false => ([s], SetupReturned false)
  | Interrupted => ([s], SetupInterrupted)
  end.

(** [run_setup]: the steps performed, in order, and the result. *)
Definition run_setup (outcome : setup_step -> step_outcome)
  : list setup_step * setup_result :=
  plain PrintBanner outcome
    (gate CheckPrerequisites outcome
       (plain GetDatabaseConfig outcome
          (gate TestDatabaseConnection outcome
             (gate CreateDatabase outcome
                (gate CreateSchema outcome
                   (plain ConfigureAdditionalSettings outcome
                      (gate CreateEnvironmentFile outcome
                         (gate CreateDirectories outcome
                            (plain RunValidationTest outcome
                               (plain PrintCompletionMessage outcome
                                  ([], SetupReturned true))))))))))).

(** [main] of the setup script: the exit status. *)
Definition setup_main (outcome : setup_step -> step_outcome) : Z :=
  match snd (run_setup outcome) with
  | SetupReturned true => 0
  | SetupReturned false => 1
  | SetupInterrupted => 1
  end.

Definition gates : list setup_step :=
  [CheckPrerequisites; TestDatabaseConnection; CreateDatabase; CreateSchema;
   CreateEnvironmentFile; CreateDirectories].

Definition step_eqb (a b : setup_step) : bool :=
  match a, b with
  | PrintBanner, PrintBanner
  | CheckPrerequisites, CheckPrerequisites
  | GetDatabaseConfig, GetDatabaseConfig
  | TestDatabaseConnection, TestDatabaseConnection
  | CreateDatabase, CreateDatabase
  | CreateSchema, CreateSchema
  | ConfigureAdditionalSettings, ConfigureAdditionalSettings
  | CreateEnvironmentFile, CreateEnvironmentFile
  | CreateDirectories, CreateDirectories
  | RunValidationTest, RunValidationTest
  | PrintCompletionMessage, PrintCompletionMessage => true
  | _, _ => false
  end.

(** The order of the steps in [run_setup]. *)
Definition all_steps : list setup_step :=
  [PrintBanner; CheckPrerequisites; GetDatabaseConfig;
   TestDatabaseConnection; CreateDatabase; CreateSchema;
   ConfigureAdditionalSettings; CreateEnvironmentFile; CreateDirectories;
   RunValidationTest; PrintCompletionMessage].

(** Every step works, except that the validation test fails. *)
Definition validation_fails (s : setup_step) : step_outcome :=
  match s with
  | RunValidationTest => Done false
  | _ => Done true
  end.

(** The schema cannot be created. *)
Definition schema_fails (s : setup_step) : step_outcome :=
  match s with
  | CreateSchema => Done false
  | _ => Done true
  end.

(** The user accepts every default and gives a password between spaces. *)
Definition hasty : answers :=
  mkAnswers [] (codes "  ") [] [] (codes " s3cret ") [] [] [] [] [].

(** What the manual loader assigns when it reads a file of this content. *)
Definition loaded (accepts : text -> text -> bool) (content : text)
  : list (text * text) * bool :=
  env_assignments accepts (file_lines content).

(** What the loader is to assign for a setting of the file. *)
Definition to_assign (kv : string * text) : text * text :=
  (codes (fst kv), as_loaded (snd kv)).

(** A password with a NUL character in it. *)
Definition nul_password : answers :=
  mkAnswers [] [] [] [] [112; 0; 119]%N [] [] [] [] [].

(** A character the file can hold: [open] encodes the text it writes, and
    UTF-8, the default outside Windows, has no encoding for a lone
    surrogate: [f.write] raises for it. *)
Definition storable (c : N) : bool :=
  ((c <? 55296) || (57343 <? c) && (c <=? 1114111))%N.

Definition storable_settings (cfg : list (string * text)) : bool :=
  forallb (fun kv => forallb storable (snd kv)) cfg.

(** A setting the file can carry on one line under its own name. *)
Definition fit (kv : string * text) : bool :=
  proper_name (codes (fst kv)) && one_line (codes (fst kv)) &&
  one_line (snd kv).

Definition has_setting (cfg : settings) (var : string) : bool :=
  match setting var cfg with
  | Some _ => true
  | None => false
  end.

Definition answer_texts (a : answers) : list text :=
  [host_answer a; port_answer a; database_answer a; user_answer a;
   password_answer a; ssl_mode_answer a; openai_key_answer a;
   langsmith_key_answer a; environment_answer a; log_level_answer a].

Fixpoint distinct (l : list string) : bool :=
  match l with
  | [] => true
  | x :: rest => negb (mem_string x rest) && distinct rest
  end.

(* ================================================================== *)
(** ** Basic facts about runs *)

Unset Implicit Arguments.

#[local] Arguments initialize_system : simpl never.
#[local] Arguments create_agents : simpl never.
#[local] Arguments start_agents : simpl never.
#[local] Arguments start : simpl never.
#[local] Arguments shutdown : simpl never.
#[local] Arguments announce_shutdown : simpl never.
#[local] Arguments stop_agents : simpl never.
#[local] Arguments close_components : simpl never.
#[local] Arguments main : simpl never.
#[local] Arguments recovery_iteration : simpl never.
#[local] Arguments monitor_tick : simpl never.

Lemma run_result_eta A (r : run_result A) :
  mkRun (final r) (state r) (trace r) (calls r) = r.
Proof. now destruct r. Qed.

Lemma and_then_emitted A B ev (r : run_result A)
  (k : A -> nat -> Launcher -> run_result B) :
  and_then (emitted ev r) k = emitted ev (and_then r k).
Proof. destruct r as [[a|e| |] st t cl]; reflexivity. Qed.

Lemma run_bind A B env (m : M A) (f : A -> M B) n s :
  run env (bind m f) n s = and_then (run env m n s) (fun a => run env (f a)).
Proof.
  revert n s.
  induction m as [a|e| | |k IH|g k IH|ev k IH|c k IH]; intros n s; cbn;
    try reflexivity; auto.
  - unfold and_then, then_run. cbn. now rewrite run_result_eta.
  - now rewrite IH, and_then_emitted.
  - now rewrite IH, and_then_emitted.
Qed.

Lemma or_else_emitted A c ev (r : run_result A) h :
  or_else c (emitted ev r) h = emitted ev (or_else c r h).
Proof.
  destruct r as [[a|e| |] st t cl]; unfold or_else, emitted; cbn;
    try reflexivity.
  now destruct (c e).
Qed.

Lemma run_try_except A env c (m : M A) h n s :
  run env (try_except c m h) n s =
  or_else c (run env m n s) (fun e => run env (h e)).
Proof.
  revert n s.
  induction m as [a|e| | |k IH|g k IH|ev k IH|cl k IH]; intros n s; cbn;
    try reflexivity; auto.
  - unfold or_else, then_run. cbn. destruct (c e); [|reflexivity].
    now rewrite run_result_eta.
  - now rewrite IH, or_else_emitted.
  - now rewrite IH, or_else_emitted.
Qed.

Lemma and_finally_emitted A ev (r : run_result A) fin :
  and_finally (emitted ev r) fin = emitted ev (and_finally r fin).
Proof.
  destruct r as [[a|e| |] st t cl]; unfold and_finally, emitted, and_then;
    cbn; try reflexivity;
    now destruct (final (fin cl st)).
Qed.

Lemma run_try_finally A env (m : M A) fin n s :
  run env (try_finally m fin) n s =
  and_finally (run env m n s) (run env fin).
Proof.
  revert n s.
  induction m as [a|e| | |k IH|g k IH|ev k IH|cl k IH]; intros n s; cbn;
    try reflexivity; auto.
  - rewrite run_bind. unfold and_finally, and_then, then_run. cbn.
    destruct (final (run env fin n s)); reflexivity.
  - rewrite run_bind. unfold and_finally, and_then, then_run. cbn.
    destruct (final (run env fin n s)); reflexivity.
  - now rewrite IH, and_finally_emitted.
  - now rewrite IH, and_finally_emitted.
Qed.

#[local] Arguments interfere : simpl never.
#[local] Arguments count : simpl never.
#[local] Arguments emitted : simpl never.
#[local] Arguments In : simpl never.

(** To establish a property of a run, it is enough to establish it for
    whatever the run evaluates to: the property is kept abstract while the
    run is evaluated. *)
Lemma abstractly A (P : run_result A -> Prop) (r : run_result A) :
  (forall Post : run_result A -> Prop, (forall x, P x -> Post x) -> Post r) ->
  P r.
Proof. intros H. apply (H P). auto. Qed.

Ltac symbolic :=
  lazymatch goal with
  | |- let r := _ in _ =>
      let r := fresh "r" in
      let Post := fresh "Post" in
      let HPost := fresh "HPost" in
      intro r; pattern r; apply abstractly; intros Post HPost; subst r
  end.

Ltac conclude :=
  match goal with
  | HP : forall x, _ -> ?Q x |- ?Q _ =>
      apply HP; cbv beta iota delta [emitted final state trace calls]; cbn
  end.

Lemma is_running_interfere r s :
  is_running (interfere r s) = is_running s && negb (shutdown_began r).
Proof.
  unfold interfere. destruct (shutdown_began r); cbn;
    [now rewrite andb_false_r | now rewrite andb_true_r].
Qed.

Lemma shared_state_interfere r s :
  shared_state (interfere r s) = shared_state s.
Proof. unfold interfere. now destruct (shutdown_began r). Qed.

Lemma shutdown_event_interfere r s :
  shutdown_event (interfere r s) = shutdown_event s.
Proof. unfold interfere. now destruct (shutdown_began r). Qed.

Lemma postgresql_adapter_interfere r s :
  postgresql_adapter (interfere r s) = postgresql_adapter s.
Proof. unfold interfere. now destruct (shutdown_began r). Qed.

Lemma agent_coordinator_interfere r s :
  agent_coordinator (interfere r s) = agent_coordinator s.
Proof. unfold interfere. now destruct (shutdown_began r). Qed.

Lemma agents_interfere r s : agents (interfere r s) = agents s.
Proof. unfold interfere. now destruct (shutdown_began r). Qed.

Lemma agent_tasks_interfere r s : agent_tasks (interfere r s) = agent_tasks s.
Proof. unfold interfere. now destruct (shutdown_began r). Qed.

Lemma config_interfere r s : config (interfere r s) = config s.
Proof. unfold interfere. now destruct (shutdown_began r). Qed.

Lemma startup_time_interfere r s :
  startup_time (interfere r s) = startup_time s.
Proof. unfold interfere. now destruct (shutdown_began r). Qed.

Lemma interfere_quiet r s : shutdown_began r = false -> interfere r s = s.
Proof. unfold interfere. now intros ->. Qed.

Create Rewrite HintDb launcher.
#[local] Hint Rewrite is_running_interfere shared_state_interfere
  shutdown_event_interfere postgresql_adapter_interfere
  agent_coordinator_interfere agents_interfere agent_tasks_interfere
  config_interfere startup_time_interfere : launcher.

Lemma count_app p t1 t2 : count p (t1 ++ t2) = (count p t1 + count p t2)%nat.
Proof. unfold count. now rewrite filter_app, length_app. Qed.

Lemma count_cons p ev t :
  count p (ev :: t) = ((if p ev then 1 else 0) + count p t)%nat.
Proof. unfold count. cbn. now destruct (p ev). Qed.

Lemma count_nil p : count p [] = 0%nat.
Proof. reflexivity. Qed.

Ltac tally :=
  repeat (progress (rewrite ?count_app, ?count_cons, ?count_nil; cbn)).

Lemma differs_from_str_false v text :
  differs_from_str v text = false -> v = VStr text.
Proof.
  destruct v; simpl; try discriminate.
  intros H. apply negb_false_iff in H. apply String.eqb_eq in H. now subst.
Qed.

Lemma shutdown_not_running env n s :
  is_running s = false -> run env shutdown n s = mkRun (Returned tt) s [] n.
Proof. intros H. unfold shutdown. cbn. rewrite H. reflexivity. Qed.

Lemma emitted_final A ev (r : run_result A) : final (emitted ev r) = final r.
Proof. reflexivity. Qed.

Lemma emitted_state A ev (r : run_result A) : state (emitted ev r) = state r.
Proof. reflexivity. Qed.

Lemma emitted_trace A ev (r : run_result A) :
  trace (emitted ev r) = ev :: trace r.
Proof. reflexivity. Qed.

Lemma emitted_calls A ev (r : run_result A) : calls (emitted ev r) = calls r.
Proof. reflexivity. Qed.

Ltac answer env :=
  match goal with
  | |- context [env ?n ?c] =>
      let b := fresh "b" in
      let E := fresh "E" in
      destruct (env n c) as [[?v|?e|] b] eqn:E; cbn
  end.

Ltac caught :=
  match goal with
  | |- context [is_exception ?e] => destruct (is_exception e) eqn:?; cbn
  end.

(** Membership in a literal trace, by position. *)
Ltac in_trace_at fuel k :=
  lazymatch fuel with
  | O => fail "not in the trace"
  | S ?f =>
      first [ apply (nth_error_In _ k); reflexivity | in_trace_at f (S k) ]
  end.

Ltac in_trace := in_trace_at 120%nat 0%nat.

Ltac branch :=
  match goal with
  | |- context [getitem ?v ?k] =>
      let G := fresh "G" in destruct (getitem v k) as [?st|?ex] eqn:G; cbn
  | |- context [differs_from_str ?v ?k] =>
      let D := fresh "D" in
      destruct (differs_from_str v k) eqn:D; cbn;
      [|apply differs_from_str_false in D; subst]
  | |- context [is_exception ?e] => destruct (is_exception e) eqn:?; cbn
  end.

Ltac norm := repeat (progress (autorewrite with launcher; cbn)).

Ltac leaf :=
  repeat split; norm;
  try discriminate; try (intros ->; norm; reflexivity); try reflexivity;
  try (unfold count; cbn; lia); auto.

(** What [initialize_system] can do. *)
Lemma initialize_system_healthy env n s :
  let r := run env initialize_system n s in
  (final r = Returned tt ->
   exists k hc, result (env k AdapterHealthCheck) = Returns hc /\
                In (Called AdapterHealthCheck (Returns hc)) (trace r) /\
                getitem hc "status" = inl (VStr "healthy")) /\
  (is_running s = false -> is_running (state r) = false) /\
  shutdown_event (state r) = shutdown_event s /\
  count is_teardown (trace r) = 0%nat /\
  (count is_health_check (trace r) <= 1)%nat /\
  count is_monitor_task (trace r) = 0%nat /\
  count is_runner_task (trace r) = 0%nat.
Proof.
  symbolic. unfold initialize_system. cbn.
  repeat first [answer env | branch]; conclude; try solve [leaf].
  all: split; [|leaf].
  all: intros _; match goal with
       | E : _ ?k AdapterHealthCheck = _ |- _ =>
           eexists k, _; split; [rewrite E; reflexivity|]
       end; split; [in_trace | eassumption].
Qed.

Lemma start_unhealthy env n s :
  unhealthy_backend env ->
  is_running s = false ->
  let r := run env start n s in
  final r <> Returned tt /\
  is_running (state r) = false /\
  shutdown_event (state r) = shutdown_event s /\
  count is_teardown (trace r) = 0%nat /\
  (count is_health_check (trace r) <= 1)%nat /\
  count is_monitor_task (trace r) = 0%nat /\
  count is_runner_task (trace r) = 0%nat.
Proof.
  intros U Hs. symbolic. unfold start. cbn. rewrite run_try_except, run_bind.
  pose proof (initialize_system_healthy env n (set_startup_time true s))
    as (H1 & H2 & H3 & H4 & H5 & H6 & H7). cbn in H1, H2, H3, H4, H5, H6, H7.
  specialize (H2 Hs).
  destruct (run env initialize_system n (set_startup_time true s))
    as [[[]|e| |] st t cl]; cbn in *.
  - destruct H1 as (k & hc & Hk & _ & Hh); [reflexivity|].
    now apply U in Hk.
  - unfold and_then, or_else. cbn. destruct (is_exception e); cbn;
      conclude; tally; repeat split; try discriminate; try lia; auto.
  - unfold and_then, or_else. cbn. conclude.
    repeat split; try discriminate; tauto.
  - unfold and_then, or_else. cbn. conclude.
    repeat split; try discriminate; tauto.
Qed.

Lemma main_unhealthy env cfg :
  unhealthy_backend env ->
  let r := run env main 0 (new_launcher cfg) in
  count is_teardown (trace r) = 0%nat /\
  shutdown_event (state r) = false /\
  is_running (state r) = false.
Proof.
  intros U. symbolic. unfold main. cbn.
  rewrite run_try_finally, run_try_except.
  pose proof (start_unhealthy env 0%nat (new_launcher cfg) U eq_refl)
    as (H1 & H2 & H3 & H4 & _). cbn in H1, H2, H3, H4.
  destruct (run env start 0 (new_launcher cfg)) as [[[]|e| |] st t cl];
    cbn in *; try congruence.
  - unfold or_else. cbn.
    destruct (is_keyboard_interrupt e || is_exception e); cbn.
    + destruct (is_keyboard_interrupt e); cbn;
        unfold and_finally, and_then, then_run; cbn;
        rewrite shutdown_not_running by assumption; cbn;
        conclude; rewrite ?app_nil_r; tally; repeat split; auto; try lia;
        try discriminate.
    + unfold and_finally, and_then, then_run; cbn.
      rewrite shutdown_not_running by assumption; cbn.
      conclude; rewrite ?app_nil_r; tally; repeat split; auto; try lia;
        try discriminate.
  - unfold or_else, and_finally. cbn. conclude. repeat split; auto.
  - unfold or_else, and_finally. cbn. conclude. repeat split; auto.
Qed.

(** ** What a coroutine can do in any environment *)

Lemma respects_bind Pe Pc Pu A B (m : M A) (f : A -> M B) :
  respects Pe Pc Pu m -> (forall a, respects Pe Pc Pu (f a)) ->
  respects Pe Pc Pu (bind m f).
Proof.
  intros Hm Hf.
  induction m as [a|e| | |k IH|g k IH|ev k IH|c k IH]; cbn in *; auto.
  - destruct Hm. auto.
  - destruct Hm. auto.
  - destruct Hm. auto.
Qed.

Lemma respects_try_except Pe Pc Pu A c (m : M A) h :
  respects Pe Pc Pu m -> (forall e, respects Pe Pc Pu (h e)) ->
  respects Pe Pc Pu (try_except c m h).
Proof.
  intros Hm Hh.
  induction m as [a|e| | |k IH|g k IH|ev k IH|cl k IH]; cbn in *; auto.
  - destruct (c e); cbn; auto.
  - destruct Hm. auto.
  - destruct Hm. auto.
  - destruct Hm. auto.
Qed.

Lemma respects_try_finally Pe Pc Pu A (m : M A) fin :
  respects Pe Pc Pu m -> respects Pe Pc Pu fin ->
  respects Pe Pc Pu (try_finally m fin).
Proof.
  intros Hm Hf.
  induction m as [a|e| | |k IH|g k IH|ev k IH|cl k IH]; cbn in *; auto.
  - apply respects_bind; cbn; auto.
  - apply respects_bind; cbn; auto.
  - destruct Hm. auto.
  - destruct Hm. auto.
  - destruct Hm. auto.
Qed.

Lemma respects_for_each Pe Pc Pu X (l : list X) body :
  (forall x, respects Pe Pc Pu (body x)) ->
  respects Pe Pc Pu (for_each l body).
Proof.
  intros Hb. induction l as [|x l IH]; cbn; auto.
  apply respects_bind; auto.
Qed.

Lemma respects_run_events Pe Pc Pu A env (m : M A) n s :
  (forall c o, Pc c -> Pe (Called c o)) -> respects Pe Pc Pu m ->
  Forall Pe (trace (run env m n s)).
Proof.
  intros Hc. revert n s.
  induction m as [a|e| | |k IH|g k IH|ev k IH|c k IH]; intros n s Hm; cbn in *;
    auto.
  - destruct Hm. auto.
  - destruct Hm. rewrite emitted_trace. constructor; auto.
  - destruct Hm. rewrite emitted_trace. constructor; auto.
Qed.

Lemma never_emits_count p A env (m : M A) n s :
  never_emits p m -> count p (trace (run env m n s)) = 0%nat.
Proof.
  intros Hm.
  assert (F : Forall (fun ev => p ev = false) (trace (run env m n s))).
  { eapply respects_run_events; [|exact Hm]. cbn. auto. }
  induction F as [|ev t Hev F IH]; [reflexivity|].
  rewrite count_cons, Hev, IH. reflexivity.
Qed.

Ltac respectful :=
  repeat first
    [ apply respects_bind
    | apply respects_try_except
    | apply respects_try_finally
    | apply respects_for_each
    | progress intros
    | split
    | reflexivity
    | assumption
    | exact I
    | progress cbn
    | match goal with
      | |- respects _ _ _ (if ?b then _ else _) => destruct b
      | |- respects _ _ _ (match ?o with _ => _ end) => destruct o
      end ].

Ltac unfold_methods :=
  unfold never_emits, stays_stopped, main, start, shutdown,
    announce_shutdown, stop_agents, close_components, initialize_system,
    create_agents, create_agent, start_agents,
    monitor_tick, recovery_iteration, when, await_on, lift, raise, log, emit,
    modify, await.

Lemma start_never_spawns_runner : never_emits is_runner_task start.
Proof. unfold_methods. respectful. Qed.

Lemma interfere_calm env n c s :
  undisturbed env -> interfere (env n c) s = s.
Proof. intros Q. apply interfere_quiet, Q. Qed.

Ltac told env H :=
  match goal with
  | |- context [env ?n ?c] =>
      let P := fresh "P" in
      let o := fresh "o" in
      let b := fresh "b" in
      let E := fresh "E" in
      pose proof (H n c) as P; cbn in P;
      destruct (env n c) as [o b] eqn:E; cbn in P;
      lazymatch type of P with
      | exists _, _ = _ /\ _ =>
          let P' := fresh "P" in destruct P as [? [-> P']]; cbn; rewrite ?P'
      | exists _, _ = _ => destruct P as [? ->]
      | _ = _ => subst o
      | _ => destruct o as [?v|?e|]; cbn in P; try contradiction; subst
      end;
      cbn
  end.

Lemma getitem_error d k e : getitem d k = inr e -> is_exception e = true.
Proof.
  destruct d as [| | | | |kvs|]; cbn; try (intros [= <-]; reflexivity).
  destruct (assoc k kvs); [discriminate|]. intros [= <-]. reflexivity.
Qed.

(** ** Startup *)

(** C8: initialisation returns only if the backend's health check reported
    status 'healthy'; with a backend that never does, [start] does not
    return, leaves [is_running] false, asks for the health status at most
    once and spawns nothing; and when the backend answers with any other
    status the error raised by the check leaves [start] after exactly four
    calls (nothing is initialised after the check, nothing is retried). *)
Theorem startup_requires_healthy_backend env n s :
  (final (run env initialize_system n s) = Returned tt ->
   exists k hc, result (env k AdapterHealthCheck) = Returns hc /\
                getitem hc "status" = inl (VStr "healthy")) /\
  (unhealthy_backend env -> is_running s = false ->
   let r := run env start n s in
   final r <> Returned tt /\ is_running (state r) = false /\
   (count is_health_check (trace r) <= 1)%nat /\
   count is_monitor_task (trace r) = 0%nat) /\
  (forall hc,
      backend_reports hc env ->
      getitem hc "status" <> inl (VStr "healthy") ->
      let r := run env start n s in
      exists e, final r = Raised e /\ is_exception e = true /\
                (forall st, getitem hc "status" = inl st ->
                            e = RuntimeError
                                  "PostgreSQL health check failed: {}" [hc]) /\
                calls r = (n + 4)%nat /\
                count is_health_check (trace r) = 1%nat).
Proof.
  split; [|split].
  - intros H.
    destruct (initialize_system_healthy env n s) as (H1 & _).
    destruct (H1 H) as (k & hc & Hk & _ & Hh). eauto.
  - intros U Hs.
    destruct (start_unhealthy env n s U Hs) as (H1 & H2 & _ & _ & H5 & H6 & _).
    auto.
  - intros hc B Hne. symbolic. unfold start, initialize_system. cbn.
    do 4 told env B.
    destruct (getitem hc "status") as [st|ex] eqn:G; cbn.
    + destruct (differs_from_str st "healthy") eqn:D; cbn.
      * conclude. eexists. split; [reflexivity|]. split; [reflexivity|].
        split; [reflexivity|]. split; [lia|reflexivity].
      * apply differs_from_str_false in D. congruence.
    + assert (X : is_exception ex = true)
        by (eapply getitem_error; eassumption).
      repeat (rewrite X; cbn). conclude.
      eexists. split; [reflexivity|]. split; [exact X|].
      split; [discriminate|]. split; [lia|reflexivity].
Qed.


Lemma startup_requires_healthy_backend_witness :
  let r := run sick start 0 (new_launcher default_config) in
  final r = Raised (RuntimeError "PostgreSQL health check failed: {}"
                      [VDict [("status", VStr "degraded")]]) /\
  is_running (state r) = false /\ calls r = 4%nat.
Proof.
  pose proof (startup_requires_healthy_backend sick 0%nat
                (new_launcher default_config)) as (_ & H2 & H3).
  assert (U : unhealthy_backend sick).
  { intros k hc [= <-]. discriminate. }
  assert (B : backend_reports (VDict [("status", VStr "degraded")]) sick).
  { intros k c. destruct c; cbn; eauto. }
  destruct (H2 U eq_refl) as (_ & R & _).
  destruct (H3 _ B) as (e & F & _ & Q & C & _); [discriminate|].
  rewrite (Q _ eq_refl) in F. auto.
Defined.

(** C9: invoked while [is_running] is false, [shutdown] returns at once:
    it performs no effect, makes no call and changes nothing; so when
    startup fails on an unhealthy backend, the cleanup path of [main] emits
    no shutdown event, closes neither the coordinator, the shared state nor
    the adapter, and never sets the completion signal. *)
Theorem shutdown_before_running_does_nothing env :
  (forall n s, is_running s = false ->
               run env shutdown n s = mkRun (Returned tt) s [] n) /\
  (forall cfg, unhealthy_backend env ->
               let r := run env main 0 (new_launcher cfg) in
               count is_teardown (trace r) = 0%nat /\
               shutdown_event (state r) = false).
Proof.
  split.
  - intros n s. apply shutdown_not_running.
  - intros cfg U. destruct (main_unhealthy env cfg U) as (H1 & H2 & _). auto.
Qed.

Lemma shutdown_before_running_does_nothing_witness :
  run sick shutdown 0 (new_launcher default_config) =
  mkRun (Returned tt) (new_launcher default_config) [] 0 /\
  count is_teardown (trace (run sick main 0 (new_launcher default_config)))
  = 0%nat.
Proof.
  destruct (shutdown_before_running_does_nothing sick) as (H1 & H2).
  split.
  - apply H1. reflexivity.
  - apply H2. intros k hc [= <-]. discriminate.
Defined.

(** ** Startup, step by step *)

Lemma run_bind_returned A B env (m : M A) (f : A -> M B) n s a :
  final (run env m n s) = Returned a ->
  run env (bind m f) n s =
  then_run (run env m n s)
    (run env (f a) (calls (run env m n s)) (state (run env m n s))).
Proof. intros H. rewrite run_bind. unfold and_then. now rewrite H. Qed.

Lemma try_except_state A env c (m : M A) h n s :
  (forall e n' s', state (run env (h e) n' s') = s') ->
  state (run env (try_except c m h) n s) = state (run env m n s).
Proof.
  intros Hh. rewrite run_try_except. unfold or_else.
  destruct (final (run env m n s)) as [a|e| |]; try reflexivity.
  destruct (c e); [cbn; apply Hh | reflexivity].
Qed.

Lemma try_except_count A env c (m : M A) h n s p :
  (forall e n' s', count p (trace (run env (h e) n' s')) = 0%nat) ->
  count p (trace (run env (try_except c m h) n s)) =
  count p (trace (run env m n s)).
Proof.
  intros Hh. rewrite run_try_except. unfold or_else.
  destruct (final (run env m n s)) as [a|e| |]; try reflexivity.
  destruct (c e); [|reflexivity].
  cbn. rewrite count_app, Hh. lia.
Qed.

Lemma initialize_goes_through env results n s :
  startup_goes_through results env ->
  undisturbed env ->
  let r := run env initialize_system n s in
  final r = Returned tt /\
  state r = set_agent_coordinator true
              (set_system_initializer true
                 (set_shared_state true (set_postgresql_adapter true s))).
Proof.
  intros G Q. symbolic. unfold initialize_system. cbn.
  repeat (rewrite ?interfere_calm by assumption; told env G).
  conclude. split; reflexivity.
Qed.


Lemma create_goes_through env results n s :
  startup_goes_through results env ->
  undisturbed env ->
  let r := run env create_agents n s in
  final r = Returned tt /\ state r = with_agents s.
Proof.
  intros G Q. symbolic. unfold create_agents, create_agent. cbn.
  repeat (rewrite ?interfere_calm by assumption; told env G).
  conclude. split; reflexivity.
Qed.

Lemma start_agents_goes_through env results n s :
  startup_goes_through results env ->
  undisturbed env ->
  agent_coordinator s = true ->
  let r := run env start_agents n s in
  final r = Returned tt /\ state r = s /\
  In (Log INFO "Agent startup completed: {}/{} agents started successfully"
        [LV (VInt (len (successful_of results))); LV (VInt (len results))])
     (trace r) /\
  (successful_of results <> [] ->
   In (Log INFO "Successfully started agents: {}"
         [LV (VStr (join ", " (successful_of results)))]) (trace r)) /\
  (failed_of results <> [] ->
   In (Log ERROR "Failed to start agents: {}"
         [LV (VStr (join ", " (failed_of results)))]) (trace r)) /\
  count (is_log ERROR "Agent startup failed: {}") (trace r) = 0%nat.
Proof.
  intros G Q Hc. symbolic. unfold start_agents. cbn.
  repeat (rewrite ?Hc; cbn; rewrite ?interfere_calm by assumption;
          first [ match goal with
                  | |- context [dict_mem ?a ?d] => destruct (dict_mem a d); cbn
                  end
                | told env G ]).
  all: rewrite ?interfere_calm by assumption.
  all: destruct (successful_of results) as [|a l] eqn:Hs;
    destruct (failed_of results) as [|a' l'] eqn:Hf; cbn; conclude.
  all: split; [reflexivity|]. 
  all: split; [reflexivity|].
  all: split; [in_trace|].
  all: split;
    [first [ intros H; exfalso; apply H; reflexivity | intros _; in_trace ]|].
  all: split;
    [first [ intros H; exfalso; apply H; reflexivity | intros _; in_trace ]|].
  all: reflexivity.
Qed.


(** The three startup phases in sequence, followed by anything. *)
Lemma run_startup_phases A env results (rest : M A) n s :
  startup_goes_through results env ->
  undisturbed env ->
  exists t n',
    run env (initialize_system ;; create_agents ;; start_agents ;; rest) n s =
    then_run (mkRun (Returned tt) (with_agents (initialized s)) t n')
      (run env rest n' (with_agents (initialized s))) /\
    (forall p, never_emits p initialize_system ->
               never_emits p create_agents ->
               never_emits p start_agents -> count p t = 0%nat) /\
    count (is_log ERROR "Agent startup failed: {}") t = 0%nat.
Proof.
  intros G Q.
  pose (r1 := run env initialize_system n s).
  pose (r2 := run env create_agents (calls r1) (state r1)).
  pose (r3 := run env start_agents (calls r2) (state r2)).
  destruct (initialize_goes_through env results n s G Q) as [F1 S1].
  destruct (create_goes_through env results (calls r1) (state r1) G Q)
    as [F2 S2].
  assert (Hc : agent_coordinator (state r2) = true).
  { unfold r2. rewrite S2. unfold r1. rewrite S1. reflexivity. }
  destruct (start_agents_goes_through env results (calls r2) (state r2) G Q Hc)
    as (F3 & S3 & _ & _ & _ & C3).
  change (final r1 = Returned tt) in F1.
  change (state r1 = initialized s) in S1.
  change (final r2 = Returned tt) in F2.
  change (state r2 = with_agents (state r1)) in S2.
  change (final r3 = Returned tt) in F3.
  change (state r3 = state r2) in S3.
  exists (trace r1 ++ trace r2 ++ trace r3), (calls r3).
  split; [|split].
  - rewrite (run_bind_returned _ _ _ _ _ _ _ _ F1). fold r1.
    rewrite (run_bind_returned _ _ _ _ _ _ _ _ F2). fold r2.
    rewrite (run_bind_returned _ _ _ _ _ _ _ _ F3). fold r3.
    rewrite S3, S2, S1. unfold then_run. cbn.
    now rewrite !app_assoc.
  - intros p H1 H2 H3. rewrite !count_app.
    unfold r3, r2, r1. rewrite !never_emits_count by assumption. reflexivity.
  - rewrite !count_app. unfold r3 at 1. rewrite C3. unfold r2, r1.
    rewrite !never_emits_count by (unfold_methods; respectful). reflexivity.
Qed.

Ltac symbolic_run :=
  match goal with
  | |- context [run ?e ?m ?n ?s] =>
      let Post := fresh "Post" in
      let HPost := fresh "HPost" in
      pattern (run e m n s); apply abstractly; intros Post HPost
  end.

Lemma start_marks_running env results n s :
  startup_goes_through results env ->
  undisturbed env ->
  let r := run env start n s in
  is_running (state r) = true /\
  count (is_system_event "system_startup") (trace r) = 1%nat /\
  count (is_log ERROR "Agent startup failed: {}") (trace r) = 0%nat.
Proof.
  intros G Q. cbv zeta. unfold start.
  rewrite try_except_state by (intros; reflexivity).
  rewrite !try_except_count by (intros; reflexivity).
  cbn. rewrite emitted_state, emitted_trace.
  match goal with
  | |- context [run env (initialize_system ;; create_agents ;;
                         start_agents ;; ?rest) ?n ?s] =>
      destruct (run_startup_phases _ env results rest n s G Q)
        as (t & n' & E & Ht & H2)
  end.
  rewrite E. clear E.
  assert (H1 : count (is_system_event "system_startup") t = 0%nat).
  { apply Ht; unfold_methods; respectful. }
  cbn [then_run state trace]. rewrite !count_cons, !count_app, H1, H2. cbn.
  symbolic_run.
  repeat first [ rewrite interfere_calm by assumption
               | told env G
               | caught ]; conclude; repeat split.
Qed.

Lemma selected_ids (p : value -> bool) (results : list (string * value)) id :
  In id (map fst (filter (fun kv => p (snd kv)) results)) <->
  exists v, In (id, v) results /\ p v = true.
Proof.
  rewrite in_map_iff. split.
  - intros ([k v] & E & H). cbn in E. subst k.
    apply filter_In in H. destruct H as [H P]. now exists v.
  - intros (v & H & P). exists (id, v). split; [reflexivity|].
    apply filter_In. now split.
Qed.

(** What [start_agents] logs about the outcomes the coordinator reports. *)
Lemma start_agents_logs env results n s :
  startup_goes_through results env ->
  undisturbed env ->
  agent_coordinator s = true ->
  let r := run env start_agents n s in
  final r = Returned tt /\
  In (Log INFO "Agent startup completed: {}/{} agents started successfully"
        [LV (VInt (len (successful_of results))); LV (VInt (len results))])
     (trace r) /\
  (successful_of results <> [] ->
   In (Log INFO "Successfully started agents: {}"
         [LV (VStr (join ", " (successful_of results)))]) (trace r)) /\
  (successful_of results = [] ->
   count (is_log INFO "Successfully started agents: {}") (trace r) = 0%nat) /\
  (failed_of results <> [] ->
   In (Log ERROR "Failed to start agents: {}"
         [LV (VStr (join ", " (failed_of results)))]) (trace r)) /\
  (failed_of results = [] ->
   count (is_log ERROR "Failed to start agents: {}") (trace r) = 0%nat) /\
  count (is_log ERROR "Agent startup failed: {}") (trace r) = 0%nat.
Proof.
  intros G Q Hc. symbolic. unfold start_agents. cbn.
  repeat (rewrite ?Hc; cbn; rewrite ?interfere_calm by assumption;
          first [ match goal with
                  | |- context [dict_mem ?a ?d] => destruct (dict_mem a d); cbn
                  end
                | told env G ]).
  all: rewrite ?interfere_calm by assumption.
  all: destruct (successful_of results) as [|a l] eqn:Hs;
    destruct (failed_of results) as [|a' l'] eqn:Hf; cbn; conclude.
  all: split; [reflexivity|].
  all: split; [in_trace|].
  all: split;
    [first [ intros H; exfalso; apply H; reflexivity | intros _; in_trace ]|].
  all: split; [first [ intros _; reflexivity | intros [=] ]|].
  all: split;
    [first [ intros H; exfalso; apply H; reflexivity | intros _; in_trace ]|].
  all: split; [first [ intros _; reflexivity | intros [=] ]|].
  all: reflexivity.
Qed.

(** C5: whatever per-worker outcome the coordinator's [start_all_agents]
    reports (every worker may have failed), [start_agents] returns without
    raising and without logging a startup failure; the workers it logs as
    started are those whose reported outcome is true, in the order of the
    report, the workers it logs as failed are those whose outcome is false,
    and the tally gives the number of the former out of all (a list that is
    empty is not logged); and [start] goes on to mark the system running
    and to emit the startup event. *)
Theorem partial_start_failures_do_not_abort env results :
  startup_goes_through results env ->
  undisturbed env ->
  (forall n s,
      agent_coordinator s = true ->
      let r := run env start_agents n s in
      let succeeded := map fst (filter (fun kv => truthy (snd kv)) results) in
      let failed :=
        map fst (filter (fun kv => negb (truthy (snd kv))) results) in
      final r = Returned tt /\
      (forall id, In id succeeded <->
                  exists v, In (id, v) results /\ truthy v = true) /\
      (forall id, In id failed <->
                  exists v, In (id, v) results /\ truthy v = false) /\
      (forall id, In (id, VBool true) results -> In id succeeded) /\
      (forall id, In (id, VBool false) results -> In id failed) /\
      In (Log INFO "Agent startup completed: {}/{} agents started successfully"
            [LV (VInt (len succeeded)); LV (VInt (len results))])
         (trace r) /\
      (succeeded <> [] ->
       In (Log INFO "Successfully started agents: {}"
             [LV (VStr (join ", " succeeded))]) (trace r)) /\
      (succeeded = [] ->
       count (is_log INFO "Successfully started agents: {}") (trace r)
       = 0%nat) /\
      (failed <> [] ->
       In (Log ERROR "Failed to start agents: {}"
             [LV (VStr (join ", " failed))]) (trace r)) /\
      (failed = [] ->
       count (is_log ERROR "Failed to start agents: {}") (trace r)
       = 0%nat) /\
      count (is_log ERROR "Agent startup failed: {}") (trace r) = 0%nat) /\
  (forall n s,
      let r := run env start n s in
      is_running (state r) = true /\
      count (is_system_event "system_startup") (trace r) = 1%nat /\
      count (is_log ERROR "Agent startup failed: {}") (trace r) = 0%nat).
Proof.
  intros G Q. split.
  - intros n s Hc.
    destruct (start_agents_logs env results n s G Q Hc)
      as (F & I1 & I2 & I3 & I4 & I5 & I6).
    cbv zeta. split; [exact F|].
    split; [intros id; apply (selected_ids truthy)|].
    split.
    { intros id.
      rewrite (selected_ids (fun v => negb (truthy v)) results id).
      split; intros (v & H & P); exists v; split; try assumption;
        [now apply negb_true_iff in P | now apply negb_true_iff]. }
    split.
    { intros id H. apply (selected_ids truthy). now exists (VBool true). }
    split.
    { intros id H. apply (selected_ids (fun v => negb (truthy v))).
      now exists (VBool false). }
    split; [exact I1|]. split; [exact I2|]. split; [exact I3|].
    split; [exact I4|]. split; [exact I5|exact I6].
  - intros n s. now apply start_marks_running with (results := results).
Qed.

Lemma partial_start_failures_do_not_abort_witness :
  let r := run partly_started start_agents 0
             (with_agents (initialized (new_launcher default_config))) in
  In (Log INFO "Successfully started agents: {}"
        [LV (VStr "heartbeat_health_agent, langsmith_bridge")]) (trace r) /\
  In (Log ERROR "Failed to start agents: {}"
        [LV (VStr "performance_monitor, ai_help_agent")]) (trace r) /\
  In (Log INFO "Agent startup completed: {}/{} agents started successfully"
        [LV (VInt 2); LV (VInt 4)]) (trace r) /\
  is_running
    (state (run partly_started start 0 (new_launcher default_config))) = true.
Proof.
  assert (G : startup_goes_through
                [("heartbeat_health_agent", VBool true);
                 ("performance_monitor", VBool false);
                 ("langsmith_bridge", VBool true);
                 ("ai_help_agent", VBool false)] partly_started).
  { intros n c. destruct c; cbn; eauto. }
  assert (Q : undisturbed partly_started).
  { intros n c. destruct c; reflexivity. }
  destruct (partial_start_failures_do_not_abort partly_started _ G Q)
    as (L & R).
  destruct (L 0%nat (with_agents (initialized (new_launcher default_config)))
              eq_refl) as (_ & _ & _ & _ & _ & T & S1 & _ & F1 & _).
  split; [apply S1; discriminate|].
  split; [apply F1; discriminate|].
  split; [exact T|].
  apply (R 0%nat (new_launcher default_config)).
Defined.

(** C1 (the code does otherwise): with every collaborator working and all
    four agents registered and started, [start] reaches the wait on the
    shutdown signal with the system running, having created the health
    monitor task and no recovery runner task: [agent_tasks] is still empty.
    And in no environment, from no state, does [start] create a recovery
    runner task. *)
Theorem start_spawns_no_recovery_runner :
  (let r := run all_well start 0 (new_launcher default_config) in
   final r = Suspended /\
   is_running (state r) = true /\
   map fst (agents (state r)) = known_agent_ids /\
   agent_tasks (state r) = [] /\
   count is_monitor_task (trace r) = 1%nat /\
   count is_runner_task (trace r) = 0%nat /\
   last (trace r) EventSet = Called ShutdownEventWait Pending) /\
  (forall env n s, count is_runner_task (trace (run env start n s)) = 0%nat).
Proof.
  split.
  - vm_compute. repeat split.
  - intros env n s. apply never_emits_count, start_never_spawns_runner.
Qed.

(** ** Health monitor *)

#[local] Arguments Qltb : simpl never.
#[local] Arguments inject_Z : simpl never.
#[local] Arguments format_1f : simpl never.

Lemma Qltb_lt x y : Qltb x y = true <-> (x < y)%Q.
Proof.
  unfold Qltb. rewrite negb_true_iff. split.
  - intros H. apply Qnot_le_lt. intros L. apply Qle_bool_iff in L. congruence.
  - intros H. destruct (Qle_bool y x) eqn:L; [|reflexivity].
    apply Qle_bool_iff in L. exfalso. now apply (Qlt_not_le x y).
Qed.

#[local] Arguments fits_float : simpl never.

Lemma format_1f_score v q : format_1f v = inl q -> as_number v = Some q.
Proof.
  unfold format_1f. destruct v as [|b|z|x|str|kvs|w]; cbn; try discriminate.
  - intros [= <-]. reflexivity.
  - destruct (fits_float z); [|discriminate]. intros [= <-]. reflexivity.
  - intros [= <-]. reflexivity.
Qed.

Lemma format_1f_error v ex : format_1f v = inr ex -> is_exception ex = true.
Proof.
  unfold format_1f. destruct v as [|b|z|x|str|kvs|w]; cbn;
    try discriminate; try (intros [= <-]; reflexivity).
  destruct (fits_float z); [discriminate|]. intros [= <-]. reflexivity.
Qed.

Ltac scan H :=
  repeat (apply in_inv in H; destruct H as [H|H];
          [try discriminate H|]);
  try (now inversion H).

Ltac tick_events :=
  let H := fresh "H" in
  intros ? ? ? H; scan H; inversion H; subst; split; reflexivity.

(** A tick that emitted the event: the score read is [q], below 70. *)
Ltac tick_degraded F L :=
  rewrite ?F; cbv beta iota;
  split;
  [ split;
    [ intros _; eexists; split; [reflexivity | now apply Qltb_lt]
    | intros _; reflexivity ]
  | split;
    [ unfold health_events, count; cbn; lia
    | split;
      [ tick_events
      | let Heq := fresh "Heq" in
        intros ? [= <-] Heq; apply Qltb_lt in L; rewrite Heq in L;
        now apply Qlt_irrefl in L ] ] ].

(** A tick that emitted nothing although it read the score [q]. *)
Ltac tick_healthy F L :=
  rewrite ?F; cbv beta iota;
  split;
  [ split;
    [ let H := fresh "H" in
      intros H; unfold health_events, count in H; cbn in H; discriminate H
    | let H := fresh "H" in
      intros (? & [= <-] & H); apply Qltb_lt in H; congruence ]
  | split;
    [ unfold health_events, count; cbn; lia
    | split; [ tick_events | intros; repeat split; reflexivity ] ] ].

(** A tick that read no score. *)
Ltac tick_failed :=
  split;
  [ split;
    [ let H := fresh "H" in
      intros H; unfold health_events, count in H; cbn in H; discriminate H
    | let H := fresh "H" in intros (? & H & _); discriminate H ]
  | split;
    [ unfold health_events, count; cbn; lia
    | split;
      [ tick_events
      | let H := fresh "H" in intros ? H; discriminate H ] ] ].

(** One tick, in terms of the score the tick can work with. *)
Lemma tick_health_event env n s interval :
  shared_state s = true ->
  let r := run env (monitor_tick interval) n s in
  let usable := usable_score (result (env n GetSystemHealth)) in
  (health_events (trace r) = 1%nat <->
   exists q, usable = Some q /\ (q < 70)%Q) /\
  (health_events (trace r) <= 1)%nat /\
  (forall payload severity o,
      In (Called (LogSystemEvent "system_health_check" payload severity) o)
         (trace r) ->
      severity = "WARNING" /\ assoc "status" payload = Some (VStr "degraded")) /\
  (forall q, usable = Some q -> (q == 70)%Q ->
             health_events (trace r) = 0%nat /\
             count (is_log WARNING "System health degraded: {:.1f}/100")
               (trace r) = 0%nat /\
             count (is_log INFO
                      "System Health: {:.1f}/100, Agents: {}/{} active")
               (trace r) = 1%nat).
Proof.
  intros Hs. symbolic. unfold monitor_tick, health_events. cbn.
  rewrite Hs. cbn.
  destruct (env n GetSystemHealth) as [[hd|e|] b] eqn:E; cbn in *.
  - destruct hd as [| | | | |kvs|]; cbn in *.
    6:{ set (score_v := match assoc "overall_health_score" kvs with
                        | Some v => v | None => VInt 0 end) in *.
        destruct (format_1f score_v) as [q|ex] eqn:F; cbn.
        - destruct (Qltb q 70) eqn:L; cbn;
            autorewrite with launcher; rewrite ?Hs; cbn.
          + repeat first [answer env | caught]; conclude;
              tick_degraded F L.
          + repeat first [answer env | caught]; conclude;
              tick_healthy F L.
        - rewrite (format_1f_error _ _ F). cbn.
          repeat first [answer env | caught]; conclude; tick_failed. }
    all: repeat first [answer env | caught]; conclude; tick_failed.
  - repeat first [answer env | caught]; conclude; tick_failed.
  - conclude; tick_failed.
Qed.

Lemma usable_score_fetched o q :
  usable_score o = Some q -> fetched_score o = Some q.
Proof.
  unfold usable_score, fetched_score. destruct o as [hd|e|]; try discriminate.
  destruct (dict_get hd "overall_health_score" (VInt 0)) as [v|ex];
    [|discriminate].
  destruct (format_1f v) as [q'|ex] eqn:F; [|discriminate].
  intros [= <-]. now apply format_1f_score.
Qed.




(** ** Recovery runner *)

#[local] Arguments Z.leb : simpl never.
#[local] Arguments Z.add : simpl never.
#[local] Arguments recovery_loop : simpl never.

#[local] Arguments String.eqb : simpl nomatch.

Ltac tally_id := tally; rewrite ?String.eqb_refl; cbn.

(** A pass through the loop body in which the agent's run returns. *)
Lemma iteration_after_return env agent_id max_attempts attempts n s v :
  result (env n (AgentStartup agent_id)) = Returns v ->
  let r := run env (recovery_iteration agent_id max_attempts attempts) n s in
  final r = Returned (Continue 0) /\
  state r = interfere (env n (AgentStartup agent_id)) s /\
  calls r = S n /\
  count (is_startup_call agent_id) (trace r) = 1%nat.
Proof.
  intros H. symbolic. unfold recovery_iteration. cbn.
  destruct (env n (AgentStartup agent_id)) as [o b] eqn:E. cbn in H. subst o.
  cbn.
  destruct (is_running (interfere {| result := Returns v; shutdown_began := b |} s));
    cbn; conclude; tally_id; repeat split.
Qed.

(** A pass through the loop body in which the agent's run raises, the
    system staying up. *)
Lemma iteration_after_failure env agent_id max_attempts attempts n s :
  undisturbed env ->
  always_raising agent_id env ->
  recovery_proceeds env ->
  is_running s = true ->
  let r := run env (recovery_iteration agent_id max_attempts attempts) n s in
  state r = s /\
  count (is_startup_call agent_id) (trace r) = 1%nat /\
  (attempts + 1 <= max_attempts ->
   final r = Returned (Continue (attempts + 1)) /\
   count is_exhausted_log (trace r) = 0%nat) /\
  (max_attempts < attempts + 1 ->
   final r = Returned (Break (attempts + 1)) /\
   exists t,
     trace r = t ++ [Log ERROR "Agent {} exceeded maximum recovery attempts"
                       [LV (VStr agent_id)]] /\
     count (is_startup_call agent_id) t = 1%nat).
Proof.
  intros Q R P Hs. symbolic. unfold recovery_iteration. cbn.
  destruct (R n) as (e & He & Hx).
  rewrite interfere_calm by assumption.
  destruct (env n (AgentStartup agent_id)) as [o b] eqn:E. cbn in He. subst o.
  cbn. rewrite Hx. cbn. rewrite Hs.
  destruct (attempts + 1 <=? max_attempts) eqn:L; cbn.
  - apply Z.leb_le in L.
    rewrite interfere_calm by assumption. told env P.
    destruct (agent_coordinator s); cbn.
    + rewrite interfere_calm by assumption. told env P.
      * conclude. tally_id. repeat split; intros; try lia.
      * rewrite P0. cbn. conclude. tally_id.
        repeat split; intros; try lia.
    + conclude. tally_id. repeat split; intros; try lia.
  - apply Z.leb_gt in L. conclude. tally_id.
    repeat split; intros; try lia.
    eexists [_; _; _; _; _]. split; [reflexivity|]. tally_id. reflexivity.
Qed.

Lemma recovery_loop_step env fuel agent_id max_attempts attempts n s :
  is_running s = true ->
  attempts <= max_attempts ->
  run env (recovery_loop (S fuel) agent_id max_attempts attempts) n s =
  and_then (run env (recovery_iteration agent_id max_attempts attempts) n s)
    (fun ctl =>
       run env
         match ctl with
         | Continue attempts' =>
             recovery_loop fuel agent_id max_attempts attempts'
         | Break attempts' => Ret attempts'
         end).
Proof.
  intros Hs L. apply Z.leb_le in L.
  change (recovery_loop (S fuel) agent_id max_attempts attempts)
    with (s0 <- get ;;
          if is_running s0 && (attempts <=? max_attempts) then
            ctl <- recovery_iteration agent_id max_attempts attempts ;;
            match ctl with
            | Continue attempts' =>
                recovery_loop fuel agent_id max_attempts attempts'
            | Break attempts' => Ret attempts'
            end
          else Ret attempts).
  cbn. rewrite Hs, L. cbn. apply run_bind.
Qed.

Lemma recovery_loop_exit env fuel agent_id max_attempts attempts n s :
  is_running s && (attempts <=? max_attempts) = false ->
  run env (recovery_loop (S fuel) agent_id max_attempts attempts) n s =
  mkRun (Returned attempts) s [] n.
Proof.
  intros H.
  change (recovery_loop (S fuel) agent_id max_attempts attempts)
    with (s0 <- get ;;
          if is_running s0 && (attempts <=? max_attempts) then
            ctl <- recovery_iteration agent_id max_attempts attempts ;;
            match ctl with
            | Continue attempts' =>
                recovery_loop fuel agent_id max_attempts attempts'
            | Break attempts' => Ret attempts'
            end
          else Ret attempts).
  cbn. rewrite H. reflexivity.
Qed.

(** A worker that always raises is run until the budget is used up. *)
Lemma recovery_loop_exhausts env agent_id max_attempts :
  undisturbed env ->
  always_raising agent_id env ->
  recovery_proceeds env ->
  forall k fuel attempts n s,
    is_running s = true ->
    Z.of_nat k = max_attempts - attempts ->
    (k < fuel)%nat ->
    let r := run env (recovery_loop fuel agent_id max_attempts attempts) n s in
    final r = Returned (max_attempts + 1) /\
    state r = s /\
    exists t,
      trace r = t ++ [Log ERROR "Agent {} exceeded maximum recovery attempts"
                        [LV (VStr agent_id)]] /\
      count (is_startup_call agent_id) t = S k.
Proof.
  intros Q R P. induction k as [|k IH]; intros fuel attempts n s Hs Hk Hf;
    (destruct fuel as [|fuel]; [lia|]); cbv zeta;
    rewrite recovery_loop_step by (assumption || lia);
    destruct (iteration_after_failure env agent_id max_attempts attempts n s
                Q R P Hs) as (S1 & C1 & Hc & Hb);
    destruct (run env (recovery_iteration agent_id max_attempts attempts) n s)
      as [f1 s1 t1 c1]; cbn in S1, C1, Hc, Hb; subst s1.
  - destruct Hb as (F & t & Ht & Ct); [lia|]. subst f1 t1.
    unfold and_then. cbn. replace (attempts + 1) with (max_attempts + 1) by lia.
    split; [reflexivity|]. split; [reflexivity|].
    exists t. rewrite app_nil_r. auto.
  - destruct Hc as (F & _); [lia|]. subst f1.
    unfold and_then. cbn.
    destruct (IH fuel (attempts + 1) c1 s Hs) as (F2 & S2 & t2 & T2 & C2);
      [lia|lia|].
    split; [exact F2|]. split; [exact S2|].
    exists (t1 ++ t2). rewrite T2, app_assoc. split; [reflexivity|].
    rewrite count_app, C1, C2. reflexivity.
Qed.


(** C3: a worker whose run operation raises on every invocation, with
    max_attempts = 3 and the system staying up, is run exactly four times;
    then the runner logs that the retry budget is exhausted, logs its exit
    and returns (with the counter at 4), whatever fuel beyond four passes is
    left: nothing is run after the exhaustion. *)
Theorem failing_worker_is_run_four_times env n s agent_id fuel :
  undisturbed env ->
  always_raising agent_id env ->
  recovery_proceeds env ->
  is_running s = true ->
  dict_mem agent_id (agents s) = true ->
  recovery_attempts (config s) = 3 ->
  (4 <= fuel)%nat ->
  let r := run env (run_agent_with_recovery fuel agent_id) n s in
  final r = Returned 4 /\
  state r = s /\
  count (is_startup_call agent_id) (trace r) = 4%nat /\
  exists t,
    trace r = t ++ [Log ERROR "Agent {} exceeded maximum recovery attempts"
                      [LV (VStr agent_id)];
                    Log INFO "Agent {} runner exiting" [LV (VStr agent_id)]] /\
    count (is_startup_call agent_id) t = 4%nat.
Proof.
  intros Q R P Hs Hm Hc Hf. cbv zeta. unfold run_agent_with_recovery.
  cbn. rewrite Hm, Hc. cbn. rewrite run_bind.
  destruct (recovery_loop_exhausts env agent_id 3 Q R P 3%nat fuel 0 n s Hs)
    as (F & S1 & t & T & C); [reflexivity|lia|].
  destruct (run env (recovery_loop fuel agent_id 3 0) n s) as [f1 s1 t1 c1].
  cbn in F, S1, T. subst f1 s1 t1.
  unfold and_then. cbn. rewrite emitted_final, emitted_state, emitted_trace.
  cbn.
  assert (X : count (is_startup_call agent_id)
                (Log INFO "Starting recovery runner for agent {}"
                   [LV (VStr agent_id)] :: t) = 4%nat).
  { rewrite count_cons. cbn. exact C. }
  split; [reflexivity|]. split; [reflexivity|]. split.
  - rewrite count_cons, !count_app. cbn. rewrite C. reflexivity.
  - eexists (_ :: t). split; [|exact X].
    cbn. rewrite <- app_assoc. reflexivity.
Qed.

Lemma failing_worker_is_run_four_times_witness :
  let r := run crashing (run_agent_with_recovery 10 "performance_monitor") 0
             running_launcher in
  final r = Returned 4 /\
  count (is_startup_call "performance_monitor") (trace r) = 4%nat.
Proof.
  assert (Q : undisturbed crashing).
  { intros n c. destruct c; reflexivity. }
  assert (R : always_raising "performance_monitor" crashing).
  { intros n. eexists. split; reflexivity. }
  assert (P : recovery_proceeds crashing).
  { intros n c. destruct c; cbn; eauto. }
  destruct (failing_worker_is_run_four_times crashing 0%nat running_launcher
              "performance_monitor" 10%nat Q R P eq_refl eq_refl eq_refl)
    as (F & _ & C & _).
  - lia.
  - split; assumption.
Defined.

(** However a pass through the loop body ends, a [break] means that the
    counter has passed the budget or that the system is no longer running. *)
Lemma iteration_break env agent_id max_attempts attempts n s :
  let r := run env (recovery_iteration agent_id max_attempts attempts) n s in
  forall attempts',
    final r = Returned (Break attempts') ->
    max_attempts < attempts' \/ is_running (state r) = false.
Proof.
  symbolic. unfold recovery_iteration. cbn.
  answer env.
  - destruct (is_running (interfere _ _)); cbn; conclude; intros ? [=].
  - caught.
    + match goal with
      | |- context [(?a <=? ?m) && ?b] =>
          destruct (a <=? m) eqn:L; destruct b eqn:B; cbn
      end.
      2-4: conclude; intros ? [= <-];
        first [ right; assumption | left; apply Z.leb_gt in L; lia ].
      answer env; [|conclude; intros ? [=]|conclude; intros ? [=]].
      match goal with
      | |- context [agent_coordinator ?x] => destruct (agent_coordinator x); cbn
      end.
      * answer env; repeat caught; conclude; intros ? [=].
      * conclude; intros ? [=].
    + conclude; intros ? [=].
  - conclude; intros ? [=].
Qed.

(** The loop returns only with the budget exceeded or the system stopped. *)
Lemma recovery_loop_returns env agent_id max_attempts :
  forall fuel attempts n s,
    let r := run env (recovery_loop fuel agent_id max_attempts attempts) n s in
    forall final_attempts,
      final r = Returned final_attempts ->
      max_attempts < final_attempts \/ is_running (state r) = false.
Proof.
  induction fuel as [|fuel IH]; intros attempts n s; cbv zeta;
    intros final_attempts H.
  - discriminate H.
  - destruct (is_running s && (attempts <=? max_attempts)) eqn:C.
    + apply andb_true_iff in C. destruct C as [Hs L]. apply Z.leb_le in L.
      rewrite recovery_loop_step in H |- * by assumption.
      pose proof (iteration_break env agent_id max_attempts attempts n s) as B.
      cbv zeta in B.
      destruct (run env (recovery_iteration agent_id max_attempts attempts) n s)
        as [[[a'|a']|e| |] s1 t1 c1]; unfold and_then in H |- *; cbn in *;
        try discriminate H.
      * now apply IH.
      * injection H as <-. now apply B.
    + rewrite recovery_loop_exit in H |- * by assumption. cbn in *.
      injection H as <-. apply andb_false_iff in C. destruct C as [C|C].
      * now right.
      * left. apply Z.leb_gt in C. lia.
Qed.

(** C7: whenever the worker's run operation returns without raising, the
    pass through the loop body ends with the retry counter at 0, whatever the
    counter was before, and the loop goes on from its condition with that 0;
    and the runner's loop returns only with the counter above max_attempts or
    with the system no longer running. *)
Theorem successful_run_resets_retry_counter env agent_id max_attempts :
  (forall attempts n s v,
      result (env n (AgentStartup agent_id)) = Returns v ->
      final (run env (recovery_iteration agent_id max_attempts attempts) n s)
      = Returned (Continue 0)) /\
  (forall fuel attempts n s v,
      is_running s = true ->
      attempts <= max_attempts ->
      result (env n (AgentStartup agent_id)) = Returns v ->
      run env (recovery_loop (S fuel) agent_id max_attempts attempts) n s =
      then_run
        (run env (recovery_iteration agent_id max_attempts attempts) n s)
        (run env (recovery_loop fuel agent_id max_attempts 0) (S n)
           (interfere (env n (AgentStartup agent_id)) s))) /\
  (forall fuel attempts n s final_attempts,
      let r := run env (recovery_loop fuel agent_id max_attempts attempts) n s
      in
      final r = Returned final_attempts ->
      max_attempts < final_attempts \/ is_running (state r) = false).
Proof.
  split; [|split].
  - intros attempts n s v H.
    now destruct (iteration_after_return env agent_id max_attempts attempts
                    n s v H) as (F & _).
  - intros fuel attempts n s v Hs L H.
    rewrite recovery_loop_step by assumption.
    destruct (iteration_after_return env agent_id max_attempts attempts
                n s v H) as (F & S1 & C1 & _).
    unfold and_then. rewrite F, S1, C1. reflexivity.
  - intros fuel attempts n s final_attempts r. subst r.
    apply recovery_loop_returns.
Qed.

Lemma successful_run_resets_retry_counter_witness :
  final (run flaky (recovery_iteration "performance_monitor" 3 2) 6
           running_launcher) = Returned (Continue 0) /\
  (3 < 4 \/
   is_running
     (state (run flaky (recovery_loop 20 "performance_monitor" 3 0) 0
               running_launcher)) = false).
Proof.
  destruct (successful_run_resets_retry_counter flaky "performance_monitor" 3)
    as (H1 & _ & H3).
  split.
  - apply (H1 2 6%nat running_launcher VNone). reflexivity.
  - apply (H3 20%nat 0 0%nat running_launcher 4). vm_compute. reflexivity.
Defined.

(** ** Shutdown, phase by phase *)

Lemma respects_state_invariant (I : Launcher -> Prop) A env (m : M A) :
  (forall r s, I s -> I (interfere r s)) ->
  respects (fun _ => True) (fun _ => True) (fun f => forall s, I s -> I (f s))
    m ->
  forall n s, I s -> I (state (run env m n s)).
Proof.
  intros Hi.
  induction m as [a|e| | |k IH|g k IH|ev k IH|c k IH]; intros Hm n s Hs;
    cbn in *; auto.
  - destruct Hm. auto.
  - destruct Hm. rewrite emitted_state. auto.
  - destruct Hm. rewrite emitted_state. auto.
Qed.

Lemma stays_stopped_run A env (m : M A) n s :
  stays_stopped m -> is_running s = false ->
  is_running (state (run env m n s)) = false.
Proof.
  intros Hm Hs.
  apply (respects_state_invariant (fun s => is_running s = false)); auto.
  intros r s0 H. now rewrite is_running_interfere, H.
Qed.

Lemma run_announce_shutdown env n s :
  run env announce_shutdown n s =
  if shared_state s then
    let c := LogSystemEvent "system_shutdown_start"
               [("shutdown_reason", VStr "graceful");
                ("uptime", get_uptime s)] "INFO" in
    mkRun (status_of (result (env n c))) (interfere (env n c) s)
      [Called c (result (env n c))] (S n)
  else mkRun (Returned tt) s [] n.
Proof.
  unfold announce_shutdown. cbn. destruct (shared_state s); cbn; [|reflexivity].
  destruct (result (env n _)); reflexivity.
Qed.

Lemma run_for_each_events X env (l : list X) body evs n s :
  (forall x n' s', run env (body x) n' s' = mkRun (Returned tt) s' (evs x) n') ->
  run env (for_each l body) n s = mkRun (Returned tt) s (flat_map evs l) n.
Proof.
  intros H. induction l as [|x l IH]; [reflexivity|].
  cbn [for_each flat_map]. rewrite run_bind, H. unfold and_then. cbn.
  rewrite IH. reflexivity.
Qed.

Lemma run_stop_requests env ags n s :
  run env
    (for_each ags
       (fun kv => log INFO "Stopping {}..." [LV (VStr (fst kv))] ;;
                  emit (CreateTask (CoAgentShutdown (fst kv))))) n s =
  mkRun (Returned tt) s (stop_requests ags) n.
Proof. apply run_for_each_events. reflexivity. Qed.

Lemma run_cancellations env tasks n s :
  run env
    (for_each tasks
       (fun kv =>
          when (negb (snd kv))
            (log INFO "Cancelling task for {}" [LV (VStr (fst kv))] ;;
             emit (CancelAgentTask (fst kv))))) n s =
  mkRun (Returned tt) s (cancellations tasks) n.
Proof. apply run_for_each_events. intros [k []] n' s'; reflexivity. Qed.

(** [stop_agents] makes one call, the wait for all the agents together with
    the configured timeout, and goes on after a timeout as after a return. *)
Lemma run_stop_agents env n s :
  let c := stop_wait_call s in
  let o := result (env n c) in
  run env stop_agents n s =
  mkRun (wait_status o) (interfere (env n c) s)
    (Log INFO "Stopping agents..." [] :: stop_requests (agents s) ++
     Called c o :: after_wait o (agent_tasks s))
    (S n).
Proof.
  cbv zeta. unfold stop_agents. cbn.
  rewrite run_bind.
  rewrite (run_for_each_events _ env _ _
             (fun kv => [Log INFO "Stopping {}..." [LV (VStr (fst kv))];
                         CreateTask (CoAgentShutdown (fst kv))]))
    by reflexivity.
  unfold and_then. cbn. unfold stop_wait_call, emitted.
  assert (C : forall n' s',
             run env
               (for_each (agent_tasks s')
                  (fun kv =>
                     when (negb (snd kv))
                       (Emit (Log INFO "Cancelling task for {}"
                                [LV (VStr (fst kv))])
                          (emit (CancelAgentTask (fst kv)))))) n' s' =
             mkRun (Returned tt) s' (cancellations (agent_tasks s')) n').
  { intros n' s'. apply run_for_each_events.
    intros [k []] n'' s''; reflexivity. }
  destruct (env n _) as [[v|e|] b]; cbn.
  - rewrite C; cbn. autorewrite with launcher. reflexivity.
  - destruct (is_timeout e); cbn; [|reflexivity].
    rewrite C; cbn. autorewrite with launcher. reflexivity.
  - reflexivity.
Qed.

Ltac flag :=
  match goal with
  | |- context [when (agent_coordinator ?x) _] =>
      destruct (agent_coordinator x) eqn:?
  | |- context [when (shared_state ?x) _] =>
      destruct (shared_state x) eqn:?
  | |- context [when (postgresql_adapter ?x) _] =>
      destruct (postgresql_adapter x) eqn:?
  end.

Ltac raised_in_trace :=
  let H := fresh "H" in
  intros ? ? H; scan H; inversion H; subst; reflexivity.

(** What [close_components] does in any environment. *)
Lemma close_components_outcome env n s :
  let r := run env close_components n s in
  (final r = Returned tt ->
   count is_event_set (trace r) = 1%nat /\
   shutdown_event (state r) = true /\
   count is_complete_event (trace r) = (if shared_state s then 1 else 0)%nat) /\
  (final r <> Returned tt ->
   count is_event_set (trace r) = 0%nat /\
   shutdown_event (state r) = shutdown_event s) /\
  (forall c e, In (Called c (Raises e)) (trace r) -> final r = Raised e).
Proof.
  symbolic. unfold close_components. cbn.
  repeat (cbn; autorewrite with launcher; first [flag | answer env]).
  all: conclude.
  all: try match goal with
           | H : shared_state _ = _ |- _ => rewrite H
           end.
  all: split;
    [ let F := fresh "F" in
      intros F; first [discriminate F | repeat split; reflexivity]
    | split;
      [ let F := fresh "F" in
        intros F;
        first [ exfalso; apply F; reflexivity
              | split; [reflexivity | autorewrite with launcher; reflexivity] ]
      | raised_in_trace ] ].
Qed.

Lemma stays_stopped_shutdown : stays_stopped shutdown.
Proof. unfold_methods. respectful. Qed.

Ltac use_flags :=
  repeat match goal with
         | H : agent_coordinator _ = _ |- _ => rewrite H
         | H : shared_state _ = _ |- _ => rewrite H
         | H : postgresql_adapter _ = _ |- _ => rewrite H
         end.

(** With every collaborator answering, [close_components] makes all its
    calls and signals completion. *)
Lemma close_components_benign env n s :
  benign env ->
  let r := run env close_components n s in
  final r = Returned tt /\
  (agent_coordinator s = true ->
   exists o, In (Called CoordinatorShutdown o) (trace r)) /\
  (shared_state s = true ->
   exists o, In (Called SharedStateClose o) (trace r)) /\
  (postgresql_adapter s = true ->
   exists o, In (Called AdapterClose o) (trace r)) /\
  In EventSet (trace r).
Proof.
  intros B. symbolic. unfold close_components. cbn.
  repeat (cbn; autorewrite with launcher; first [flag | told env B]).
  all: conclude.
  all: use_flags.
  all: split; [reflexivity|].
  all: split; [first [intros _; eexists; in_trace | intros [=]]|].
  all: split; [first [intros _; eexists; in_trace | intros [=]]|].
  all: split; [first [intros _; eexists; in_trace | intros [=]]|].
  all: in_trace.
Qed.

Lemma stop_requests_no_call c o ags : ~ In (Called c o) (stop_requests ags).
Proof.
  induction ags as [|kv ags IH]; cbn; [intros []|].
  intros H. apply in_inv in H. destruct H as [H|H]; [discriminate H|].
  apply in_inv in H. destruct H as [H|H]; [discriminate H|]. auto.
Qed.

Lemma cancellations_no_call c o tasks : ~ In (Called c o) (cancellations tasks).
Proof.
  induction tasks as [|[k d] tasks IH]; cbn; [intros []|].
  destruct d; cbn; [exact IH|].
  intros H. apply in_inv in H. destruct H as [H|H]; [discriminate H|].
  apply in_inv in H. destruct H as [H|H]; [discriminate H|]. auto.
Qed.

Lemma after_wait_no_call c o o' tasks :
  ~ In (Called c o) (after_wait o' tasks).
Proof.
  destruct o' as [v|e|]; cbn; [| |intros []].
  - intros H. apply in_inv in H. destruct H as [H|H]; [discriminate H|].
    now apply cancellations_no_call in H.
  - destruct (is_timeout e); [|intros []].
    intros H. apply in_inv in H. destruct H as [H|H]; [discriminate H|].
    now apply cancellations_no_call in H.
Qed.

(** The only call of [stop_agents] is the wait. *)
Lemma stop_agents_call env n s c o :
  In (Called c o) (trace (run env stop_agents n s)) ->
  c = stop_wait_call s /\ o = result (env n (stop_wait_call s)).
Proof.
  pose proof (run_stop_agents env n s) as E. cbv zeta in E. rewrite E. cbn.
  intros H. apply in_inv in H. destruct H as [H|H]; [discriminate H|].
  apply in_app_or in H. destruct H as [H|H].
  - now apply stop_requests_no_call in H.
  - apply in_inv in H. destruct H as [H|H].
    + injection H as <- <-. split; reflexivity.
    + now apply after_wait_no_call in H.
Qed.

(** Stopping the agents and closing the components, in any environment:
    the completion signal is set only on the path that returns, and whatever
    a call raises leaves the sequence, except a timeout of the wait. *)
Lemma stop_and_close_outcome env n s :
  let r := run env (stop_agents ;; close_components) n s in
  (final r = Returned tt ->
   count is_event_set (trace r) = 1%nat /\
   shutdown_event (state r) = true /\
   count is_complete_event (trace r) = (if shared_state s then 1 else 0)%nat) /\
  (final r <> Returned tt ->
   count is_event_set (trace r) = 0%nat /\
   shutdown_event (state r) = shutdown_event s) /\
  (forall c e, In (Called c (Raises e)) (trace r) ->
               is_wait c && is_timeout e = false ->
               final r = Raised e).
Proof.
  cbv zeta. rewrite run_bind.
  assert (Z1 : count is_event_set (trace (run env stop_agents n s)) = 0%nat)
    by (apply never_emits_count; unfold_methods; respectful).
  assert (Z2 : count is_complete_event (trace (run env stop_agents n s))
               = 0%nat)
    by (apply never_emits_count; unfold_methods; respectful).
  pose proof (stop_agents_call env n s) as Hcall.
  pose proof (run_stop_agents env n s) as E. cbv zeta in E.
  destruct (run env stop_agents n s) as [f2 s2 t2 c2].
  injection E as -> -> _ ->. cbn in Z1, Z2, Hcall.
  destruct (close_components_outcome env (S n)
              (interfere (env n (stop_wait_call s)) s)) as (K1 & K2 & K3).
  autorewrite with launcher in K1, K2.
  assert (W : forall c e,
             In (Called c (Raises e)) t2 ->
             is_wait c && is_timeout e = false ->
             wait_status (result (env n (stop_wait_call s))) = Raised e).
  { intros c e H T. destruct (Hcall c (Raises e) H) as [-> <-].
    cbn in T. cbn. now rewrite T. }
  unfold and_then.
  destruct (wait_status (result (env n (stop_wait_call s)))) as [[]|e0| |] eqn:WS;
    cbn.
  - rewrite !count_app, Z1, Z2. cbn. split; [exact K1|]. split; [exact K2|].
    intros c e H T. apply in_app_or in H. destruct H as [H|H].
    + specialize (W c e H T). discriminate W.
    + exact (K3 c e H).
  - split; [intros [=]|]. split.
    + intros _. split; [exact Z1|]. now autorewrite with launcher.
    + intros c e H T. exact (W c e H T).
  - split; [intros [=]|]. split.
    + intros _. split; [exact Z1|]. now autorewrite with launcher.
    + intros c e H T. specialize (W c e H T). discriminate W.
  - split; [intros [=]|]. split.
    + intros _. split; [exact Z1|]. now autorewrite with launcher.
    + intros c e H T. specialize (W c e H T). discriminate W.
Qed.

(** The three phases of [shutdown] in sequence, in any environment. *)
Lemma shutdown_phases_outcome env n s :
  let r := run env (announce_shutdown ;; stop_agents ;; close_components) n s
  in
  (final r = Returned tt ->
   count is_event_set (trace r) = 1%nat /\
   shutdown_event (state r) = true /\
   count is_complete_event (trace r) = (if shared_state s then 1 else 0)%nat) /\
  (final r <> Returned tt ->
   count is_event_set (trace r) = 0%nat /\
   shutdown_event (state r) = shutdown_event s) /\
  (forall c e, In (Called c (Raises e)) (trace r) ->
               is_wait c && is_timeout e = false ->
               final r = Raised e).
Proof.
  cbv zeta. rewrite run_bind, run_announce_shutdown.
  destruct (shared_state s) eqn:Hss; cbv zeta.
  - set (c1 := LogSystemEvent "system_shutdown_start" _ _).
    destruct (stop_and_close_outcome env (S n) (interfere (env n c1) s))
      as (K1 & K2 & K3).
    autorewrite with launcher in K1, K2. rewrite Hss in K1.
    unfold and_then.
    destruct (result (env n c1)) as [v|e0|] eqn:R1; cbn.
    + rewrite !count_cons. cbn. split; [exact K1|]. split; [exact K2|].
      intros c e H T. apply in_inv in H. destruct H as [H|H]; [discriminate H|].
      exact (K3 c e H T).
    + split; [intros [=]|]. split.
      * intros _. split; [reflexivity|]. now autorewrite with launcher.
      * intros c e H T. apply in_inv in H.
        destruct H as [H|H]; [|now inversion H]. now injection H as _ ->.
    + split; [intros [=]|]. split.
      * intros _. split; [reflexivity|]. now autorewrite with launcher.
      * intros c e H T. apply in_inv in H.
        destruct H as [H|H]; [discriminate H|now inversion H].
  - destruct (stop_and_close_outcome env n s) as (K1 & K2 & K3).
    rewrite Hss in K1.
    unfold and_then. cbn.
    destruct (run env (stop_agents ;; close_components) n s)
      as [f st t cl]. cbn in *.
    split; [exact K1|]. split; [exact K2|exact K3].
Qed.

(** [shutdown] invoked while the system is running, in any environment. *)
Lemma shutdown_outcome env n s :
  is_running s = true ->
  let r := run env shutdown n s in
  is_running (state r) = false /\
  (final r = Returned tt ->
   count is_event_set (trace r) = 1%nat /\
   shutdown_event (state r) = true /\
   count is_complete_event (trace r) = (if shared_state s then 1 else 0)%nat) /\
  (final r <> Returned tt ->
   count is_event_set (trace r) = 0%nat /\
   shutdown_event (state r) = shutdown_event s) /\
  (forall c e, In (Called c (Raises e)) (trace r) ->
               is_wait c && is_timeout e = false ->
               final r = Raised e).
Proof.
  intros Hs. cbv zeta. unfold shutdown. cbn. rewrite Hs. cbn.
  rewrite emitted_state, emitted_final, emitted_trace. split.
  - apply stays_stopped_run; [unfold_methods; respectful | reflexivity].
  - rewrite run_try_except.
    destruct (shutdown_phases_outcome env n (set_is_running false s))
      as (K1 & K2 & K3). cbn in K1, K2.
    destruct (run env (announce_shutdown ;; stop_agents ;; close_components)
                n (set_is_running false s)) as [f st t cl].
    cbn in K1, K2, K3. unfold or_else. cbn.
    destruct f as [[]|e0| |]; cbn.
    + rewrite !count_cons. cbn. split; [exact K1|]. split; [intros H; now elim H|].
      intros c e H T. apply in_inv in H. destruct H as [H|H]; [discriminate H|].
      exact (K3 c e H T).
    + destruct K2 as [K2a K2b]; [discriminate|].
      destruct (is_exception e0); cbn.
      * rewrite !count_cons, !count_app, K2a. cbn.
        split; [intros [=]|]. split; [auto|].
        intros c e H T. apply in_inv in H.
        destruct H as [H|H]; [discriminate H|].
        apply in_app_or in H. destruct H as [H|H]; [exact (K3 c e H T)|].
        apply in_inv in H. destruct H as [H|H]; [discriminate H|now inversion H].
      * rewrite !count_cons, K2a. cbn.
        split; [intros [=]|]. split; [auto|].
        intros c e H T. apply in_inv in H.
        destruct H as [H|H]; [discriminate H|]. exact (K3 c e H T).
    + destruct K2 as [K2a K2b]; [discriminate|].
      rewrite !count_cons, K2a. cbn.
      split; [intros [=]|]. split; [auto|].
      intros c e H T. apply in_inv in H.
      destruct H as [H|H]; [discriminate H|]. exact (K3 c e H T).
    + destruct K2 as [K2a K2b]; [discriminate|].
      rewrite !count_cons, K2a. cbn.
      split; [intros [=]|]. split; [auto|].
      intros c e H T. apply in_inv in H.
      destruct H as [H|H]; [discriminate H|]. exact (K3 c e H T).
Qed.

(** ** One segment at a time *)

Lemma run_advance A env (m : M A) n s :
  let g := advance env m n s in
  let r := run env (rest_of g) (calls_after g) (state_after g) in
  run env m n s =
  mkRun (final r) (state r) (emitted_in g ++ trace r) (calls r).
Proof.
  revert n s.
  induction m as [a|e| | |k IH|g k IH|ev k IH|c k IH]; intros n s; cbn;
    try reflexivity; auto.
  rewrite IH. reflexivity.
Qed.

Lemma advance_respects Pe Pc Pu A env (m : M A) n s :
  respects Pe Pc Pu m -> respects Pe Pc Pu (rest_of (advance env m n s)).
Proof.
  revert n s.
  induction m as [a|e| | |k IH|g k IH|ev k IH|c k IH]; intros n s Hm; cbn in *;
    auto.
  - destruct Hm. auto.
  - destruct Hm. auto.
  - destruct Hm. auto.
Qed.

Lemma advance_stays_stopped A env (m : M A) n s :
  stays_stopped m -> is_running s = false ->
  is_running (state_after (advance env m n s)) = false.
Proof.
  revert n s.
  induction m as [a|e| | |k IH|g k IH|ev k IH|c k IH]; intros n s Hm Hs;
    cbn in *; auto.
  - apply IH; [apply Hm | exact Hs].
  - destruct Hm as [Hg Hm]. apply IH; auto.
  - destruct Hm. apply IH; auto.
  - rewrite is_running_interfere, Hs. reflexivity.
Qed.

Lemma advance_finished A env (m : M A) n s :
  finished m = true -> advance env m n s = mkSegment m s [] n.
Proof. destruct m; try discriminate; reflexivity. Qed.

Lemma advance_shutdown_stopped env n s :
  is_running s = false -> advance env shutdown n s = mkSegment (Ret tt) s [] n.
Proof. intros H. unfold shutdown. cbn. rewrite H. reflexivity. Qed.

(** The first segment of [shutdown] clears [is_running]. *)
Lemma advance_shutdown_running env n s :
  is_running s = true ->
  is_running (state_after (advance env shutdown n s)) = false /\
  stays_stopped (rest_of (advance env shutdown n s)).
Proof.
  intros Hs. split.
  - unfold shutdown. cbn. rewrite Hs. cbn.
    apply advance_stays_stopped; [unfold_methods; respectful | reflexivity].
  - apply advance_respects, stays_stopped_shutdown.
Qed.

(** C10: [shutdown] clears [is_running] in its first segment, before any
    call completes; whatever a later call raises (other than the timeout of
    the wait for the agents) propagates out of [shutdown]; and when
    [shutdown] raises, the completion signal has not been set, [is_running]
    is false, and every later invocation of [shutdown] returns at once
    without any effect: the signal is never set. *)
Theorem shutdown_error_leaves_signal_unset env n s :
  is_running s = true ->
  shutdown_event s = false ->
  let r := run env shutdown n s in
  is_running (state_after (advance env shutdown n s)) = false /\
  (forall c e, In (Called c (Raises e)) (trace r) ->
               is_wait c && is_timeout e = false ->
               final r = Raised e) /\
  (forall e, final r = Raised e ->
             is_running (state r) = false /\
             shutdown_event (state r) = false /\
             count is_event_set (trace r) = 0%nat /\
             forall env' n',
               run env' shutdown n' (state r) =
               mkRun (Returned tt) (state r) [] n').
Proof.
  intros Hs He. cbv zeta.
  destruct (shutdown_outcome env n s Hs) as (R & _ & K2 & K3).
  split; [apply (advance_shutdown_running env n s Hs)|].
  split; [exact K3|].
  intros e F. destruct K2 as [K2a K2b]; [rewrite F; discriminate|].
  split; [exact R|]. split; [now rewrite K2b|]. split; [exact K2a|].
  intros env' n'. now apply shutdown_not_running.
Qed.

Lemma shutdown_error_leaves_signal_unset_witness :
  let r := run coordinator_fails shutdown 0 running_launcher in
  final r = Raised (OtherException "unreachable") /\
  shutdown_event (state r) = false /\
  count is_event_set (trace r) = 0%nat /\
  run all_well shutdown 0 (state r) = mkRun (Returned tt) (state r) [] 0.
Proof.
  destruct (shutdown_error_leaves_signal_unset coordinator_fails 0%nat
              running_launcher eq_refl eq_refl) as (_ & _ & H).
  destruct (H (OtherException "unreachable") eq_refl) as (_ & E & C & N).
  split; [reflexivity|]. split; [exact E|]. split; [exact C|]. apply N.
Defined.

(** ** Shutdown when every collaborator answers *)

Lemma benign_wait_status env n c : benign env -> is_wait c = true ->
  wait_status (result (env n c)) = Returned tt.
Proof.
  intros B W. pose proof (B n c) as P.
  destruct (result (env n c)) as [v|e|]; cbn; [reflexivity| |contradiction].
  destruct c; try discriminate W. now subst e.
Qed.

Lemma stop_wait_call_interfere r s :
  stop_wait_call (interfere r s) = stop_wait_call s.
Proof. unfold stop_wait_call. now autorewrite with launcher. Qed.

Lemma count_stop_requests p ags :
  (forall id, p (Log INFO "Stopping {}..." [LV (VStr id)]) = false) ->
  (forall id, p (CreateTask (CoAgentShutdown id)) = false) ->
  count p (stop_requests ags) = 0%nat.
Proof.
  intros H1 H2. unfold stop_requests.
  induction ags as [|kv l IH]; [reflexivity|].
  cbn. rewrite !count_cons, H1, H2. exact IH.
Qed.

(** The shape of a run of [shutdown] from the running state when every
    collaborator answers: a prefix without any wait, the one wait for the
    agents, what follows the wait, and the closing of the components. *)
Lemma run_shutdown_benign env n s :
  benign env -> is_running s = true ->
  exists pre k s',
    let c := stop_wait_call s in
    let o := result (env k c) in
    let rc := run env close_components (S k) s' in
    run env shutdown n s =
    mkRun (Returned tt) (state rc)
      (pre ++ Called c o :: after_wait o (agent_tasks s) ++ trace rc)
      (calls rc) /\
    final rc = Returned tt /\
    count (is_call is_wait) pre = 0%nat /\
    count is_event_set pre = 0%nat /\
    count is_complete_event pre = 0%nat /\
    agent_coordinator s' = agent_coordinator s /\
    shared_state s' = shared_state s /\
    postgresql_adapter s' = postgresql_adapter s.
Proof.
  intros B Hs.
  assert (T : forall k s0,
            stop_wait_call s0 = stop_wait_call s ->
            agent_tasks s0 = agent_tasks s ->
            agents s0 = agents s ->
            agent_coordinator s0 = agent_coordinator s ->
            shared_state s0 = shared_state s ->
            postgresql_adapter s0 = postgresql_adapter s ->
            exists pre k' s',
              let c := stop_wait_call s in
              let o := result (env k' c) in
              let rc := run env close_components (S k') s' in
              run env (stop_agents ;; close_components) k s0 =
              mkRun (Returned tt) (state rc)
                (pre ++ Called c o :: after_wait o (agent_tasks s) ++ trace rc)
                (calls rc) /\
              final rc = Returned tt /\
              count (is_call is_wait) pre = 0%nat /\
              count is_event_set pre = 0%nat /\
              count is_complete_event pre = 0%nat /\
              agent_coordinator s' = agent_coordinator s /\
              shared_state s' = shared_state s /\
              postgresql_adapter s' = postgresql_adapter s).
  { intros k s0 E1 E2 E3 E4 E5 E6.
    exists (Log INFO "Stopping agents..." [] :: stop_requests (agents s)),
      k, (interfere (env k (stop_wait_call s)) s0).
    cbv zeta.
    destruct (close_components_benign env (S k)
                (interfere (env k (stop_wait_call s)) s0) B) as (F & _).
    rewrite run_bind. pose proof (run_stop_agents env k s0) as E.
    cbv zeta in E. rewrite E1, E2, E3 in E. rewrite E.
    unfold and_then. cbn [final].
    rewrite (benign_wait_status env k (stop_wait_call s) B eq_refl).
    unfold then_run. cbn [trace state calls final].
    rewrite F. autorewrite with launcher. split.
    - f_equal. cbn. f_equal. rewrite <- app_assoc. cbn. reflexivity.
    - split; [reflexivity|]. repeat split; try assumption.
      + rewrite count_cons. cbn. now apply count_stop_requests.
      + rewrite count_cons. cbn. now apply count_stop_requests.
      + rewrite count_cons. cbn. now apply count_stop_requests. }
  unfold shutdown. cbn. rewrite Hs. cbn.
  rewrite run_try_except, run_bind, run_announce_shutdown.
  cbn [shared_state set_is_running].
  destruct (shared_state s) eqn:Hss; cbv zeta.
  - set (c1 := LogSystemEvent "system_shutdown_start" _ _).
    pose proof (B n c1) as P1.
    assert (T1 := T (S n) (interfere (env n c1) (set_is_running false s))).
    rewrite stop_wait_call_interfere in T1.
    autorewrite with launcher in T1.
    destruct (T1 eq_refl eq_refl eq_refl eq_refl Hss eq_refl)
      as (pre & k' & s' & E & F & Z1 & Z2 & Z3 & G1 & G2 & G3).
    exists (Log INFO "Initiating graceful system shutdown..." [] ::
            Called c1 (result (env n c1)) :: pre), k', s'.
    cbv zeta in E.
    destruct (result (env n c1)) as [v|e|] eqn:R1; cbn in P1;
      try contradiction.
    unfold and_then. cbn [final status_of calls state trace].
    rewrite E. unfold then_run, or_else, emitted. cbn.
    split; [reflexivity|]. split; [exact F|].
    rewrite !count_cons. cbn.
    repeat split; assumption.
  - destruct (T n (set_is_running false s)
                eq_refl eq_refl eq_refl eq_refl Hss eq_refl)
      as (pre & k' & s' & E & F & Z1 & Z2 & Z3 & G1 & G2 & G3).
    exists (Log INFO "Initiating graceful system shutdown..." [] :: pre),
      k', s'.
    cbv zeta in E.
    unfold and_then. cbn [final calls state trace].
    rewrite E. unfold then_run, or_else, emitted. cbn.
    split; [reflexivity|]. split; [exact F|].
    rewrite !count_cons. cbn.
    repeat split; assumption.
Qed.

Lemma shutdown_benign_returns env n s :
  benign env -> final (run env shutdown n s) = Returned tt.
Proof.
  intros B. destruct (is_running s) eqn:Hs.
  - destruct (run_shutdown_benign env n s B Hs) as (pre & k & s' & E & _).
    cbv zeta in E. rewrite E. reflexivity.
  - now rewrite shutdown_not_running.
Qed.

(** ** Two invocations of [shutdown] *)

Lemma step_own env p w :
  let g := advance env (task p w) (issued p) (shared p) in
  let p' := step env w p in
  shared p' = state_after g /\
  history p' = history p ++ emitted_in g /\
  issued p' = calls_after g /\
  task p' w = rest_of g /\
  task p' (negb w) = task p (negb w).
Proof. destruct w; cbn; repeat split; reflexivity. Qed.

(** A task that is [shutdown] not yet begun, or that is over, does nothing
    on its turn once [is_running] is false. *)
Lemma step_other_idle env p w :
  is_running (shared p) = false ->
  task p (negb w) = shutdown \/ task p (negb w) = Ret tt ->
  let p' := step env (negb w) p in
  shared p' = shared p /\
  history p' = history p /\
  issued p' = issued p /\
  task p' w = task p w /\
  task p' (negb w) = Ret tt.
Proof.
  intros Hs Ho.
  assert (G : advance env (task p (negb w)) (issued p) (shared p) =
              mkSegment (Ret tt) (shared p) [] (issued p)).
  { destruct Ho as [-> | ->]; [now apply advance_shutdown_stopped|reflexivity]. }
  unfold step. rewrite G. cbn. rewrite app_nil_r.
  destruct w; cbn; repeat split; reflexivity.
Qed.

(** Once [is_running] is false, what the task [w] does is not affected by
    the turns given to the other task: the history of the pool and the run
    of [w] to its end add up to the same trace, whatever the schedule. *)
Lemma interleave_bystander env schedule : forall p w,
  is_running (shared p) = false ->
  stays_stopped (task p w) ->
  task p (negb w) = shutdown \/ task p (negb w) = Ret tt ->
  let q := interleave env schedule p in
  let r := run env (task p w) (issued p) (shared p) in
  let r' := run env (task q w) (issued q) (shared q) in
  history q ++ trace r' = history p ++ trace r /\
  final r' = final r /\ state r' = state r.
Proof.
  induction schedule as [|b rest IH]; intros p w Hs Hw Ho; cbv zeta;
    cbn [interleave]; [auto|].
  assert (Hb : b = w \/ b = negb w) by (destruct b, w; auto).
  destruct Hb as [-> | ->].
  - destruct (step_own env p w) as (A1 & A2 & A3 & A4 & A5).
    pose proof (run_advance unit env (task p w) (issued p) (shared p)) as RA.
    cbv zeta in RA.
    assert (H1 : is_running (shared (step env w p)) = false)
      by (rewrite A1; now apply advance_stays_stopped).
    assert (H2 : stays_stopped (task (step env w p) w))
      by (rewrite A4; now apply advance_respects).
    assert (H3 : task (step env w p) (negb w) = shutdown \/
                 task (step env w p) (negb w) = Ret tt)
      by (now rewrite A5).
    destruct (IH (step env w p) w H1 H2 H3) as (I1 & I2 & I3).
    rewrite I1, I2, I3, A1, A2, A3, A4, RA. cbn.
    rewrite app_assoc. auto.
  - destruct (step_other_idle env p w Hs Ho) as (A1 & A2 & A3 & A4 & A5).
    assert (H1 : is_running (shared (step env (negb w) p)) = false)
      by (now rewrite A1).
    assert (H2 : stays_stopped (task (step env (negb w) p) w))
      by (now rewrite A4).
    assert (H3 : task (step env (negb w) p) (negb w) = shutdown \/
                 task (step env (negb w) p) (negb w) = Ret tt)
      by (right; exact A5).
    destruct (IH (step env (negb w) p) w H1 H2 H3) as (I1 & I2 & I3).
    rewrite I1, I2, I3, A1, A2, A3, A4. auto.
Qed.

(** The other task stays what it was, or is over. *)
Lemma interleave_idle env schedule : forall p w,
  is_running (shared p) = false ->
  task p (negb w) = shutdown \/ task p (negb w) = Ret tt ->
  stays_stopped (task p w) ->
  let q := interleave env schedule p in
  task q (negb w) = shutdown \/ task q (negb w) = Ret tt.
Proof.
  induction schedule as [|b rest IH]; intros p w Hs Ho Hw; cbv zeta;
    cbn [interleave]; [auto|].
  assert (Hb : b = w \/ b = negb w) by (destruct b, w; auto).
  destruct Hb as [-> | ->].
  - destruct (step_own env p w) as (A1 & A2 & A3 & A4 & A5).
    apply IH.
    + rewrite A1. now apply advance_stays_stopped.
    + now rewrite A5.
    + rewrite A4. now apply advance_respects.
  - destruct (step_other_idle env p w Hs Ho) as (A1 & A2 & A3 & A4 & A5).
    apply IH.
    + now rewrite A1.
    + right. exact A5.
    + now rewrite A4.
Qed.

Lemma run_finished env (m : M unit) n s :
  finished m = true ->
  trace (run env m n s) = [] /\ state (run env m n s) = s /\
  (final (run env m n s) = Returned tt -> m = Ret tt).
Proof.
  destruct m as [[]|e| | |k|g k|ev k|c k]; try discriminate; intros _; cbn;
    repeat split; auto; discriminate.
Qed.

(** C4: a second invocation of [shutdown] once [is_running] is false (the
    system is shutting down or stopped) returns at once without any effect;
    with every collaborator answering, two invocations in sequence, and two
    concurrent invocations under every schedule that lets both finish, leave
    exactly one 'system_shutdown_complete' event (when there is a shared
    state to log it) and set the completion signal exactly once. *)
Theorem shutdown_twice_completes_once env s :
  benign env ->
  is_running s = true ->
  (forall env' n s0, is_running s0 = false ->
     run env' shutdown n s0 = mkRun (Returned tt) s0 [] n) /\
  (let r := run env (shutdown ;; shutdown) 0 s in
   final r = Returned tt /\
   count is_complete_event (trace r) = (if shared_state s then 1 else 0)%nat /\
   count is_event_set (trace r) = 1%nat) /\
  (forall schedule,
     let p := interleave env schedule (two_shutdowns s) in
     finished (task p true) = true ->
     finished (task p false) = true ->
     task p true = Ret tt /\ task p false = Ret tt /\
     count is_complete_event (history p) =
       (if shared_state s then 1 else 0)%nat /\
     count is_event_set (history p) = 1%nat /\
     shutdown_event (shared p) = true).
Proof.
  intros B Hs.
  destruct (shutdown_outcome env 0%nat s Hs) as (R & K1 & _).
  pose proof (shutdown_benign_returns env 0%nat s B) as F.
  destruct (K1 F) as (E1 & E2 & E3).
  split; [intros env' n s0 H; now apply shutdown_not_running|]. split.
  - cbv zeta. rewrite run_bind. unfold and_then. rewrite F.
    rewrite (shutdown_not_running env _ (state (run env shutdown 0 s)) R).
    unfold then_run. cbn.
    rewrite app_nil_r. auto.
  - intros [|b rest]; cbv zeta; cbn [interleave].
    + unfold shutdown. cbn. discriminate.
    + intros Ft Ff.
      destruct (step_own env (two_shutdowns s) b) as (A1 & A2 & A3 & A4 & A5).
      change (task (two_shutdowns s) b) with shutdown in *.
      change (task (two_shutdowns s) (negb b)) with shutdown in *.
      change (issued (two_shutdowns s)) with 0%nat in *.
      change (shared (two_shutdowns s)) with s in *.
      change (history (two_shutdowns s)) with (@nil event) in *.
      destruct (advance_shutdown_running env 0%nat s Hs) as (G1 & G2).
      pose proof (run_advance unit env shutdown 0%nat s) as RA.
      cbv zeta in RA.
      set (p1 := step env b (two_shutdowns s)) in *.
      assert (H1 : is_running (shared p1) = false) by (now rewrite A1).
      assert (H2 : stays_stopped (task p1 b)) by (now rewrite A4).
      assert (H3 : task p1 (negb b) = shutdown \/ task p1 (negb b) = Ret tt)
        by (left; exact A5).
      destruct (interleave_bystander env rest p1 b H1 H2 H3)
        as (I1 & I2 & I3).
      rewrite A1, A2, A3, A4 in I1. rewrite A1, A3, A4 in I2, I3.
      cbn [app] in I1.
      set (q := interleave env rest p1) in *.
      assert (Fb : finished (task q b) = true) by (destruct b; assumption).
      destruct (run_finished env (task q b) (issued q) (shared q) Fb)
        as (T1 & T2 & T3).
      rewrite T1, app_nil_r in I1. rewrite T2 in I3.
      rewrite RA in F, E1, E2, E3. cbn in F, E1, E2, E3.
      rewrite <- I1 in E1, E3. rewrite <- I3 in E2. rewrite <- I2 in F.
      specialize (T3 F).
      assert (Fo : task q (negb b) = Ret tt).
      { pose proof (interleave_idle env rest p1 b H1 H3 H2) as O.
        change (task q (negb b) = shutdown \/ task q (negb b) = Ret tt) in O.
        destruct O as [O|O]; [|exact O].
        assert (Fn : finished (task q (negb b)) = true)
          by (destruct b; assumption).
        rewrite O in Fn. unfold shutdown in Fn. discriminate Fn. }
      repeat split; try assumption; destruct b; assumption.
Qed.

Lemma shutdown_twice_completes_once_witness :
  let p := interleave obliging
             [true; false; true; true; false; true; true; true; true; true]
             (two_shutdowns running_launcher) in
  task p true = Ret tt /\ task p false = Ret tt /\
  count is_complete_event (history p) = 1%nat /\
  count is_event_set (history p) = 1%nat /\
  shutdown_event (shared p) = true.
Proof.
  assert (B : benign obliging) by (intros n c; exact I).
  destruct (shutdown_twice_completes_once obliging running_launcher B eq_refl)
    as (_ & _ & H).
  exact (H [true; false; true; true; false; true; true; true; true; true]
           eq_refl eq_refl).
Defined.

(** ** The wait for the agents to stop *)

Lemma count_zero p l :
  (forall x, In x l -> p x = false) -> count p l = 0%nat.
Proof.
  intros H. induction l as [|x l IH]; [reflexivity|].
  rewrite count_cons, (H x (or_introl eq_refl)), IH; [reflexivity|].
  intros y Hy. apply H. now right.
Qed.

Lemma after_wait_no_wait o tasks :
  count (is_call is_wait) (after_wait o tasks) = 0%nat.
Proof.
  apply count_zero. intros [ | c o' | | | | ] H; try reflexivity.
  now apply after_wait_no_call in H.
Qed.

(** ** Shutdown when every call but the wait returns *)

Ltac quiet env K :=
  match goal with
  | |- context [env ?n ?c] =>
      let P := fresh "P" in
      let o := fresh "o" in
      let b := fresh "b" in
      let E := fresh "E" in
      destruct (K n c eq_refl) as [?v P];
      destruct (env n c) as [o b] eqn:E; cbn in P; subst o; cbn
  end.

Lemma close_components_calm env n s :
  calm env ->
  let r := run env close_components n s in
  final r = Returned tt /\
  shutdown_event (state r) = true /\
  (agent_coordinator s = true ->
   exists o, In (Called CoordinatorShutdown o) (trace r)) /\
  (shared_state s = true ->
   exists o, In (Called SharedStateClose o) (trace r)) /\
  (postgresql_adapter s = true ->
   exists o, In (Called AdapterClose o) (trace r)) /\
  In EventSet (trace r).
Proof.
  intros K. symbolic. unfold close_components. cbn.
  repeat (cbn; autorewrite with launcher; first [flag | quiet env K]).
  all: conclude.
  all: use_flags.
  all: split; [reflexivity|].
  all: split; [reflexivity|].
  all: split; [first [intros _; eexists; in_trace | intros [=]]|].
  all: split; [first [intros _; eexists; in_trace | intros [=]]|].
  all: split; [first [intros _; eexists; in_trace | intros [=]]|].
  all: in_trace.
Qed.

(** The shape of a run of [shutdown] from the running state when every
    call but the wait returns: a prefix without any wait, the one wait for
    the agents, and, if the wait ends by returning or by timing out, what
    follows the wait and the closing of the components. *)
Lemma run_shutdown_calm env n s :
  calm env -> is_running s = true ->
  exists pre k s',
    let c := stop_wait_call s in
    let o := result (env k c) in
    let rc := run env close_components (S k) s' in
    let went_on :=
      run env shutdown n s =
      mkRun (Returned tt) (state rc)
        (pre ++ Called c o :: after_wait o (agent_tasks s) ++ trace rc)
        (calls rc) in
    count (is_call is_wait) pre = 0%nat /\
    count is_event_set pre = 0%nat /\
    agent_coordinator s' = agent_coordinator s /\
    shared_state s' = shared_state s /\
    postgresql_adapter s' = postgresql_adapter s /\
    (forall v, o = Returns v -> went_on) /\
    (o = Raises TimeoutError -> went_on) /\
    (o = Pending ->
     run env shutdown n s = mkRun Suspended s' (pre ++ [Called c o]) (S k)).
Proof.
  intros K Hs.
  assert (T : forall k s0,
            stop_wait_call s0 = stop_wait_call s ->
            agent_tasks s0 = agent_tasks s ->
            agents s0 = agents s ->
            agent_coordinator s0 = agent_coordinator s ->
            shared_state s0 = shared_state s ->
            postgresql_adapter s0 = postgresql_adapter s ->
            exists pre s',
              let c := stop_wait_call s in
              let o := result (env k c) in
              let rc := run env close_components (S k) s' in
              let went_on :=
                run env (stop_agents ;; close_components) k s0 =
                mkRun (Returned tt) (state rc)
                  (pre ++ Called c o :: after_wait o (agent_tasks s) ++
                   trace rc) (calls rc) in
              count (is_call is_wait) pre = 0%nat /\
              count is_event_set pre = 0%nat /\
              agent_coordinator s' = agent_coordinator s /\
              shared_state s' = shared_state s /\
              postgresql_adapter s' = postgresql_adapter s /\
              (forall v, o = Returns v -> went_on) /\
              (o = Raises TimeoutError -> went_on) /\
              (o = Pending ->
               run env (stop_agents ;; close_components) k s0 =
               mkRun Suspended s' (pre ++ [Called c o]) (S k))).
  { intros k s0 E1 E2 E3 E4 E5 E6.
    exists (Log INFO "Stopping agents..." [] :: stop_requests (agents s)),
      (interfere (env k (stop_wait_call s)) s0).
    cbv zeta.
    destruct (close_components_calm env (S k)
                (interfere (env k (stop_wait_call s)) s0) K) as (F & _).
    pose proof (run_stop_agents env k s0) as E.
    cbv zeta in E. rewrite E1, E2, E3 in E.
    autorewrite with launcher.
    split; [rewrite count_cons; cbn; now apply count_stop_requests|].
    split; [rewrite count_cons; cbn; now apply count_stop_requests|].
    split; [exact E4|]. split; [exact E5|]. split; [exact E6|].
    split; [|split].
    - intros v Ho. rewrite run_bind, E. unfold and_then. cbn [final].
      rewrite Ho. cbn [wait_status]. unfold then_run.
      cbn [trace state calls final]. rewrite F. f_equal.
      cbn. f_equal. rewrite <- app_assoc. reflexivity.
    - intros Ho. rewrite run_bind, E. unfold and_then. cbn [final].
      rewrite Ho. cbn [wait_status is_timeout]. unfold then_run.
      cbn [trace state calls final]. rewrite F. f_equal.
      cbn. f_equal. rewrite <- app_assoc. reflexivity.
    - intros Ho. rewrite run_bind, E. unfold and_then. cbn [final].
      rewrite Ho. cbn [wait_status]. unfold ended.
      cbn [trace state calls final after_wait].
      f_equal; cbn; rewrite <- ?app_assoc; reflexivity. }
  unfold shutdown. cbn. rewrite Hs. cbn.
  rewrite run_try_except, run_bind, run_announce_shutdown.
  cbn [shared_state set_is_running].
  destruct (shared_state s) eqn:Hss; cbv zeta.
  - set (c1 := LogSystemEvent "system_shutdown_start" _ _).
    destruct (K n c1 eq_refl) as [v1 P1].
    assert (T1 := T (S n) (interfere (env n c1) (set_is_running false s))).
    rewrite stop_wait_call_interfere in T1.
    autorewrite with launcher in T1.
    destruct (T1 eq_refl eq_refl eq_refl eq_refl Hss eq_refl)
      as (pre & s' & Z1 & Z2 & G1 & G2 & G3 & R1 & R2 & R3).
    exists (Log INFO "Initiating graceful system shutdown..." [] ::
            Called c1 (result (env n c1)) :: pre), (S n), s'.
    cbv zeta in R1, R2, R3. rewrite P1 in *.
    unfold and_then. cbn [final status_of calls state trace].
    split; [rewrite !count_cons; exact Z1|].
    split; [rewrite !count_cons; exact Z2|].
    split; [exact G1|]. split; [exact G2|]. split; [exact G3|].
    split; [|split].
    + intros v Ho. rewrite (R1 v Ho). reflexivity.
    + intros Ho. rewrite (R2 Ho). reflexivity.
    + intros Ho. rewrite (R3 Ho). reflexivity.
  - destruct (T n (set_is_running false s)
                eq_refl eq_refl eq_refl eq_refl Hss eq_refl)
      as (pre & s' & Z1 & Z2 & G1 & G2 & G3 & R1 & R2 & R3).
    exists (Log INFO "Initiating graceful system shutdown..." [] :: pre),
      n, s'.
    cbv zeta in R1, R2, R3.
    unfold and_then. cbn [final calls state trace].
    split; [rewrite !count_cons; exact Z1|].
    split; [rewrite !count_cons; exact Z2|].
    split; [exact G1|]. split; [exact G2|]. split; [exact G3|].
    split; [|split].
    + intros v Ho. rewrite (R1 v Ho). reflexivity.
    + intros Ho. rewrite (R2 Ho). reflexivity.
    + intros Ho. rewrite (R3 Ho). reflexivity.
Qed.

(** ** The wait for the agents to stop *)

Lemma calm_timed behaviour base : calm base -> calm (timed behaviour base).
Proof.
  intros K n c W. destruct c; try discriminate W; apply (K n); reflexivity.
Qed.

(** The three ways [wait_for] can go. *)
Lemma wait_for_cases timeout stops :
  (overruns timeout stops = false /\
   exists t, wait_for timeout stops = (Returns VNone, Some t) /\
             t <= Z.max 0 timeout) \/
  (overruns timeout stops = true /\
   exists more, cancel_delay timeout stops = Some more /\
                wait_for timeout stops =
                (Raises TimeoutError, Some (Z.max 0 timeout + more))) \/
  (overruns timeout stops = true /\
   cancel_delay timeout stops = None /\
   wait_for timeout stops = (Pending, None)).
Proof.
  unfold overruns, cancel_delay, wait_for.
  destruct (gather_duration (map completes_after stops)) as [t|].
  - destruct (t <=? Z.max 0 timeout) eqn:L.
    + left. split; [reflexivity|]. exists t. split; [reflexivity|].
      now apply Z.leb_le.
    + right.
      destruct (gather_duration (map (after_cancel (Z.max 0 timeout)) stops))
        as [more|]; [left|right]; split; try reflexivity; eauto.
  - right.
    destruct (gather_duration (map (after_cancel (Z.max 0 timeout)) stops))
      as [more|]; [left|right]; split; try reflexivity; eauto.
Qed.

Lemma cancel_delay_nonnegative timeout stops more :
  cancel_delay timeout stops = Some more -> 0 <= more.
Proof.
  unfold cancel_delay. revert more.
  induction stops as [|b stops IH]; cbn [map gather_duration]; intros more.
  - intros [= <-]. lia.
  - destruct (after_cancel (Z.max 0 timeout) b) as [t|]; [|discriminate].
    destruct (gather_duration (map (after_cancel (Z.max 0 timeout)) stops))
      as [t'|]; [|discriminate].
    intros [= <-]. specialize (IH t' eq_refl). lia.
Qed.

Lemma In_cons_left X (a : X) l : In a (a :: l).
Proof. left. reflexivity. Qed.

Lemma In_cons_right X (a b : X) l : In a l -> In a (b :: l).
Proof. intros H. right. exact H. Qed.

Lemma cancel_delay_prompt timeout stops :
  (forall b, In b stops -> ends_after_cancel b = Some 0) ->
  cancel_delay timeout stops = Some 0.
Proof.
  unfold cancel_delay.
  induction stops as [|b stops IH]; intros H; [reflexivity|].
  cbn [map gather_duration].
  rewrite IH by (intros b' Hb; apply H, In_cons_right, Hb).
  assert (A : after_cancel (Z.max 0 timeout) b = Some 0).
  { unfold after_cancel. rewrite (H b (In_cons_left _ b stops)).
    destruct (completes_after b) as [t|]; [|reflexivity].
    destruct (t <=? Z.max 0 timeout); reflexivity. }
  rewrite A. reflexivity.
Qed.

Lemma shutdown_keeps_agent_tasks env n s :
  agent_tasks (state (run env shutdown n s)) = agent_tasks s.
Proof.
  apply (respects_state_invariant
           (fun st => agent_tasks st = agent_tasks s)).
  - intros r s0 H. now rewrite agent_tasks_interfere.
  - unfold_methods. respectful.
  - reflexivity.
Qed.




(** ** Further properties of the launcher *)

Lemma shutdown_stops env n s :
  is_running (state (run env shutdown n s)) = false.
Proof.
  destruct (is_running s) eqn:Hs.
  - now destruct (shutdown_outcome env n s Hs) as (R & _).
  - now rewrite shutdown_not_running.
Qed.

(** [main] leaves the launcher stopped: whenever [main] ends, by returning
    or by raising (the exit with status 1 included), [is_running] is false,
    in every environment and from every launcher state. *)
Theorem main_ends_stopped env n s :
  let r := run env main n s in
  over (final r) = true -> is_running (state r) = false.
Proof.
  cbv zeta. unfold main. rewrite run_try_finally.
  destruct (run env (try_except _ start _) n s) as [f1 s1 t1 c1].
  pose proof (shutdown_stops env c1 s1) as R.
  unfold and_finally, and_then, then_run, ended. cbn [final state calls].
  destruct f1 as [[]|e| |];
    try destruct (final (run env shutdown c1 s1)) as [[]|e'| |];
    cbn; first [discriminate | intros _; exact R].
Qed.

Lemma main_ends_stopped_witness :
  let r := run stopping main 0 (new_launcher default_config) in
  final r = Returned tt /\ is_running (state r) = false.
Proof.
  split; [reflexivity|].
  apply (main_ends_stopped stopping 0%nat (new_launcher default_config)).
  reflexivity.
Defined.

Lemma returns_through_run c0 A env (m : M A) :
  returns_through c0 m ->
  forall n s a,
    final (run env m n s) = Returned a ->
    exists v, In (Called c0 (Returns v)) (trace (run env m n s)).
Proof.
  induction m as [a0|e| | |k IH|g k IH|ev k IH|c k IH]; intros Hm n s a;
    cbn in *; try discriminate; try contradiction.
  - apply IH, Hm.
  - apply IH, Hm.
  - rewrite emitted_final, emitted_trace. intros F.
    destruct (IH Hm n s a F) as (v & Hv). exists v. now right.
  - rewrite emitted_final, emitted_trace. intros F.
    destruct (Hm (result (env n c))) as [H|(-> & v & Hv)].
    + destruct (IH _ H _ _ a F) as (v & Hv). exists v. now right.
    + exists v. left. now rewrite Hv.
Qed.

Lemma returns_through_bind c0 A B (m : M A) (f : A -> M B) :
  (forall a, returns_through c0 (f a)) -> returns_through c0 (bind m f).
Proof.
  intros Hf.
  induction m as [a|e| | |k IH|g k IH|ev k IH|c k IH]; cbn; auto.
Qed.

Lemma returns_through_try_except c0 A c (m : M A) h :
  returns_through c0 m -> (forall e, returns_through c0 (h e)) ->
  returns_through c0 (try_except c m h).
Proof.
  intros Hm Hh.
  induction m as [a|e| | |k IH|g k IH|ev k IH|cl k IH]; cbn in *; auto.
  - destruct (c e); cbn; auto.
  - intros o. destruct (Hm o) as [H|H]; auto.
Qed.

Lemma returns_through_start : returns_through ShutdownEventWait start.
Proof.
  unfold start. apply returns_through_try_except; [|intros e; exact I].
  cbn.
  repeat (apply returns_through_bind; intros _).
  cbn. intros s0.
  repeat (apply returns_through_bind; intros _).
  cbn. intros s1.
  repeat (apply returns_through_bind; intros _).
  cbn. intros [v|e|]; cbn; [right; eauto | left; exact I | left; exact I].
Qed.

(** [start] returns only once the wait on the shutdown signal has returned:
    no error and no answer of a collaborator makes [start] return early. *)
Theorem start_returns_only_after_signal env n s :
  let r := run env start n s in
  final r = Returned tt ->
  exists v, In (Called ShutdownEventWait (Returns v)) (trace r).
Proof.
  cbv zeta. apply returns_through_run, returns_through_start.
Qed.

Lemma start_returns_only_after_signal_witness :
  let r := run stopping start 0 (new_launcher default_config) in
  final r = Returned tt /\
  exists v, In (Called ShutdownEventWait (Returns v)) (trace r).
Proof.
  split; [reflexivity|].
  apply (start_returns_only_after_signal stopping 0%nat
           (new_launcher default_config)).
  reflexivity.
Defined.

(** ** The health monitor keeps going *)

Ltac goes_on env G :=
  match goal with
  | |- context [env ?n ?c] =>
      let P := fresh "P" in
      let Q := fresh "Q" in
      destruct (G n c) as [Q P]; cbn in P;
      destruct (env n c) as [[?v|?e|] ?b]; cbn in P, Q;
      lazymatch type of P with
      | exists _, _ => destruct P as [? P]; first [discriminate P | clear P]
      | False => contradiction
      | True => clear P
      | _ => idtac
      end;
      subst; cbn;
      rewrite ?interfere_quiet by reflexivity;
      try (rewrite P; cbn)
  end.

(** One tick of the monitor, whatever the shared state answers: the tick
    returns, leaves the launcher as it was, and sleeps exactly once. *)
Lemma monitor_tick_goes_on env interval n s :
  monitor_goes_on env ->
  let r := run env (monitor_tick interval) n s in
  final r = Returned tt /\ state r = s /\
  count is_sleep (trace r) = 1%nat /\
  (count is_poll (trace r) <= 1)%nat /\
  count (is_log INFO "System health monitoring stopped") (trace r) = 0%nat.
Proof.
  intros G. symbolic. unfold monitor_tick. cbn.
  destruct (shared_state s) eqn:Hss; cbn.
  - goes_on env G.
    + destruct v as [| | | | |kvs|]; cbn.
      6:{ set (score_v := match assoc "overall_health_score" kvs with
                          | Some v => v | None => VInt 0 end) in *.
          destruct (format_1f score_v) as [q|ex] eqn:F; cbn.
          - destruct (Qltb q 70) eqn:L; cbn; rewrite ?Hss; cbn.
            + repeat goes_on env G; conclude; repeat split;
                unfold count; cbn; lia.
            + repeat goes_on env G; conclude; repeat split;
                unfold count; cbn; lia.
          - rewrite (format_1f_error _ _ F). cbn.
            repeat goes_on env G; conclude; repeat split;
              unfold count; cbn; lia. }
      all: repeat goes_on env G; conclude; repeat split;
        unfold count; cbn; lia.
    + repeat goes_on env G; conclude; repeat split; unfold count; cbn; lia.
  - repeat goes_on env G; conclude; repeat split; unfold count; cbn; lia.
Qed.

Lemma monitor_loop_goes_on env interval :
  monitor_goes_on env ->
  forall fuel n s,
    is_running s = true ->
    let r := run env (monitor_loop fuel interval) n s in
    final r = OutOfFuel /\ state r = s /\
    count is_sleep (trace r) = fuel /\
    (count is_poll (trace r) <= fuel)%nat /\
    count (is_log INFO "System health monitoring stopped") (trace r) = 0%nat.
Proof.
  intros G. induction fuel as [|fuel IH]; intros n s Hs; cbv zeta.
  - cbn. repeat split; reflexivity || (unfold count; cbn; lia).
  - cbn [monitor_loop]. cbn [bind get run]. rewrite Hs.
    rewrite run_bind.
    destruct (monitor_tick_goes_on env interval n s G)
      as (F & S1 & C1 & P1 & L1).
    destruct (run env (monitor_tick interval) n s) as [f1 s1 t1 c1].
    cbn in F, S1, C1, P1, L1. subst f1 s1.
    unfold and_then, then_run. cbn [final state trace calls].
    destruct (IH c1 s Hs) as (F2 & S2 & C2 & P2 & L2).
    rewrite F2, S2, !count_app, C1, C2, L1, L2. repeat split. lia.
Qed.

(** While the system is running, no failure of the shared state ends the
    health monitor: whatever number of iterations is allowed, the monitor is
    still in its loop after them, having slept exactly once per iteration
    (also after a failed check: errors do not turn the loop into a busy
    loop) and without having logged that it stopped; and once [is_running]
    is false the monitor leaves its loop at the next test, without polling
    the shared state again. *)
Theorem monitor_survives_errors env fuel n s :
  monitor_goes_on env ->
  (is_running s = true ->
   let r := run env (monitor_system_health fuel) n s in
   final r = OutOfFuel /\ state r = s /\
   count is_sleep (trace r) = fuel /\
   (count is_poll (trace r) <= fuel)%nat /\
   count (is_log INFO "System health monitoring stopped") (trace r) = 0%nat) /\
  (is_running s = false ->
   run env (monitor_system_health (S fuel)) n s =
   mkRun (Returned tt) s
     [Log INFO "Starting system health monitoring..." [];
      Log INFO "System health monitoring stopped" []] n).
Proof.
  intros G. split.
  - intros Hs. cbv zeta. unfold monitor_system_health.
    cbn [bind log emit get run]. rewrite run_bind.
    destruct (monitor_loop_goes_on env (health_check_interval (config s)) G
                fuel n s Hs) as (F & S1 & C1 & P1 & L1).
    destruct (run env (monitor_loop fuel (health_check_interval (config s)))
                n s) as [f1 s1 t1 c1].
    cbn in F, S1, C1, P1, L1. subst f1 s1.
    unfold and_then, ended. cbn [final state trace calls].
    rewrite emitted_final, emitted_state, emitted_trace. cbn.
    rewrite !count_cons. cbn. repeat split; assumption.
  - intros Hs. unfold monitor_system_health. cbn. rewrite Hs. reflexivity.
Qed.

Lemma monitor_survives_errors_witness :
  let r := run state_down (monitor_system_health 5) 0 running_launcher in
  final r = OutOfFuel /\ count is_sleep (trace r) = 5%nat /\
  count is_poll (trace r) = 5%nat.
Proof.
  assert (G : monitor_goes_on state_down).
  { intros n c. destruct c; cbn; split; eauto. }
  destruct (monitor_survives_errors state_down 5%nat 0%nat running_launcher G)
    as (H & _).
  destruct (H eq_refl) as (F & _ & C & _).
  split; [exact F|]. split; [exact C|]. reflexivity.
Defined.

(** ** Starting and creating the agents *)

Lemma In_cons X (a b : X) l : In a (b :: l) <-> b = a \/ In a l.
Proof. reflexivity. Qed.

Lemma In_nil X (a : X) : In a [] <-> False.
Proof. reflexivity. Qed.

(** The two lists [start_agents] derives from the coordinator's results
    split them: every agent id is reported as started or as failed, the two
    lists together are as long as the results, and, the keys of a dictionary
    being distinct, no agent is in both. *)
Theorem started_and_failed_partition results :
  (length (successful_of results) + length (failed_of results) =
   length results)%nat /\
  (forall id, In id (map fst results) <->
              In id (successful_of results) \/ In id (failed_of results)) /\
  (NoDup (map fst results) ->
   forall id, In id (successful_of results) -> ~ In id (failed_of results)).
Proof.
  unfold successful_of, failed_of. split; [|split].
  - rewrite !length_map.
    induction results as [|[k v] l IH]; [reflexivity|].
    cbn. destruct (truthy v); cbn; lia.
  - intros id. induction results as [|[k v] l IH]; cbn.
    + rewrite !In_nil. tauto.
    + destruct (truthy v); cbn; rewrite !In_cons; tauto.
  - intros D id. induction results as [|[k v] l IH]; cbn;
      [rewrite !In_nil; tauto|].
    inversion D as [|k' l' Hk D']; subst.
    assert (Sub : forall p, In id (map fst (filter p l)) -> In id (map fst l)).
    { intros p H. apply in_map_iff in H. destruct H as ([k1 v1] & E & H).
      apply filter_In in H. destruct H as [H _].
      apply in_map_iff. now exists (k1, v1). }
    destruct (truthy v); cbn; rewrite ?In_cons.
    + intros [->|H] H'; [apply Hk; now apply Sub in H'|now apply IH].
    + intros H [->|H']; [apply Hk; now apply Sub in H|now apply IH].
Qed.

Lemma started_and_failed_partition_witness :
  let results := [("heartbeat_health_agent", VBool true);
                  ("performance_monitor", VBool false);
                  ("langsmith_bridge", VNone)] in
  successful_of results = ["heartbeat_health_agent"] /\
  ~ In "heartbeat_health_agent" (failed_of results).
Proof.
  split; [reflexivity|].
  destruct (started_and_failed_partition
              [("heartbeat_health_agent", VBool true);
               ("performance_monitor", VBool false);
               ("langsmith_bridge", VNone)]) as (_ & _ & H).
  apply H.
  - repeat constructor; rewrite ?In_cons, ?In_nil;
      intuition discriminate.
  - apply In_cons. left. reflexivity.
Defined.

Lemma dict_mem_set V k k' (v : V) d :
  dict_mem k (dict_set k' v d) = String.eqb k k' || dict_mem k d.
Proof.
  induction d as [|[k1 v1] d IH]; cbn.
  - now rewrite orb_false_r.
  - destruct (String.eqb k' k1) eqn:E; cbn.
    + apply String.eqb_eq in E. subst k1.
      destruct (String.eqb k k'); reflexivity.
    + rewrite IH. destruct (String.eqb k k'), (String.eqb k k1); reflexivity.
Qed.

(** [create_agents] in any environment: the launcher ends up holding
    exactly the agents whose constructor returned, each stored under its id
    with the work interval of the configuration, on top of what it held
    before; the agents are created in a fixed order and the first
    constructor that fails ends the creation, so the agents created before
    an error stay stored and the later ones are never created; the
    coroutine returns exactly when all four constructors returned. *)
Theorem create_agents_stores_four env n s :
  let r := run env create_agents n s in
  let created := count is_constructed (trace r) in
  agents (state r) = with_first_agents created s /\
  (created <= 4)%nat /\
  (count is_construct (trace r) <= created + 1)%nat /\
  (final r = Returned tt <-> created = 4%nat) /\
  (final r = Returned tt -> agents (state r) = agents (with_agents s)) /\
  (forall id, dict_mem id (agents s) = true ->
              dict_mem id (agents (state r)) = true).
Proof.
  symbolic. unfold create_agents, create_agent. cbn.
  repeat first [answer env | caught]; conclude;
    repeat (autorewrite with launcher; cbn).
  all: unfold count; cbn.
  all: split; [repeat (autorewrite with launcher; cbn); reflexivity|].
  all: split; [lia|].
  all: split; [lia|].
  all: split; [split; [first [reflexivity | intros [=]]
                      |first [reflexivity | intros [=]]]|].
  all: split;
    [ first [ intros _; repeat (autorewrite with launcher; cbn); reflexivity
            | intros [=] ]
    | intros id H; repeat (autorewrite with launcher; cbn);
      rewrite ?dict_mem_set, H, ?orb_true_r; reflexivity ].
Qed.

Lemma create_agents_stores_four_witness :
  let r := run third_agent_fails create_agents 0
             (new_launcher default_config) in
  final r = Raised (OtherException "no API key") /\
  map fst (agents (state r)) =
  ["heartbeat_health_agent"; "performance_monitor"] /\
  map fst (agents (state (run all_well create_agents 0
                            (new_launcher default_config)))) =
  known_agent_ids.
Proof.
  destruct (create_agents_stores_four third_agent_fails 0%nat
              (new_launcher default_config)) as (A & _).
  destruct (create_agents_stores_four all_well 0%nat
              (new_launcher default_config)) as (_ & _ & _ & _ & B & _).
  split; [reflexivity|]. split.
  - rewrite A. reflexivity.
  - rewrite (B eq_refl). reflexivity.
Defined.

(** ** The recovery runner at its edges *)

(** Asked to run an agent that was never stored, the runner raises
    [KeyError] at once: nothing is logged and nothing is called. *)
Theorem runner_of_unknown_agent env fuel agent_id n s :
  dict_mem agent_id (agents s) = false ->
  run env (run_agent_with_recovery fuel agent_id) n s =
  mkRun (Raised (KeyError agent_id)) s [] n.
Proof.
  intros H. unfold run_agent_with_recovery. cbn. rewrite H. reflexivity.
Qed.

Lemma runner_of_unknown_agent_witness :
  run all_well (run_agent_with_recovery 5 "ghost") 0
    (new_launcher default_config) =
  mkRun (Raised (KeyError "ghost")) (new_launcher default_config) [] 0.
Proof.
  apply (runner_of_unknown_agent all_well 5%nat "ghost" 0%nat
           (new_launcher default_config)).
  reflexivity.
Defined.

(** Started while the system is not running, the runner never runs its
    agent: it logs that it starts and that it exits, and returns. *)
Theorem runner_needs_running_system env fuel agent_id n s :
  dict_mem agent_id (agents s) = true ->
  is_running s = false ->
  run env (run_agent_with_recovery (S fuel) agent_id) n s =
  mkRun (Returned 0) s
    [Log INFO "Starting recovery runner for agent {}" [LV (VStr agent_id)];
     Log INFO "Agent {} runner exiting" [LV (VStr agent_id)]] n.
Proof.
  intros Hm Hs. unfold run_agent_with_recovery. cbn. rewrite Hm. cbn.
  unfold recovery_loop. cbn. rewrite Hs. reflexivity.
Qed.

Lemma runner_needs_running_system_witness :
  count (is_startup_call "ai_help_agent")
    (trace (run crashing (run_agent_with_recovery 3 "ai_help_agent") 0
              (with_agents (new_launcher default_config)))) = 0%nat.
Proof.
  rewrite (runner_needs_running_system crashing 2%nat "ai_help_agent" 0%nat
             (with_agents (new_launcher default_config)) eq_refl eq_refl).
  reflexivity.
Defined.

(** ** Stopping the agents and closing the components *)

Lemma stop_task_ids_app t1 t2 :
  stop_task_ids (t1 ++ t2) = stop_task_ids t1 ++ stop_task_ids t2.
Proof. unfold stop_task_ids. apply flat_map_app. Qed.

Lemma cancelled_ids_app t1 t2 :
  cancelled_ids (t1 ++ t2) = cancelled_ids t1 ++ cancelled_ids t2.
Proof. unfold cancelled_ids. apply flat_map_app. Qed.

Lemma stop_task_ids_requests ags :
  stop_task_ids (stop_requests ags) = map fst ags.
Proof.
  unfold stop_requests. induction ags as [|kv l IH]; [reflexivity|].
  cbn. now rewrite <- IH.
Qed.

Lemma cancelled_ids_requests ags : cancelled_ids (stop_requests ags) = [].
Proof.
  unfold stop_requests. induction ags as [|kv l IH]; [reflexivity|].
  cbn. exact IH.
Qed.

Lemma cancelled_ids_cancellations tasks :
  cancelled_ids (cancellations tasks) = map fst (not_done tasks).
Proof.
  unfold cancellations, not_done.
  induction tasks as [|[k d] l IH]; [reflexivity|].
  cbn. destruct d; cbn; [exact IH|]. now rewrite <- IH.
Qed.

Lemma stop_task_ids_cancellations tasks :
  stop_task_ids (cancellations tasks) = [].
Proof.
  unfold cancellations. induction tasks as [|[k d] l IH]; [reflexivity|].
  cbn. destruct d; cbn; exact IH.
Qed.

Lemma stop_task_ids_after_wait o tasks :
  stop_task_ids (after_wait o tasks) = [].
Proof.
  destruct o as [v|e|]; cbn; [| |reflexivity].
  - apply stop_task_ids_cancellations.
  - destruct (is_timeout e); [|reflexivity].
    apply stop_task_ids_cancellations.
Qed.



(** [close_components] in any environment: the shared state is closed only
    after the shutdown-complete event and the reliability metric were sent
    to it; the completion signal, when there are a shared state and an
    adapter, comes after the closing of both; and when the coroutine returns
    the signal is the last thing that happened. *)
Theorem state_closed_after_last_records env n s :
  let r := run env close_components n s in
  preceded is_complete_event is_state_close false (trace r) = true /\
  preceded is_metric is_state_close false (trace r) = true /\
  (shared_state s = true ->
   preceded is_state_close is_event_set false (trace r) = true) /\
  (postgresql_adapter s = true ->
   preceded (is_call (fun c => match c with AdapterClose => true
                                          | _ => false end))
     is_event_set false (trace r) = true) /\
  (final r = Returned tt -> ends_with_signal (trace r) = true).
Proof.
  symbolic. unfold close_components. cbn.
  repeat (cbn; autorewrite with launcher; first [flag | answer env]).
  all: conclude.
  all: repeat split; try reflexivity;
    let H := fresh "H" in
    intros H; first [reflexivity | congruence | discriminate H].
Qed.

Lemma state_closed_after_last_records_witness :
  let r := run obliging close_components 0 running_launcher in
  preceded is_state_close is_event_set false (trace r) = true /\
  ends_with_signal (trace r) = true.
Proof.
  destruct (state_closed_after_last_records obliging 0%nat running_launcher)
    as (_ & _ & H1 & _ & H2).
  split; [apply H1 | apply H2]; reflexivity.
Defined.

(** ** The status report *)

(** [status] in any environment: it raises no ordinary exception (an error
    of a collaborator or a malformed answer gives the error report), makes at
    most two calls and none when there is neither adapter nor shared state;
    the full report carries [is_running] as it was when [status] was called,
    the number of stored agents and of agent tasks not done, while the error
    report carries [is_running] as it is when the error is handled. *)
Theorem status_never_raises env n s :
  let r := run env launcher_status n s in
  (forall e, final r = Raised e -> is_exception e = false) /\
  (calls r <= n + 2)%nat /\
  (forall running started uptime configured tasks connected health,
      final r = Returned (StatusReport running started uptime configured
                            tasks connected health) ->
      running = is_running s /\ configured = len (agents s) /\
      tasks = len (not_done (agent_tasks s)) /\
      (connected = true -> postgresql_adapter s = true) /\
      (shared_state s = false -> health = VNone)) /\
  (forall running e,
      final r = Returned (StatusError running e) ->
      running = is_running (state r) /\ is_exception e = true) /\
  (postgresql_adapter s = false -> shared_state s = false ->
   trace r = [] /\ state r = s /\
   final r = Returned (StatusReport (is_running s)
                         (if startup_time s
                          then VClock "startup_time.isoformat()" else VNone)
                         (get_uptime s) (len (agents s))
                         (len (not_done (agent_tasks s))) false VNone)).
Proof.
  symbolic. unfold launcher_status. cbn.
  destruct (postgresql_adapter s) eqn:Ha; cbn;
    [answer env;
     [destruct (getitem v "status") as [st|ex] eqn:G; cbn;
      [|rewrite (getitem_error _ _ _ G); cbn]| |]|];
    autorewrite with launcher; try caught;
    try (destruct (shared_state s) eqn:Hh; cbn;
         [answer env; try caught|]).
  all: conclude; autorewrite with launcher; repeat split; try lia; intros;
    try congruence;
    try (match goal with
         | H : Returned _ = Returned _ |- _ => inversion H; subst
         end;
         first [ assumption | reflexivity | congruence
               | eapply getitem_error; eassumption ]).
Qed.

Lemma status_never_raises_witness :
  final (run shut_down_meanwhile launcher_status 0 running_launcher) =
  Returned (StatusError false (OtherException "closed")).
Proof.
  destruct (status_never_raises shut_down_meanwhile 0%nat running_launcher)
    as (_ & _ & _ & H & _).
  destruct (H false (OtherException "closed") eq_refl) as (_ & _).
  reflexivity.
Defined.

(** * The environment file *)

(** ** Stripping *)

Lemma lstrip_by_keeps p c t : p c = false -> lstrip_by p (c :: t) = c :: t.
Proof. intros H. cbn. now rewrite H. Qed.

Lemma rstrip_by_cons p c t :
  p c = false -> rstrip_by p (c :: t) = c :: rstrip_by p t.
Proof. intros H. cbn. rewrite H. now destruct (rstrip_by p t). Qed.

Lemma rstrip_by_app p a c b :
  p c = false -> rstrip_by p (a ++ c :: b) = a ++ c :: rstrip_by p b.
Proof.
  intros H. induction a as [|x a IH]; [now apply rstrip_by_cons|].
  cbn [app rstrip_by]. rewrite IH. now destruct a.
Qed.

Lemma rstrip_by_last p t c :
  p c = true -> rstrip_by p (t ++ [c]) = rstrip_by p t.
Proof.
  intros H. induction t as [|x t IH]; cbn; [now rewrite H|].
  now rewrite IH.
Qed.

Lemma rstrip_by_idem p t : rstrip_by p (rstrip_by p t) = rstrip_by p t.
Proof.
  induction t as [|c t IH]; [reflexivity|].
  cbn. destruct (rstrip_by p t) as [|k kept] eqn:E.
  - destruct (p c) eqn:Hc; cbn; [reflexivity|now rewrite Hc].
  - cbn [rstrip_by]. cbn [rstrip_by] in IH. rewrite IH. reflexivity.
Qed.

Lemma strips_commute p t :
  rstrip_by p (lstrip_by p t) = lstrip_by p (rstrip_by p t).
Proof.
  induction t as [|c t IH]; [reflexivity|].
  cbn. destruct (p c) eqn:Hc; cbn.
  - rewrite IH. destruct (rstrip_by p t) as [|k kept]; cbn;
      now rewrite ?Hc.
  - rewrite ?Hc. destruct (rstrip_by p t) as [|k kept]; cbn; now rewrite Hc.
Qed.

Lemma strip_by_rstrip p t : strip_by p (rstrip_by p t) = strip_by p t.
Proof.
  unfold strip_by. now rewrite <- strips_commute, rstrip_by_idem.
Qed.

Lemma rstrip_by_proper p t c :
  rev t = c :: tl (rev t) -> p c = false -> rstrip_by p t = t.
Proof.
  intros R H.
  assert (T : t = rev (tl (rev t)) ++ [c]).
  { rewrite <- (rev_involutive t) at 1. rewrite R. reflexivity. }
  rewrite T at 1. rewrite rstrip_by_app by exact H. cbn. now rewrite <- T.
Qed.

Lemma lstrip_by_sub p t x : In x (lstrip_by p t) -> In x t.
Proof.
  induction t as [|c t IH]; [auto|]. cbn. destruct (p c); [|auto].
  intros H. apply In_cons. right. auto.
Qed.

Lemma rstrip_by_sub p t x : In x (rstrip_by p t) -> In x t.
Proof.
  induction t as [|c t IH]; [auto|]. cbn.
  destruct (rstrip_by p t) as [|k kept].
  - destruct (p c); [intros []|].
    rewrite !In_cons. intros [H|[]]. now left.
  - rewrite !In_cons. intros [H|H]; [now left|right; auto].
Qed.

Lemma strip_by_sub p t x : In x (strip_by p t) -> In x t.
Proof.
  unfold strip_by. intros H. now apply rstrip_by_sub, lstrip_by_sub in H.
Qed.

Lemma contains_In c t : contains c t = true <-> In c t.
Proof.
  unfold contains. rewrite existsb_exists. split.
  - intros (x & H & E). apply N.eqb_eq in E. now subst.
  - intros H. exists c. split; [exact H|apply N.eqb_refl].
Qed.

Lemma contains_strip_by p c t :
  contains c t = false -> contains c (strip_by p t) = false.
Proof.
  intros H. destruct (contains c (strip_by p t)) eqn:E; [|reflexivity].
  apply contains_In, strip_by_sub, contains_In in E. congruence.
Qed.

Lemma split_once_app k rest :
  contains equals k = false -> split_once (k ++ equals :: rest) = (k, rest).
Proof.
  induction k as [|c k IH]; cbn [app split_once].
  - intros _. now rewrite N.eqb_refl.
  - intros H. unfold contains in H. cbn [existsb] in H.
    apply orb_false_iff in H. destruct H as [H1 H2].
    rewrite N.eqb_sym in H1. rewrite H1.
    fold (contains equals k) in H2. now rewrite (IH H2).
Qed.

Lemma split_once_key t :
  contains equals (fst (split_once t)) = false.
Proof.
  induction t as [|c t IH]; [reflexivity|].
  cbn [split_once]. destruct (c =? equals)%N eqn:E; [reflexivity|].
  destruct (split_once t) as [before after]. cbn [fst] in *.
  unfold contains in *. cbn [existsb]. rewrite N.eqb_sym, E. exact IH.
Qed.

Lemma lstrip_by_idem p t : lstrip_by p (lstrip_by p t) = lstrip_by p t.
Proof.
  induction t as [|c t IH]; [reflexivity|].
  cbn. destruct (p c) eqn:H; [exact IH|]. cbn. now rewrite H.
Qed.

Lemma strip_by_idem p t : strip_by p (strip_by p t) = strip_by p t.
Proof.
  unfold strip_by.
  rewrite <- (strips_commute p (lstrip_by p t)).
  rewrite lstrip_by_idem, rstrip_by_idem. reflexivity.
Qed.

(** ** The loader, line by line *)

(** The lines the manual loader passes over, and what it keeps of the
    others: a blank line, a line whose first non-blank character is ['#']
    and a line without ['='] lead to no assignment; the name assigned holds
    no ['='] (the line is split at its first ['='], so the value may hold
    some) and has no white space at its ends. *)
Theorem loader_skips_and_splits line :
  (strip line = [] -> parse_env_line line = None) /\
  (starts_with_hash (strip line) = true -> parse_env_line line = None) /\
  (contains equals line = false -> parse_env_line line = None) /\
  (forall key value,
      parse_env_line line = Some (key, value) ->
      contains equals key = false /\ strip key = key /\
      exists raw, strip line = raw ++ equals :: snd (split_once (strip line))
                  /\ key = strip raw /\ value = as_loaded
                                              (snd (split_once (strip line)))).
Proof.
  unfold parse_env_line. split; [|split; [|split]].
  - intros ->. reflexivity.
  - intros ->. now rewrite andb_false_r.
  - intros H. unfold strip. rewrite (contains_strip_by _ _ _ H).
    now rewrite andb_false_r.
  - intros key value.
    destruct (nonempty (strip line) && negb (starts_with_hash (strip line)) &&
              contains equals (strip line)) eqn:C; [|discriminate].
    apply andb_true_iff in C. destruct C as [_ C].
    pose proof (split_once_key (strip line)) as K.
    assert (S : strip line =
                fst (split_once (strip line)) ++
                equals :: snd (split_once (strip line))).
    { clear K. induction (strip line) as [|c t IH]; [discriminate C|].
      cbn [split_once]. unfold contains in C. cbn [existsb] in C.
      destruct (c =? equals)%N eqn:E.
      - apply N.eqb_eq in E. subst c. reflexivity.
      - rewrite N.eqb_sym, E in C. cbn [orb] in C.
        destruct (split_once t) as [before after]. cbn [fst snd app] in *.
        now rewrite <- (IH C). }
    destruct (split_once (strip line)) as [raw rest]. cbn in *.
    intros [= <- <-]. split; [|split].
    + unfold strip. now apply contains_strip_by.
    + unfold strip. apply strip_by_idem.
    + exists raw. repeat split. exact S.
Qed.

Lemma loader_skips_and_splits_witness :
  parse_env_line (codes "  # POSTGRESQL_HOST=db  ") = None /\
  parse_env_line (codes "POSTGRESQL_HOST") = None /\
  parse_env_line (codes " URL = 'a=b' ") = Some (codes "URL", codes "a=b").
Proof.
  destruct (loader_skips_and_splits (codes "  # POSTGRESQL_HOST=db  "))
    as (_ & H1 & _).
  destruct (loader_skips_and_splits (codes "POSTGRESQL_HOST"))
    as (_ & _ & H2 & _).
  split; [apply H1; reflexivity|]. split; [apply H2; reflexivity|].
  reflexivity.
Defined.

Lemma proper_name_parts k :
  proper_name k = true ->
  exists c k', k = c :: k' /\ is_space c = false /\ (c =? hash)%N = false /\
               contains equals k = false /\ rstrip_by is_space k = k.
Proof.
  unfold proper_name. intros H.
  apply andb_true_iff in H. destruct H as [H H5].
  apply andb_true_iff in H. destruct H as [H H4].
  apply andb_true_iff in H. destruct H as [H H3].
  apply andb_true_iff in H. destruct H as [H1 H2].
  destruct k as [|c k']; [discriminate|].
  exists c, k'. split; [reflexivity|].
  apply negb_true_iff in H2, H3, H4.
  repeat split; try assumption.
  destruct (rev (c :: k')) as [|l revk] eqn:R; [discriminate|].
  apply negb_true_iff in H5.
  apply (rstrip_by_proper is_space (c :: k') l); [|exact H5].
  rewrite R. reflexivity.
Qed.

Lemma parse_assignment name value :
  proper_name (codes name) = true ->
  parse_env_line (assignment_line name value) =
  Some (codes name, as_loaded value).
Proof.
  intros P. destruct (proper_name_parts _ P) as (c & k' & E & Hc & Hh & He & Hr).
  unfold assignment_line, parse_env_line.
  assert (S : strip (codes name ++ equals :: value ++ [newline]) =
              codes name ++ equals :: rstrip_by is_space value).
  { unfold strip, strip_by. rewrite E. cbn [app].
    rewrite lstrip_by_keeps by exact Hc.
    change (c :: k' ++ equals :: value ++ [newline])
      with ((c :: k') ++ equals :: value ++ [newline]).
    rewrite rstrip_by_app by reflexivity.
    now rewrite rstrip_by_last by reflexivity. }
  rewrite S.
  assert (C : contains equals (codes name ++ equals :: rstrip_by is_space value)
              = true).
  { apply contains_In, in_or_app. right. apply In_cons. now left. }
  assert (N1 : nonempty (codes name ++ equals :: rstrip_by is_space value)
               = true) by (rewrite E; reflexivity).
  assert (N2 : starts_with_hash
                 (codes name ++ equals :: rstrip_by is_space value) = false)
    by (rewrite E; exact Hh).
  rewrite N1, N2, C. cbn [negb andb].
  rewrite split_once_app by exact He.
  f_equal. f_equal.
  - unfold strip, strip_by. rewrite E, lstrip_by_keeps by exact Hc.
    rewrite <- E. exact Hr.
  - unfold as_loaded, strip. now rewrite strip_by_rstrip.
Qed.

(** ** The file as a whole *)

Lemma file_lines_from_line l : forall current rest,
  contains newline l = false ->
  file_lines_from current (l ++ newline :: rest) =
  (rev current ++ l ++ [newline]) :: file_lines_from [] rest.
Proof.
  induction l as [|c l IH]; intros current rest H.
  - cbn [app file_lines_from]. rewrite N.eqb_refl. cbn [rev].
    reflexivity.
  - unfold contains in H. cbn [existsb] in H.
    apply orb_false_iff in H. destruct H as [H1 H2].
    cbn [app file_lines_from]. rewrite N.eqb_sym, H1.
    rewrite (IH (c :: current) rest H2). cbn [rev].
    now rewrite <- app_assoc.
Qed.

Lemma one_line_newline t : one_line t = true -> contains newline t = false.
Proof.
  unfold one_line. intros H. apply andb_true_iff in H.
  destruct H as [H _]. now apply negb_true_iff in H.
Qed.

Lemma contains_app c a b : contains c (a ++ b) = contains c a || contains c b.
Proof. unfold contains. apply existsb_app. Qed.

Lemma one_line_app a b : one_line (a ++ b) = one_line a && one_line b.
Proof.
  unfold one_line. rewrite !contains_app.
  destruct (contains newline a), (contains newline b),
    (contains carriage_return a), (contains carriage_return b); reflexivity.
Qed.

Lemma loaded_line accepts l rest :
  one_line l = true ->
  loaded accepts (l ++ newline :: rest) =
  match parse_env_line (l ++ [newline]) with
  | Some (key, value) =>
      if accepts key value then
        let (made, completed) := loaded accepts rest in
        ((key, value) :: made, completed)
      else ([], false)
  | None => loaded accepts rest
  end.
Proof.
  intros H. unfold loaded, file_lines.
  rewrite file_lines_from_line by now apply one_line_newline.
  reflexivity.
Qed.

Lemma parse_comment t :
  starts_with_hash t = true -> parse_env_line t = None.
Proof.
  destruct t as [|c t]; [discriminate|]. cbn [starts_with_hash].
  intros H. apply N.eqb_eq in H. subst c.
  unfold parse_env_line, strip, strip_by.
  rewrite lstrip_by_keeps by reflexivity.
  rewrite rstrip_by_cons by reflexivity.
  cbn [nonempty starts_with_hash]. rewrite N.eqb_refl. reflexivity.
Qed.

Lemma loaded_comment accepts c rest :
  starts_with_hash c = true -> one_line c = true ->
  loaded accepts (c ++ newline :: rest) = loaded accepts rest.
Proof.
  intros H O. rewrite loaded_line by exact O.
  rewrite parse_comment; [reflexivity|].
  destruct c; [discriminate|exact H].
Qed.

Lemma loaded_blank accepts rest :
  loaded accepts (newline :: rest) = loaded accepts rest.
Proof. apply (loaded_line accepts [] rest). reflexivity. Qed.

Lemma loaded_assignment accepts kv rest :
  fit kv = true ->
  loaded accepts (assignment_line (fst kv) (snd kv) ++ rest) =
  accepted_then accepts [to_assign kv] (loaded accepts rest).
Proof.
  unfold fit. intros F.
  apply andb_true_iff in F. destruct F as [F O2].
  apply andb_true_iff in F. destruct F as [P O1].
  unfold assignment_line.
  replace ((codes (fst kv) ++ equals :: snd kv ++ [newline]) ++ rest)
    with ((codes (fst kv) ++ equals :: snd kv) ++ newline :: rest).
  - rewrite loaded_line.
    + replace ((codes (fst kv) ++ equals :: snd kv) ++ [newline])
        with (assignment_line (fst kv) (snd kv)).
      * now rewrite parse_assignment.
      * unfold assignment_line. rewrite <- app_assoc. reflexivity.
    + rewrite one_line_app, O1.
      change (equals :: snd kv) with ([equals] ++ snd kv).
      rewrite one_line_app, O2. reflexivity.
  - rewrite <- !app_assoc. cbn [app]. rewrite <- app_assoc. reflexivity.
Qed.

Lemma accepted_then_app accepts l1 l2 tail :
  accepted_then accepts (l1 ++ l2) tail =
  accepted_then accepts l1 (accepted_then accepts l2 tail).
Proof.
  induction l1 as [|[k v] l1 IH]; [reflexivity|].
  cbn [app accepted_then]. now rewrite IH.
Qed.

Lemma loaded_assignments accepts kvs rest :
  forallb fit kvs = true ->
  loaded accepts
    (concat (map (fun kv => assignment_line (fst kv) (snd kv)) kvs) ++ rest) =
  accepted_then accepts (map to_assign kvs) (loaded accepts rest).
Proof.
  induction kvs as [|kv kvs IH]; [reflexivity|].
  cbn [forallb map concat app]. intros F.
  apply andb_true_iff in F. destruct F as [F1 F2].
  rewrite <- app_assoc, loaded_assignment by exact F1.
  rewrite IH by exact F2. reflexivity.
Qed.

Lemma accepted_then_all accepts l tail :
  forallb (fun kv => accepts (fst kv) (snd kv)) l = true ->
  accepted_then accepts l tail = (l ++ fst tail, snd tail).
Proof.
  induction l as [|[k v] l IH]; cbn [forallb accepted_then app fst snd].
  - intros _. now destruct tail.
  - intros H. apply andb_true_iff in H. destruct H as [H1 H2].
    rewrite H1, (IH H2). reflexivity.
Qed.

Lemma accepted_then_refused accepts l1 kv l2 tail :
  forallb (fun kv => accepts (fst kv) (snd kv)) l1 = true ->
  accepts (fst kv) (snd kv) = false ->
  accepted_then accepts (l1 ++ kv :: l2) tail = (l1, false).
Proof.
  intros H1 H2. rewrite accepted_then_app.
  rewrite accepted_then_all by exact H1.
  destruct kv as [k v]. cbn [accepted_then fst snd] in *. rewrite H2.
  cbn. now rewrite app_nil_r.
Qed.

(** One line of the file, read back.  For a proper name and a value
    without line break, the string [name=value] followed by its newline is
    one line of the file, and the loader, if the platform takes the
    assignment, assigns to [name] the value stripped of the white space and
    then of the double and single quotes at its ends, and goes on with the
    rest of the file; if the platform refuses the assignment (a NUL in the
    value, for one), the loading ends there: nothing of the rest of the
    file is assigned. *)
Theorem written_line_is_read_back accepts name value rest :
  proper_name (codes name) = true ->
  one_line (codes name) = true ->
  one_line value = true ->
  file_lines (assignment_line name value) = [assignment_line name value] /\
  (accepts (codes name) (as_loaded value) = true ->
   loaded accepts (assignment_line name value ++ rest) =
   ((codes name, as_loaded value) :: fst (loaded accepts rest),
    snd (loaded accepts rest))) /\
  (accepts (codes name) (as_loaded value) = false ->
   loaded accepts (assignment_line name value ++ rest) = ([], false)).
Proof.
  intros P O1 O2.
  assert (F : fit (name, value) = true)
    by (unfold fit; cbn [fst snd]; now rewrite P, O1, O2).
  pose proof (loaded_assignment accepts (name, value) rest F) as L.
  cbn [fst snd accepted_then to_assign] in L.
  split; [|split].
  - unfold file_lines, assignment_line.
    replace (codes name ++ equals :: value ++ [newline])
      with ((codes name ++ equals :: value) ++ newline :: [])
      by (rewrite <- app_assoc; reflexivity).
    rewrite file_lines_from_line; [reflexivity|].
    apply one_line_newline. rewrite one_line_app, O1.
    change (equals :: value) with ([equals] ++ value).
    rewrite one_line_app, O2. reflexivity.
  - intros A. rewrite L, A. now destruct (loaded accepts rest).
  - intros A. rewrite L, A. reflexivity.
Qed.

Lemma written_line_is_read_back_witness :
  loaded posix_accepts
    (assignment_line "POSTGRESQL_PASSWORD" (codes " s3cret ")) =
  ([(codes "POSTGRESQL_PASSWORD", codes "s3cret")], true) /\
  loaded posix_accepts
    (assignment_line "POSTGRESQL_PASSWORD" [112; 0; 119]%N ++
     assignment_line "POSTGRESQL_SSL_MODE" (codes "prefer")) = ([], false).
Proof.
  destruct (written_line_is_read_back posix_accepts "POSTGRESQL_PASSWORD"
              (codes " s3cret ") [] eq_refl eq_refl eq_refl) as (_ & H & _).
  destruct (written_line_is_read_back posix_accepts "POSTGRESQL_PASSWORD"
              [112; 0; 119]%N
              (assignment_line "POSTGRESQL_SSL_MODE" (codes "prefer"))
              eq_refl eq_refl eq_refl) as (_ & _ & H').
  split.
  - rewrite <- (app_nil_r (assignment_line _ _)). rewrite (H eq_refl).
    reflexivity.
  - apply H'. reflexivity.
Defined.

Lemma setting_In var cfg value :
  setting var cfg = Some value -> In (var, value) cfg.
Proof.
  induction cfg as [|[k v] cfg IH]; [discriminate|].
  cbn [setting]. destruct (String.eqb var k) eqn:E.
  - apply String.eqb_eq in E. intros [= ->]. subst. apply In_cons. now left.
  - intros H. apply In_cons. right. auto.
Qed.

Lemma write_vars_all vars cfg :
  forallb (has_setting cfg) vars = true ->
  write_vars vars cfg =
  (map (fun kv => assignment_line (fst kv) (snd kv)) (looked_up vars cfg),
   true).
Proof.
  induction vars as [|var vars IH]; [reflexivity|].
  cbn [forallb write_vars looked_up flat_map]. unfold has_setting at 1.
  destruct (setting var cfg) as [value|]; [|discriminate].
  cbn [andb]. intros H. fold (looked_up vars cfg).
  rewrite (IH H). reflexivity.
Qed.

Lemma looked_up_fit vars cfg :
  forallb fit cfg = true -> forallb fit (looked_up vars cfg) = true.
Proof.
  intros F. apply forallb_forall. intros [k v] H.
  unfold looked_up in H. apply in_flat_map in H.
  destruct H as (var & _ & H).
  destruct (setting var cfg) as [value|] eqn:E; [|destruct H].
  apply In_cons in H. destruct H as [H|[]]. injection H as <- <-.
  apply setting_In in E. revert E. now apply forallb_forall.
Qed.

Lemma other_settings_fit cfg :
  forallb fit cfg = true -> forallb fit (other_settings cfg) = true.
Proof.
  intros F. apply forallb_forall. intros kv H.
  unfold other_settings in H. apply filter_In in H. destruct H as [H _].
  revert H. now apply forallb_forall.
Qed.



(** ** The settings the script collects *)

Lemma mem_string_In k l : mem_string k l = true <-> In k l.
Proof.
  unfold mem_string. rewrite existsb_exists. split.
  - intros (x & H & E). apply String.eqb_eq in E. now subst.
  - intros H. exists k. split; [exact H|apply String.eqb_refl].
Qed.

Lemma distinct_NoDup l : distinct l = true -> NoDup l.
Proof.
  induction l as [|x l IH]; [constructor|].
  cbn [distinct]. intros H. apply andb_true_iff in H. destruct H as [H1 H2].
  constructor; [|auto].
  intros Hin. apply mem_string_In in Hin. rewrite Hin in H1. discriminate H1.
Qed.

Lemma fit_dict_set k v cfg :
  fit (k, v) = true -> forallb fit cfg = true ->
  forallb fit (dict_set k v cfg) = true.
Proof.
  intros Fk. induction cfg as [|[k' v'] cfg IH]; cbn [dict_set forallb].
  - now rewrite Fk.
  - intros H. apply andb_true_iff in H. destruct H as [H1 H2].
    destruct (String.eqb k k'); cbn [forallb].
    + now rewrite Fk, H2.
    + now rewrite H1, (IH H2).
Qed.

Lemma fit_dict_update other : forall cfg,
  forallb fit other = true -> forallb fit cfg = true ->
  forallb fit (dict_update other cfg) = true.
Proof.
  unfold dict_update.
  induction other as [|[k v] other IH]; intros cfg Fo Fc; [exact Fc|].
  cbn [fold_left fst snd]. cbn [forallb] in Fo.
  apply andb_true_iff in Fo. destruct Fo as [F1 F2].
  apply IH; [exact F2|]. now apply fit_dict_set.
Qed.

Lemma one_line_strip t : one_line t = true -> one_line (strip t) = true.
Proof.
  unfold one_line, strip. intros H. apply andb_true_iff in H.
  destruct H as [H1 H2]. apply negb_true_iff in H1, H2.
  now rewrite !contains_strip_by.
Qed.

Lemma one_line_or_default t d :
  one_line t = true -> one_line (codes d) = true ->
  one_line (or_default t d) = true.
Proof. intros H1 H2. destruct t; [exact H2|exact H1]. Qed.

Lemma fit_literal name value :
  proper_name (codes name) && one_line (codes name) = true ->
  one_line value = true -> fit (name, value) = true.
Proof. unfold fit. cbn [fst snd]. now intros -> ->. Qed.

Lemma strip_or_default t d :
  strip (codes d) = codes d -> nonempty (codes d) = true ->
  or_default (strip t) d <> [] /\
  strip (or_default (strip t) d) = or_default (strip t) d.
Proof.
  intros Hd Hn. unfold or_default.
  destruct (strip t) as [|c r] eqn:E.
  - split; [|exact Hd]. intros H. rewrite H in Hn. discriminate Hn.
  - split; [discriminate|]. rewrite <- E. apply strip_by_idem.
Qed.

(** Whatever is typed at the prompts, the script collects 38 settings under
    distinct names, the eight the first two sections of the file need among
    them; the password is kept as typed; the host is never empty and has no
    white space at its ends; a blank port gives the default port; and when
    no answer holds a line break every setting fits on a line of the
    file. *)
Theorem collected_settings_are_fit a :
  length (collected a) = 38%nat /\
  NoDup (map fst (collected a)) /\
  forallb (has_setting (collected a)) (db_vars ++ api_vars) = true /\
  setting "POSTGRESQL_PASSWORD" (collected a) = Some (password_answer a) /\
  (forall v, setting "POSTGRESQL_HOST" (collected a) = Some v ->
             v <> [] /\ strip v = v) /\
  (strip (port_answer a) = [] ->
   setting "POSTGRESQL_PORT" (collected a) = Some (codes "5432")) /\
  (forallb one_line (answer_texts a) = true ->
   forallb fit (collected a) = true).
Proof.
  split; [reflexivity|].
  split; [apply distinct_NoDup; reflexivity|].
  split; [reflexivity|].
  split; [reflexivity|].
  split.
  { intros v H.
    change (Some (or_default (strip (host_answer a)) "localhost") = Some v)
      in H.
    injection H as <-. now apply strip_or_default. }
  split.
  { intros H.
    change (setting "POSTGRESQL_PORT" (collected a))
      with (Some (or_default (strip (port_answer a)) "5432")).
    now rewrite H. }
  intros H. cbn [forallb answer_texts] in H.
  repeat (apply andb_true_iff in H; destruct H as [?O H]).
  unfold collected, configure_additional_settings, get_database_config.
  apply fit_dict_update; [reflexivity|].
  repeat (apply fit_dict_set;
          [apply fit_literal;
           [reflexivity
           |first [ assumption
                  | apply one_line_or_default;
                    [first [assumption | now apply one_line_strip]
                    |reflexivity] ]]|]).
  reflexivity.
Qed.

Lemma collected_settings_are_fit_witness :
  setting "POSTGRESQL_PORT" (collected hasty) = Some (codes "5432") /\
  forallb fit (collected hasty) = true.
Proof.
  destruct (collected_settings_are_fit hasty) as (_ & _ & _ & _ & _ & P & F).
  split; [apply P | apply F]; reflexivity.
Defined.

(** ** The steps of the setup *)

Ltac step_by_step outcome :=
  repeat match goal with
         | |- context [outcome ?s] =>
             let E := fresh "E" in
             destruct (outcome s) as [[|]|] eqn:E; cbn
         end.

(** [main] of the setup script exits with status 0 exactly when no step is
    interrupted and each of the six tested steps succeeds, the result of
    the validation test playing no part; the environment file is written
    only after the connection test, the creation of the database and the
    creation of the schema have succeeded; the steps performed are an
    initial part of the fixed sequence: nothing is done after a step that
    failed. *)
Theorem setup_exit_status outcome :
  (setup_main outcome = 0 <->
   (forall s, In s all_steps -> outcome s <> Interrupted) /\
   (forall s, In s gates -> outcome s = Done true)) /\
  (setup_main outcome = 0 \/ setup_main outcome = 1) /\
  (In CreateEnvironmentFile (fst (run_setup outcome)) ->
   outcome TestDatabaseConnection = Done true /\
   outcome CreateDatabase = Done true /\
   outcome CreateSchema = Done true) /\
  (exists rest, all_steps = fst (run_setup outcome) ++ rest).
Proof.
  split; [split|].
  - intros H. unfold setup_main, run_setup, plain, gate in H.
    split.
    + intros s Hs. unfold all_steps in Hs.
      repeat (apply In_cons in Hs; destruct Hs as [<-|Hs]);
        try (now apply In_nil in Hs);
        intros X; rewrite ?X in H; cbn in H;
        revert H; step_by_step outcome; try discriminate; congruence.
    + intros s Hs. unfold gates in Hs.
      repeat (apply In_cons in Hs; destruct Hs as [<-|Hs]);
        try (now apply In_nil in Hs);
        revert H; step_by_step outcome; try discriminate; congruence.
  - intros [H1 H2].
    assert (A : forall s, In s all_steps)
      by (intros s; unfold all_steps; destruct s; rewrite !In_cons;
          repeat (first [left; reflexivity | right])).
    pose proof (H1 PrintBanner (A _)) as B.
    pose proof (H1 GetDatabaseConfig (A _)) as G.
    pose proof (H1 ConfigureAdditionalSettings (A _)) as C.
    pose proof (H1 RunValidationTest (A _)) as V.
    pose proof (H1 PrintCompletionMessage (A _)) as M.
    assert (Gm : forall s, In s gates -> outcome s = Done true) by exact H2.
    unfold gates in Gm.
    unfold setup_main, run_setup, plain, gate.
    rewrite (Gm CheckPrerequisites), (Gm TestDatabaseConnection),
      (Gm CreateDatabase), (Gm CreateSchema), (Gm CreateEnvironmentFile),
      (Gm CreateDirectories)
      by (rewrite !In_cons; repeat (first [left; reflexivity | right])).
    cbn.
    step_by_step outcome; try reflexivity; congruence.
  - split; [|split].
    + unfold setup_main, run_setup, plain, gate.
      step_by_step outcome; auto.
    + unfold run_setup, plain, gate.
      step_by_step outcome; rewrite ?In_cons, ?In_nil; intros H;
        repeat split; try reflexivity;
        repeat (destruct H as [H|H]; try discriminate H); try contradiction.
    + unfold run_setup, plain, gate, all_steps.
      step_by_step outcome; eexists; reflexivity.
Qed.

Lemma setup_exit_status_witness :
  setup_main validation_fails = 0 /\
  setup_main schema_fails = 1 /\
  ~ In CreateEnvironmentFile (fst (run_setup schema_fails)).
Proof.
  destruct (setup_exit_status validation_fails) as ((_ & H0) & _).
  destruct (setup_exit_status schema_fails) as (_ & _ & H1 & _).
  split.
  - apply H0. split.
    + intros s _. destruct s; discriminate.
    + intros s Hs. unfold gates in Hs. rewrite !In_cons, In_nil in Hs.
      intuition (subst; reflexivity).
  - split; [reflexivity|].
    intros H. destruct (H1 H) as (_ & _ & X). discriminate X.
Defined.

(** ** How [main] ends after a failed start *)

(** [main] after [start] has raised: an ordinary exception is logged as a
    system error and turned into an exit with status 1, a keyboard interrupt
    into a normal return, in both cases after the cleanup by [shutdown] has
    returned; and when the cleanup itself raises, its exception is the one
    that leaves [main]. *)
Theorem main_exit_on_startup_error env n s e :
  let r1 := run env start n s in
  let r2 := run env shutdown (calls r1) (state r1) in
  let r := run env main n s in
  final r1 = Raised e ->
  (is_exception e = true -> final r2 = Returned tt ->
   final r = Raised (SystemExit 1) /\
   trace r = trace r1 ++ Log ERROR "System error: {}" [LE e] :: trace r2) /\
  (e = KeyboardInterrupt -> final r2 = Returned tt ->
   final r = Returned tt) /\
  (forall e', final r2 = Raised e' -> final r = Raised e').
Proof.
  cbv zeta. unfold main. rewrite run_try_finally, run_try_except.
  destruct (run env start n s) as [f1 s1 t1 c1]. cbn [final state calls trace].
  intros ->. unfold or_else. cbn [final].
  split; [|split].
  - intros X F. rewrite X, orb_true_r.
    assert (K : is_keyboard_interrupt e = false) by (now destruct e).
    rewrite K. cbn. unfold and_finally, and_then, then_run, ended, emitted. cbn.
    rewrite F. cbn. rewrite app_nil_r, <- app_assoc. auto.
  - intros -> F. cbn. unfold and_finally, and_then, then_run, ended, emitted. cbn.
    now rewrite F.
  - intros e' F.
    destruct (is_keyboard_interrupt e || is_exception e) eqn:C.
    + destruct (is_keyboard_interrupt e); cbn;
        unfold and_finally, and_then, then_run, ended, emitted; cbn;
        now rewrite F.
    + unfold and_finally, and_then, then_run, ended, emitted; cbn.
      now rewrite F.
Qed.

Lemma main_exit_on_startup_error_witness :
  final (run sick main 0 (new_launcher default_config)) =
  Raised (SystemExit 1).
Proof.
  destruct (main_exit_on_startup_error sick 0%nat
              (new_launcher default_config)
              (RuntimeError "PostgreSQL health check failed: {}"
                 [VDict [("status", VStr "degraded")]]) eq_refl)
    as (H & _).
  now destruct (H eq_refl eq_refl) as (F & _).
Defined.

(** ** The components, in order *)

Lemma system_initializer_interfere r s :
  system_initializer (interfere r s) = system_initializer s.
Proof. unfold interfere. now destruct (shutdown_began r). Qed.

(** [initialize_system] in any environment, from a launcher without
    components: when it returns the four components are set; and wherever
    it stops, the components set so far respect the order of creation (no
    coordinator without initializer, no initializer without shared state,
    no shared state without adapter), which is the order [shutdown] closes
    them in reverse. *)
Theorem initialize_sets_components_in_order env n cfg :
  let r := run env initialize_system n (new_launcher cfg) in
  (final r = Returned tt ->
   postgresql_adapter (state r) = true /\ shared_state (state r) = true /\
   system_initializer (state r) = true /\
   agent_coordinator (state r) = true) /\
  (agent_coordinator (state r) = true ->
   system_initializer (state r) = true) /\
  (system_initializer (state r) = true -> shared_state (state r) = true) /\
  (shared_state (state r) = true -> postgresql_adapter (state r) = true) /\
  agents (state r) = [] /\ is_running (state r) = false.
Proof.
  symbolic. unfold initialize_system. cbn.
  repeat first [answer env | branch]; conclude;
    repeat (progress (rewrite ?system_initializer_interfere;
                      autorewrite with launcher; cbn));
    repeat split; auto; try discriminate.
Qed.

Lemma initialize_sets_components_in_order_witness :
  let r := run all_well initialize_system 0 (new_launcher default_config) in
  postgresql_adapter (state r) = true /\ agent_coordinator (state r) = true.
Proof.
  destruct (initialize_sets_components_in_order all_well 0%nat default_config)
    as (H & _).
  destruct (H eq_refl) as (A & _ & _ & C).
  split; assumption.
Defined.
